(** * Queue inspection and discovery of [rabbitmq_interface.py]

    A shallow embedding of the class [RabbitMQInterface]: the browsing
    operations ([peek_messages], [list_queue_commands],
    [inspect_queue_by_name], [_check_command_queue_status],
    [_analyze_message_types]), the real-time monitor callback, queue
    discovery and partial-name inspection, the queue status classification
    and [send_command].

    Python [bytes] and [str] are both modelled by [string] (a sequence of
    8-bit characters); a [str] is represented by its UTF-8 encoding.  Python
    integers are [Z].  The broker behind [self.channel] is an explicit state
    ([world]); every method is a function from a world to an outcome and a
    new world, and an exception is an outcome ([Raise]) that keeps the state
    changes made before it was raised. *)

From Stdlib Require Import ZArith NArith List String Ascii Bool Lia DecimalString.
From Stdlib Require Import Sorting.Sorted Sorting.Permutation.
From stdpp Require Import gmap strings list.

Set Warnings "-register-all".
Local Open Scope string_scope.
Local Open Scope Z_scope.

(** ** The Python runtime: exceptions and JSON values *)

(** The exception classes that the modelled code can meet.  All of them
    derive from [Exception] except [KeyboardInterrupt]; [JSONDecodeError] is
    the only one that an [except json.JSONDecodeError] clause catches. *)
Inductive exn : Type :=
| UnicodeDecodeError
| JSONDecodeError
| AttributeError
| TypeError
| ChannelClosedByBroker (reply_code : Z)
| ChannelWrongStateError
| RequestException
| PlainException
| ValueError
| EOFError
| KeyboardInterrupt.

Definition is_Exception (e : exn) : bool :=
  match e with KeyboardInterrupt => false | _ => true end.

Definition is_JSONDecodeError (e : exn) : bool :=
  match e with JSONDecodeError => true | _ => false end.

Inductive result (A : Type) : Type :=
| Ok (a : A)
| Raise (e : exn).
Arguments Ok {A} a.
Arguments Raise {A} e.

(** What [json.loads] builds: [dict], [list], [str], a number, [bool] or
    [None].  A number keeps its lexeme (the code under study never computes
    with one); a [dict] keeps its items in insertion order. *)
Inductive json : Type :=
| JNull
| JBool (b : bool)
| JNum (lexeme : string)
| JStr (s : string)
| JArr (items : list json)
| JObj (fields : list (string * json)).

Fixpoint dict_lookup (k : string) (d : list (string * json)) : option json :=
  match d with
  | [] => None
  | (k', v) :: d' => if String.eqb k k' then Some v else dict_lookup k d'
  end.

(** [d[k] = v] on a [dict]: an existing key keeps its position. *)
Fixpoint dict_set (k : string) (v : json) (d : list (string * json))
  : list (string * json) :=
  match d with
  | [] => [(k, v)]
  | (k', v') :: d' =>
      if String.eqb k k' then (k, v) :: d' else (k', v') :: dict_set k v d'
  end.

(** [data.get(k, default)]: only a [dict] has the method. *)
Definition py_get (data : json) (k : string) (default : json) : result json :=
  match data with
  | JObj d => Ok (match dict_lookup k d with Some v => v | None => default end)
  | _ => Raise AttributeError
  end.

(** [len(x)] for a value coming out of [json.loads]. *)
Definition py_len (x : json) : result Z :=
  match x with
  | JStr s => Ok (Z.of_nat (String.length s))
  | JArr l => Ok (Z.of_nat (List.length l))
  | JObj d => Ok (Z.of_nat (List.length d))
  | _ => Raise TypeError
  end.

Fixpoint string_take (n : nat) (s : string) : string :=
  match n, s with
  | S n', String a s' => String a (string_take n' s')
  | _, _ => EmptyString
  end.

(** [x[:n]]: strings and lists can be sliced. *)
Definition py_slice (n : nat) (x : json) : result json :=
  match x with
  | JStr s => Ok (JStr (string_take n s))
  | JArr l => Ok (JArr (firstn n l))
  | _ => Raise TypeError
  end.

(** [x != s] for a [str] [s]. *)
Definition json_ne_str (x : json) (s : string) : bool :=
  match x with
  | JStr t => negb (String.eqb t s)
  | _ => true
  end.

(** ** UTF-8: [bytes.decode("utf-8")] and [bytes.decode("utf-8", errors="ignore")] *)

Definition byte_in (lo hi : N) (a : ascii) : bool :=
  let c := N_of_ascii a in (N.leb lo c && N.leb c hi)%bool.

Definition is_cont (a : ascii) : bool := byte_in 128 191 a.

(** Splits the first well-formed UTF-8 character off a byte string. *)
Definition utf8_take (s : string) : option (string * string) :=
  match s with
  | EmptyString => None
  | String a r1 =>
      if byte_in 0 127 a then Some (String a EmptyString, r1)
      else match r1 with
      | EmptyString => None
      | String b r2 =>
          if (byte_in 194 223 a && is_cont b)%bool
          then Some (String a (String b EmptyString), r2)
          else match r2 with
          | EmptyString => None
          | String c r3 =>
              if ((byte_in 224 224 a && byte_in 160 191 b
                   || byte_in 225 236 a && is_cont b
                   || byte_in 237 237 a && byte_in 128 159 b
                   || byte_in 238 239 a && is_cont b) && is_cont c)%bool
              then Some (String a (String b (String c EmptyString)), r3)
              else match r3 with
              | EmptyString => None
              | String d r4 =>
                  if ((byte_in 240 240 a && byte_in 144 191 b
                       || byte_in 241 243 a && is_cont b
                       || byte_in 244 244 a && byte_in 128 143 b)
                      && is_cont c && is_cont d)%bool
                  then Some (String a (String b (String c (String d EmptyString))), r4)
                  else None
              end
          end
      end
  end.

Fixpoint utf8_valid_fuel (fuel : nat) (s : string) : bool :=
  match s with
  | EmptyString => true
  | _ =>
      match fuel with
      | O => false
      | S fuel' =>
          match utf8_take s with
          | Some (_, rest) => utf8_valid_fuel fuel' rest
          | None => false
          end
      end
  end.

Definition utf8_valid (s : string) : bool := utf8_valid_fuel (String.length s) s.

(** [body.decode("utf-8")] *)
Definition decode_utf8 (body : string) : result string :=
  if utf8_valid body then Ok body else Raise UnicodeDecodeError.

Fixpoint decode_utf8_ignore_fuel (fuel : nat) (s : string) : string :=
  match fuel with
  | O => EmptyString
  | S fuel' =>
      match utf8_take s with
      | Some (c, rest) => c ++ decode_utf8_ignore_fuel fuel' rest
      | None =>
          match s with
          | EmptyString => EmptyString
          | String _ rest => decode_utf8_ignore_fuel fuel' rest
          end
      end
  end.

(** [body.decode("utf-8", errors="ignore")]: the bytes that belong to no
    well-formed character are dropped. *)
Definition decode_utf8_ignore (body : string) : string :=
  decode_utf8_ignore_fuel (String.length body) body.

(** ** Strings *)

(** Lower-casing of the ASCII letters; the other bytes are left as they
    are. *)
Definition lower_char (a : ascii) : ascii :=
  if byte_in 65 90 a then ascii_of_N (N_of_ascii a + 32) else a.

Fixpoint ascii_lower (s : string) : string :=
  match s with
  | EmptyString => EmptyString
  | String a r => String (lower_char a) (ascii_lower r)
  end.

Fixpoint starts_with (p s : string) : bool :=
  match p, s with
  | EmptyString, _ => true
  | String a p', String b s' => (Ascii.eqb a b && starts_with p' s')%bool
  | _, _ => false
  end.

(** [p in s] for two strings. *)
Fixpoint contains (p s : string) : bool :=
  (starts_with p s ||
   match s with
   | EmptyString => false
   | String _ s' => contains p s'
   end)%bool.

Fixpoint all_chars (f : ascii -> bool) (s : string) : bool :=
  match s with
  | EmptyString => true
  | String a r => (f a && all_chars f r)%bool
  end.

(** Text of ASCII characters. *)
Definition is_ascii (s : string) : bool := all_chars (byte_in 0 127) s.

(** [s.lower()] belongs to Python, not to the program: it maps every
    character by the case mapping of Unicode.  The program is modelled over
    any implementation of the method ([StrLib]) that lower-cases text of
    ASCII characters as [ascii_lower] does; [py_str] gives one, used to run
    the model on concrete input. *)
Class StrLib : Type := {
  lower : string -> string;
  lower_ascii : forall s, is_ascii s = true -> lower s = ascii_lower s
}.

Definition py_str : StrLib :=
  {| lower := ascii_lower; lower_ascii := fun _ _ => eq_refl |}.

(** [s.isdigit()], on the ASCII digits: a non-empty string of digits. *)
Definition isdigit (s : string) : bool :=
  (negb (String.eqb s EmptyString) && all_chars (byte_in 48 57) s)%bool.

(** [str(n)] for an integer. *)
Definition str_of_Z (n : Z) : string := NilZero.string_of_int (Z.to_int n).

(** [int(s)] for an optional sign followed by ASCII digits; [None] stands
    for [ValueError]. *)
Definition int_of_str (s : string) : option Z :=
  match s with
  | EmptyString => None
  | String a r =>
      let digits := if (Ascii.eqb a "-"%char || Ascii.eqb a "+"%char)%bool then r else s in
      if isdigit digits then
        match NilZero.uint_of_string digits with
        | Some u =>
            Some (if Ascii.eqb a "-"%char then - Z.of_uint u else Z.of_uint u)
        | None => None
        end
      else None
  end.

(** The white space of [str.isspace], which [str.strip] removes, as it is
    encoded in UTF-8: the characters 9 to 13 and 28 to 32 in one byte,
    U+0085 and U+00A0 in two, U+1680, U+2000 to U+200A, U+2028, U+2029,
    U+202F, U+205F and U+3000 in three. *)
Definition is_space (a : ascii) : bool :=
  (byte_in 9 13 a || byte_in 28 32 a)%bool.

Definition is_space2 (a b : ascii) : bool :=
  (byte_in 194 194 a && (byte_in 133 133 b || byte_in 160 160 b))%bool.

Definition is_space3 (a b c : ascii) : bool :=
  (byte_in 225 225 a && byte_in 154 154 b && byte_in 128 128 c
   || byte_in 226 226 a && byte_in 128 128 b
      && (byte_in 128 138 c || byte_in 168 169 c || byte_in 175 175 c)
   || byte_in 226 226 a && byte_in 129 129 b && byte_in 159 159 c
   || byte_in 227 227 a && byte_in 128 128 b && byte_in 128 128 c)%bool.

Fixpoint lstrip (s : string) : string :=
  match s with
  | EmptyString => s
  | String a r =>
      if is_space a then lstrip r
      else
        match r with
        | EmptyString => s
        | String b r2 =>
            if is_space2 a b then lstrip r2
            else
              match r2 with
              | EmptyString => s
              | String c r3 => if is_space3 a b c then lstrip r3 else s
              end
        end
  end.

(** Nothing but white space. *)
Definition blank (s : string) : bool :=
  match lstrip s with
  | EmptyString => true
  | _ => false
  end.

Fixpoint rstrip (s : string) : string :=
  match s with
  | EmptyString => EmptyString
  | String a r => if blank s then EmptyString else String a (rstrip r)
  end.

(** [s.strip()] *)
Definition strip (s : string) : string := rstrip (lstrip s).

(** ** The [json] module

    [json.loads] and [json.dumps] belong to the Python standard library, not
    to the program.  The program is modelled over any implementation of the
    two ([JsonLib]); [json_parse] and [json_print] below give one, used to
    run the model on concrete message bodies. *)
Class JsonLib : Type := {
  (** [json.loads(text)]; [None] stands for [json.JSONDecodeError]. *)
  json_loads : string -> option json;
  (** [json.dumps(value)] *)
  json_dumps : json -> string
}.

Definition dquote : ascii := ascii_of_N 34.
Definition quoted (s : string) : string := String dquote (s ++ String dquote EmptyString).

Definition is_ws (a : ascii) : bool :=
  let c := N_of_ascii a in
  (N.eqb c 32 || N.eqb c 9 || N.eqb c 10 || N.eqb c 13)%bool.

Fixpoint skip_ws (s : string) : string :=
  match s with
  | String a r => if is_ws a then skip_ws r else s
  | EmptyString => s
  end.

Definition is_digit (a : ascii) : bool := byte_in 48 57 a.

Definition hex_val (a : ascii) : option N :=
  let c := N_of_ascii a in
  if byte_in 48 57 a then Some (c - 48)%N
  else if byte_in 97 102 a then Some (c - 87)%N
  else if byte_in 65 70 a then Some (c - 55)%N
  else None.

(** The four hexadecimal digits of a [\uXXXX] escape. *)
Definition hex4 (s : string) : option (N * string) :=
  match s with
  | String a (String b (String c (String d r))) =>
      match hex_val a, hex_val b, hex_val c, hex_val d with
      | Some x, Some y, Some z, Some t => Some (((x * 16 + y) * 16 + z) * 16 + t, r)%N
      | _, _, _, _ => None
      end
  | _ => None
  end.

Definition byte_str (n : N) : string := String (ascii_of_N n) EmptyString.

(** The UTF-8 encoding of a code point. *)
Definition utf8_encode (cp : N) : string :=
  (if cp <? 128 then byte_str cp
   else if cp <? 2048 then byte_str (192 + cp / 64) ++ byte_str (128 + cp mod 64)
   else if cp <? 65536 then
     byte_str (224 + cp / 4096) ++ byte_str (128 + (cp / 64) mod 64)
     ++ byte_str (128 + cp mod 64)
   else
     byte_str (240 + cp / 262144) ++ byte_str (128 + (cp / 4096) mod 64)
     ++ byte_str (128 + (cp / 64) mod 64) ++ byte_str (128 + cp mod 64))%N.

(** The characters of a string literal after its opening quote. *)
Fixpoint parse_string (s : string) : option (string * string) :=
  match s with
  | EmptyString => None
  | String a r =>
      if Ascii.eqb a dquote then Some (EmptyString, r)
      else if byte_in 0 31 a then None
      else if Ascii.eqb a "\"%char then
        match r with
        | EmptyString => None
        | String e r' =>
            let simple (c : N) :=
              match parse_string r' with
              | Some (t, r2) => Some (String (ascii_of_N c) t, r2)
              | None => None
              end in
            if Ascii.eqb e dquote then simple 34%N
            else if Ascii.eqb e "\"%char then simple 92%N
            else if Ascii.eqb e "/"%char then simple 47%N
            else if Ascii.eqb e "b"%char then simple 8%N
            else if Ascii.eqb e "f"%char then simple 12%N
            else if Ascii.eqb e "n"%char then simple 10%N
            else if Ascii.eqb e "r"%char then simple 13%N
            else if Ascii.eqb e "t"%char then simple 9%N
            else if Ascii.eqb e "u"%char then
              match r' with
              | String h1 (String h2 (String h3 (String h4 r2))) =>
                  match hex4 (String h1 (String h2 (String h3 (String h4 EmptyString)))) with
                  | Some (hi, _) =>
                      let single :=
                        match parse_string r2 with
                        | Some (t, r3) => Some (utf8_encode hi ++ t, r3)
                        | None => None
                        end in
                      if ((55296 <=? hi) && (hi <=? 56319))%N then
                        match r2 with
                        | String b1 (String b2 (String l1 (String l2 (String l3 (String l4 r3))))) =>
                            if (Ascii.eqb b1 "\"%char && Ascii.eqb b2 "u"%char)%bool then
                              match hex4 (String l1 (String l2 (String l3 (String l4 EmptyString)))) with
                              | Some (lo, _) =>
                                  if ((56320 <=? lo) && (lo <=? 57343))%N then
                                    match parse_string r3 with
                                    | Some (t, r4) =>
                                        Some (utf8_encode (65536 + (hi - 55296) * 1024 + (lo - 56320))%N ++ t, r4)
                                    | None => None
                                    end
                                  else single
                              | None => single
                              end
                            else single
                        | _ => single
                        end
                      else single
                  | None => None
                  end
              | _ => None
              end
            else None
        end
      else
        match parse_string r with
        | Some (t, r') => Some (String a t, r')
        | None => None
        end
  end.

Fixpoint span_digits (s : string) : string * string :=
  match s with
  | String a r =>
      if is_digit a then let '(d, r') := span_digits r in (String a d, r')
      else (EmptyString, s)
  | EmptyString => (EmptyString, s)
  end.

(** A number: an optional minus sign, an integer part without a leading
    zero, an optional fraction and an optional exponent; its lexeme is kept. *)
Definition parse_number (s : string) : option (string * string) :=
  let '(sign, s1) :=
    match s with
    | String a r => if Ascii.eqb a "-"%char then ("-", r) else (EmptyString, s)
    | _ => (EmptyString, s)
    end in
  let int_part :=
    match s1 with
    | String a r =>
        if Ascii.eqb a "0"%char then Some ("0", r)
        else if is_digit a then let '(d, r') := span_digits s1 in Some (d, r')
        else None
    | EmptyString => None
    end in
  match int_part with
  | None => None
  | Some (i, s2) =>
      let '(frac, s3) :=
        match s2 with
        | String a r =>
            if Ascii.eqb a "."%char then
              match span_digits r with
              | (EmptyString, _) => (EmptyString, s2)
              | (d, r') => (String a d, r')
              end
            else (EmptyString, s2)
        | _ => (EmptyString, s2)
        end in
      let '(ex, s4) :=
        match s3 with
        | String a r =>
            if (Ascii.eqb a "e"%char || Ascii.eqb a "E"%char)%bool then
              let '(sg, r1) :=
                match r with
                | String b r' =>
                    if (Ascii.eqb b "-"%char || Ascii.eqb b "+"%char)%bool
                    then (String b EmptyString, r') else (EmptyString, r)
                | _ => (EmptyString, r)
                end in
              match span_digits r1 with
              | (EmptyString, _) => (EmptyString, s3)
              | (d, r') => (String a (sg ++ d), r')
              end
            else (EmptyString, s3)
        | _ => (EmptyString, s3)
        end in
      Some (sign ++ i ++ frac ++ ex, s4)
  end.

(** [strip_prefix p s]: the rest of [s] after the prefix [p]. *)
Fixpoint strip_prefix (p s : string) : option string :=
  match p, s with
  | EmptyString, _ => Some s
  | String a p', String b s' => if Ascii.eqb a b then strip_prefix p' s' else None
  | _, _ => None
  end.

Definition parse_literal (s : string) : option (json * string) :=
  match strip_prefix "null" s with Some r => Some (JNull, r) | None =>
  match strip_prefix "true" s with Some r => Some (JBool true, r) | None =>
  match strip_prefix "false" s with Some r => Some (JBool false, r) | None =>
  match strip_prefix "NaN" s with Some r => Some (JNum "NaN", r) | None =>
  match strip_prefix "Infinity" s with Some r => Some (JNum "Infinity", r) | None =>
  match strip_prefix "-Infinity" s with Some r => Some (JNum "-Infinity", r) | None =>
  match parse_number s with Some (n, r) => Some (JNum n, r) | None => None
  end end end end end end end.

Fixpoint parse_value (fuel : nat) (s : string) : option (json * string) :=
  match fuel with
  | O => None
  | S fuel' =>
      match s with
      | EmptyString => None
      | String a r =>
          if Ascii.eqb a dquote then
            match parse_string r with
            | Some (t, r') => Some (JStr t, r')
            | None => None
            end
          else if Ascii.eqb a "{"%char then
            match skip_ws r with
            | String b r' =>
                if Ascii.eqb b "}"%char then Some (JObj [], r')
                else parse_members fuel' (String b r') []
            | EmptyString => None
            end
          else if Ascii.eqb a "["%char then
            match skip_ws r with
            | String b r' =>
                if Ascii.eqb b "]"%char then Some (JArr [], r')
                else parse_elements fuel' (String b r') []
            | EmptyString => None
            end
          else parse_literal s
      end
  end
with parse_members (fuel : nat) (s : string) (acc : list (string * json))
  : option (json * string) :=
  match fuel with
  | O => None
  | S fuel' =>
      match s with
      | String a r =>
          if Ascii.eqb a dquote then
            match parse_string r with
            | Some (k, r1) =>
                match skip_ws r1 with
                | String c r2 =>
                    if Ascii.eqb c ":"%char then
                      match parse_value fuel' (skip_ws r2) with
                      | Some (v, r3) =>
                          match skip_ws r3 with
                          | String d r4 =>
                              if Ascii.eqb d "}"%char then Some (JObj (dict_set k v acc), r4)
                              else if Ascii.eqb d ","%char
                              then parse_members fuel' (skip_ws r4) (dict_set k v acc)
                              else None
                          | EmptyString => None
                          end
                      | None => None
                      end
                    else None
                | EmptyString => None
                end
            | None => None
            end
          else None
      | EmptyString => None
      end
  end
with parse_elements (fuel : nat) (s : string) (acc : list json)
  : option (json * string) :=
  match fuel with
  | O => None
  | S fuel' =>
      match parse_value fuel' s with
      | Some (v, r) =>
          match skip_ws r with
          | String d r' =>
              if Ascii.eqb d "]"%char then Some (JArr (acc ++ [v]), r')
              else if Ascii.eqb d ","%char
              then parse_elements fuel' (skip_ws r') (acc ++ [v])
              else None
          | EmptyString => None
          end
      | None => None
      end
  end.

(** A model of [json.loads]: one value between optional white space. *)
Definition json_parse (text : string) : option json :=
  match parse_value (S (String.length text)) (skip_ws text) with
  | Some (v, r) =>
      match skip_ws r with
      | EmptyString => Some v
      | _ => None
      end
  | None => None
  end.

Definition hex_digit (n : N) : ascii :=
  if (n <? 10)%N then ascii_of_N (48 + n) else ascii_of_N (87 + n).

Definition u_escape (cp : N) : string :=
  "\u" ++ String (hex_digit (cp / 4096)) (String (hex_digit ((cp / 256) mod 16))
            (String (hex_digit ((cp / 16) mod 16)) (String (hex_digit (cp mod 16)) EmptyString))).

(** The code point of one well-formed UTF-8 character. *)
Definition utf8_code_point (c : string) : N :=
  match c with
  | String a EmptyString => N_of_ascii a
  | String a (String b EmptyString) =>
      ((N_of_ascii a - 192) * 64 + (N_of_ascii b - 128))%N
  | String a (String b (String c EmptyString)) =>
      (((N_of_ascii a - 224) * 64 + (N_of_ascii b - 128)) * 64 + (N_of_ascii c - 128))%N
  | String a (String b (String c (String d _))) =>
      ((((N_of_ascii a - 240) * 64 + (N_of_ascii b - 128)) * 64
        + (N_of_ascii c - 128)) * 64 + (N_of_ascii d - 128))%N
  | EmptyString => 0%N
  end.

Definition escape_char (c : string) : string :=
  let cp := utf8_code_point c in
  if (cp =? 34)%N then "\" ++ String dquote EmptyString
  else if (cp =? 92)%N then "\\"
  else if (cp =? 10)%N then "\n"
  else if (cp =? 13)%N then "\r"
  else if (cp =? 9)%N then "\t"
  else if (cp =? 8)%N then "\b"
  else if (cp =? 12)%N then "\f"
  else if (cp <? 32)%N then u_escape cp
  else if (cp <? 128)%N then c
  else if (cp <? 65536)%N then u_escape cp
  else u_escape (55296 + (cp - 65536) / 1024) ++ u_escape (56320 + (cp - 65536) mod 1024).

Fixpoint escape_fuel (fuel : nat) (s : string) : string :=
  match fuel with
  | O => EmptyString
  | S fuel' =>
      match utf8_take s with
      | Some (c, rest) => escape_char c ++ escape_fuel fuel' rest
      | None => EmptyString
      end
  end.

Definition print_string (s : string) : string :=
  quoted (escape_fuel (String.length s) s).

Fixpoint join (sep : string) (l : list string) : string :=
  match l with
  | [] => EmptyString
  | [x] => x
  | x :: l' => x ++ sep ++ join sep l'
  end.

(** A model of [json.dumps] with its default separators and
    [ensure_ascii=True]. *)
Fixpoint json_print (v : json) : string :=
  match v with
  | JNull => "null"
  | JBool true => "true"
  | JBool false => "false"
  | JNum n => n
  | JStr s => print_string s
  | JArr l => "[" ++ join ", " (List.map json_print l) ++ "]"
  | JObj d =>
      "{" ++ join ", " (List.map (fun kv => print_string (fst kv) ++ ": " ++ json_print (snd kv)) d)
      ++ "}"
  end.

Definition py_json : JsonLib :=
  {| json_loads := json_parse; json_dumps := json_print |}.

(** ** The broker behind [self.channel] *)

Record message : Type := {
  msg_body : string;
  msg_delivery_mode : option Z;
  msg_content_type : option string
}.

(** A queue: [q_ready] lists the messages waiting for delivery, next one
    first. *)
Record queue : Type := {
  q_ready : list message;
  q_consumers : Z;
  q_durable : bool
}.

(** One entry of the queue list answered by the management endpoint, fields
    being optional, or an entry that is not a JSON object. *)
Record descriptor : Type := {
  d_name : option string;
  d_messages : option Z;
  d_consumers : option Z;
  d_durable : option bool;
  d_auto_delete : option bool
}.

Inductive mgmt_item : Type :=
| ItemQueue (d : descriptor)
| ItemOther.

(** The outcome of [requests.get(management_url, ...)]: an exception (the
    library is missing, the endpoint is unreachable, the request timed out),
    or a response with a status code and a body; [None] is a body that
    [response.json()] rejects. *)
Inductive mgmt_reply : Type :=
| MgmtRaise (e : exn)
| MgmtResponse (status_code : Z) (body : option (list mgmt_item)).

(** Values interpolated into a printed or logged line. *)
Inductive arg : Type :=
| AStr (s : string)
| AInt (z : Z)
| AJson (v : json)
| AExn (e : exn).

Inductive level : Type := DEBUG | INFO | WARNING | ERROR | STDOUT.

(** What the operations leave behind, in the order they happen: the calls
    made on the channel, and the lines logged or printed (the fixed text of a
    line and the values interpolated into it). *)
Inductive event : Type :=
| EvDeclare (name : string) (passive durable : bool)
| EvGet (name : string) (delivery : option (Z * string))
| EvNack (delivery_tag : Z)
| EvAck (delivery_tag : Z)
| EvPublish (routing_key : string) (m : message)
| EvHttpGet
| EvInput (answer : string)
| EvOut (lvl : level) (text : string) (args : list arg)
| EvDeliver (name : string) (delivery_tag : Z) (body : string).

Record world : Type := {
  queues : gmap string queue;
  (** deliveries not yet acknowledged on the channel, latest first *)
  unacked : list (Z * (string * message));
  next_tag : Z;
  chan_open : bool;
  mgmt : mgmt_reply;
  (** the operator's answers to [input()] *)
  stdin : list string;
  (** what [uuid.uuid4()] and [int(time.time())] give next *)
  next_uuid : string;
  clock : Z;
  trace : list event
}.

Definition set_broker (qs : gmap string queue) (un : list (Z * (string * message)))
  (tag : Z) (open : bool) (w : world) : world :=
  {| queues := qs; unacked := un; next_tag := tag; chan_open := open;
     mgmt := mgmt w; stdin := stdin w; next_uuid := next_uuid w; clock := clock w;
     trace := trace w |}.

(** The world after more events. *)
Definition add_trace (evs : list event) (w : world) : world :=
  {| queues := queues w; unacked := unacked w; next_tag := next_tag w;
     chan_open := chan_open w; mgmt := mgmt w; stdin := stdin w;
     next_uuid := next_uuid w; clock := clock w; trace := trace w ++ evs |}.

Definition emit (e : event) (w : world) : world := add_trace [e] w.

(** [push_front name m qs]: the message goes back to the head of its queue. *)
Definition push_front (name : string) (m : message) (qs : gmap string queue)
  : gmap string queue :=
  match qs !! name with
  | Some q =>
      <[name := {| q_ready := m :: q_ready q; q_consumers := q_consumers q;
                   q_durable := q_durable q |}]> qs
  | None => qs
  end.

(** The broker requeues what a closing channel had not acknowledged; the
    latest delivery goes back first, so that the earliest ends up in front. *)
Definition requeue_unacked (un : list (Z * (string * message))) (qs : gmap string queue)
  : gmap string queue :=
  fold_left (fun qs d => push_front (fst (snd d)) (snd (snd d)) qs) un qs.

(** A channel error: the broker closes the channel. *)
Definition close_channel (w : world) : world :=
  set_broker (requeue_unacked (unacked w) (queues w)) [] (next_tag w) false w.

(** ** Computations: state and exceptions *)

Definition M (A : Type) : Type := world -> result A * world.

Definition ret {A} (a : A) : M A := fun w => (Ok a, w).
Definition raise {A} (e : exn) : M A := fun w => (Raise e, w).
Definition bind {A B} (c : M A) (k : A -> M B) : M B :=
  fun w => match c w with
           | (Ok a, w') => k a w'
           | (Raise e, w') => (Raise e, w')
           end.
Definition lift {A} (r : result A) : M A := fun w => (r, w).

Notation "x <- c ;; k" := (bind c (fun x => k))
  (at level 100, c at next level, right associativity).
Notation "c ;;; k" := (bind c (fun _ => k))
  (at level 100, right associativity).

(** [try: c except <handles>: h] *)
Definition try_except {A} (c : M A) (handles : exn -> bool) (h : exn -> M A) : M A :=
  fun w => match c w with
           | (Raise e, w') => if handles e then h e w' else (Raise e, w')
           | r => r
           end.

(** [try: c finally: f] *)
Definition try_finally {A} (c : M A) (f : M unit) : M A :=
  fun w => match c w with
           | (r, w') =>
               match f w' with
               | (Ok _, w'') => (r, w'')
               | (Raise e, w'') => (Raise e, w'')
               end
           end.

Definition out (lvl : level) (text : string) (args : list arg) : M unit :=
  fun w => (Ok tt, emit (EvOut lvl text args) w).

Definition print := out STDOUT.
Definition logger_info := out INFO.
Definition logger_debug := out DEBUG.
Definition logger_warning := out WARNING.
Definition logger_error := out ERROR.

(** [input(prompt)] *)
Definition input : M string :=
  fun w => match stdin w with
           | [] => (Raise EOFError, w)
           | a :: rest =>
               (Ok a, emit (EvInput a)
                  {| queues := queues w; unacked := unacked w; next_tag := next_tag w;
                     chan_open := chan_open w; mgmt := mgmt w; stdin := rest;
                     next_uuid := next_uuid w; clock := clock w; trace := trace w |})
           end.

(** *** Channel methods

    The connection itself is taken to stay up; a channel error closes the
    channel, and a closed channel refuses every call.  The consumers counted
    on a queue take no message while an operation runs. *)

Definition counts (q : queue) : Z * Z :=
  (Z.of_nat (List.length (q_ready q)), q_consumers q).

(** [self.channel.queue_declare(queue=name, passive=True)], giving
    [method.message_count] and [method.consumer_count]. *)
Definition queue_declare_passive (name : string) : M (Z * Z) :=
  fun w0 =>
    let w := emit (EvDeclare name true false) w0 in
    if chan_open w then
      match queues w !! name with
      | Some q => (Ok (counts q), w)
      | None => (Raise (ChannelClosedByBroker 404), close_channel w)
      end
    else (Raise ChannelWrongStateError, w).

(** [self.channel.queue_declare(queue=name, durable=True)]: creates the queue
    when it is absent; an existing queue must be durable too. *)
Definition queue_declare_durable (name : string) : M (Z * Z) :=
  fun w0 =>
    let w := emit (EvDeclare name false true) w0 in
    if chan_open w then
      match queues w !! name with
      | Some q =>
          if q_durable q then (Ok (counts q), w)
          else (Raise (ChannelClosedByBroker 406), close_channel w)
      | None =>
          (Ok (0, 0),
           set_broker (<[name := {| q_ready := []; q_consumers := 0; q_durable := true |}]>
                         (queues w))
             (unacked w) (next_tag w) true w)
      end
    else (Raise ChannelWrongStateError, w).

(** [self.channel.basic_get(queue=name, auto_ack=False)]: [None] when the
    queue is empty, else the delivery tag and the body of the first message,
    which stays unacknowledged on the channel. *)
Definition basic_get (name : string) : M (option (Z * string)) :=
  fun w =>
    if chan_open w then
      match queues w !! name with
      | Some q =>
          match q_ready q with
          | [] => (Ok None, emit (EvGet name None) w)
          | m :: rest =>
              let tag := next_tag w in
              (Ok (Some (tag, msg_body m)),
               emit (EvGet name (Some (tag, msg_body m)))
                 (set_broker
                    (<[name := {| q_ready := rest; q_consumers := q_consumers q;
                                  q_durable := q_durable q |}]> (queues w))
                    ((tag, (name, m)) :: unacked w) (tag + 1) true w))
          end
      | None => (Raise (ChannelClosedByBroker 404), close_channel w)
      end
    else (Raise ChannelWrongStateError, w).

(** Takes the delivery with the given tag out of the unacknowledged ones. *)
Fixpoint take_delivery (tag : Z) (un : list (Z * (string * message)))
  : option ((string * message) * list (Z * (string * message))) :=
  match un with
  | [] => None
  | (t, d) :: un' =>
      if t =? tag then Some (d, un')
      else match take_delivery tag un' with
           | Some (d', rest) => Some (d', (t, d) :: rest)
           | None => None
           end
  end.

(** [self.channel.basic_nack(delivery_tag=tag)], with [requeue=True] (the
    default of the method): the message returns to the head of its queue. *)
Definition basic_nack (tag : Z) : M unit :=
  fun w0 =>
    let w := emit (EvNack tag) w0 in
    if chan_open w then
      match take_delivery tag (unacked w) with
      | Some ((name, m), un') =>
          (Ok tt, set_broker (push_front name m (queues w)) un' (next_tag w) true w)
      | None => (Raise (ChannelClosedByBroker 406), close_channel w)
      end
    else (Raise ChannelWrongStateError, w).

(** [ch.basic_ack(delivery_tag=tag)]: the message is gone for good. *)
Definition basic_ack (tag : Z) : M unit :=
  fun w0 =>
    let w := emit (EvAck tag) w0 in
    if chan_open w then
      match take_delivery tag (unacked w) with
      | Some (_, un') => (Ok tt, set_broker (queues w) un' (next_tag w) true w)
      | None => (Raise (ChannelClosedByBroker 406), close_channel w)
      end
    else (Raise ChannelWrongStateError, w).

(** [self.channel.basic_publish(exchange="", routing_key=name, body=...,
    properties=...)]: the default exchange routes to the queue of that name,
    at its tail; a message that cannot be routed is dropped. *)
Definition basic_publish (name : string) (m : message) : M unit :=
  fun w0 =>
    let w := emit (EvPublish name m) w0 in
    if chan_open w then
      match queues w !! name with
      | Some q =>
          (Ok tt,
           set_broker (<[name := {| q_ready := q_ready q ++ [m]; q_consumers := q_consumers q;
                                    q_durable := q_durable q |}]> (queues w))
             (unacked w) (next_tag w) true w)
      | None => (Ok tt, w)
      end
    else (Raise ChannelWrongStateError, w).

(** The broker pushes the next message of a queue to the consumer registered
    by [basic_consume(..., auto_ack=False)]. *)
Definition deliver (name : string) : M (option (Z * string)) :=
  fun w =>
    if chan_open w then
      match queues w !! name with
      | Some q =>
          match q_ready q with
          | [] => (Ok None, w)
          | m :: rest =>
              let tag := next_tag w in
              (Ok (Some (tag, msg_body m)),
               emit (EvDeliver name tag (msg_body m))
                 (set_broker
                    (<[name := {| q_ready := rest; q_consumers := q_consumers q;
                                  q_durable := q_durable q |}]> (queues w))
                    ((tag, (name, m)) :: unacked w) (tag + 1) true w))
          end
      | None => (Raise (ChannelClosedByBroker 404), close_channel w)
      end
    else (Raise ChannelWrongStateError, w).

(** [self.channel.queue_purge(queue=name)]: the broker drops the messages
    that are ready in the queue, not the deliveries that wait for their
    acknowledgment, and answers with the number of messages dropped. *)
Definition queue_purge (name : string) : M Z :=
  fun w =>
    if chan_open w then
      match queues w !! name with
      | Some q =>
          (Ok (fst (counts q)),
           set_broker (<[name := {| q_ready := []; q_consumers := q_consumers q;
                                    q_durable := q_durable q |}]> (queues w))
             (unacked w) (next_tag w) true w)
      | None => (Raise (ChannelClosedByBroker 404), close_channel w)
      end
    else (Raise ChannelWrongStateError, w).

(** [requests.get(management_url, auth=..., timeout=5)] *)
Definition requests_get : M (Z * option (list mgmt_item)) :=
  fun w0 =>
    let w := emit EvHttpGet w0 in
    match mgmt w with
    | MgmtRaise e => (Raise e, w)
    | MgmtResponse code body => (Ok (code, body), w)
    end.

(** [uuid.uuid4()] and [int(time.time())] *)
Definition uuid4 : M string := fun w => (Ok (next_uuid w), w).
Definition time_now : M Z := fun w => (Ok (clock w), w).

Fixpoint repeat_str (c : string) (n : nat) : string :=
  match n with
  | O => EmptyString
  | S n' => c ++ repeat_str c n'
  end.

(** ** The class [RabbitMQInterface] *)

Record RabbitMQInterface : Type := {
  target_imei : option string
}.

(** [self.data_queue], set once by [__init__]. *)
Definition data_queue : string := "device_tcp_data".

(** [if self.target_imei:] holds for a non-empty string. *)
Definition filtering (self : RabbitMQInterface) : option string :=
  match target_imei self with
  | Some t => if String.eqb t EmptyString then None else Some t
  | None => None
  end.

(** [ensure_connection]: a closed channel is replaced by a new one. *)
Definition ensure_connection : M unit :=
  fun w =>
    if chan_open w then (Ok tt, w)
    else
      (Ok tt,
       set_broker (queues w) [] 1 true
         (emit (EvOut INFO "Channel lost, recreating..." []) w)).

Section Program.

Context {J : JsonLib} {U : StrLib}.

(** [json.loads(body.decode("utf-8"))] *)
Definition loads_body (body : string) : M json :=
  text <- lift (decode_utf8 body) ;;
  match json_loads text with
  | Some data => ret data
  | None => raise JSONDecodeError
  end.

Definition json_eq_str (x : json) (s : string) : bool := negb (json_ne_str x s).

Definition when (b : bool) (c : M unit) : M unit := if b then c else ret tt.

(** *** [_display_message] *)
Definition _display_message (msg_num : arg) (body : string) (show_json : bool) : M unit :=
  try_except
    (data <- loads_body body ;;
     msg_type <- lift (py_get data "type" (JStr "UNKNOWN")) ;;
     logger_info "Message {msg_num}:" [msg_num] ;;;
     logger_info "  Type: {msg_type}" [AJson msg_type] ;;;
     imei <- lift (py_get data "imei" (JStr "N/A")) ;;
     logger_info "  IMEI: {}" [AJson imei] ;;;
     device <- lift (py_get data "device" (JStr "N/A")) ;;
     logger_info "  Device: {}" [AJson device] ;;;
     timestamp <- lift (py_get data "timestamp" (JStr "N/A")) ;;
     logger_info "  Timestamp: {}" [AJson timestamp] ;;;
     (if json_eq_str msg_type "CONNECTION" then
        message_data <- lift (py_get data "message" (JObj [])) ;;
        status <- lift (py_get message_data "status" (JStr "N/A")) ;;
        logger_info "  Status: {}" [AJson status] ;;;
        source <- lift (py_get message_data "source" (JStr "N/A")) ;;
        logger_info "  Source: {}" [AJson source]
      else if json_eq_str msg_type "DATA" then
        message_data <- lift (py_get data "message" (JObj [])) ;;
        lon <- lift (py_get message_data "lon" (JStr "N/A")) ;;
        lat <- lift (py_get message_data "lat" (JStr "N/A")) ;;
        logger_info "  🗺️  Location: [{}, {}]" [AJson lon; AJson lat] ;;;
        speed <- lift (py_get message_data "speed" (JStr "N/A")) ;;
        logger_info "  Speed: {} km/h" [AJson speed] ;;;
        alt <- lift (py_get message_data "alt" (JStr "N/A")) ;;
        logger_info "  Altitude: {} m" [AJson alt] ;;;
        sat_num <- lift (py_get message_data "sat_num" (JStr "N/A")) ;;
        logger_info "  Satellites: {}" [AJson sat_num] ;;;
        bearing <- lift (py_get message_data "bearing" (JStr "N/A")) ;;
        logger_info "  Bearing: {}°" [AJson bearing] ;;;
        priority <- lift (py_get message_data "priority" (JStr "N/A")) ;;
        logger_info "  Priority: {}" [AJson priority]
      else if json_eq_str msg_type "RAW" then
        message_data <- lift (py_get data "message" (JObj [])) ;;
        hex_data <- lift (py_get message_data "raw_data" (JStr EmptyString)) ;;
        n <- lift (py_len hex_data) ;;
        logger_info "  Raw data length: {} characters" [AInt n] ;;;
        preview <- lift (py_slice 50 hex_data) ;;
        logger_info "  Raw data preview: {}..." [AJson preview]
      else ret tt) ;;;
     when show_json (logger_info "  Full JSON: {}" [AJson data]) ;;;
     logger_info (repeat_str "-" 40) [])
    is_JSONDecodeError
    (fun _ =>
       logger_info "Message {msg_num} (raw):" [msg_num] ;;;
       logger_info "  Raw data: {}" [AStr (decode_utf8_ignore body)] ;;;
       logger_info (repeat_str "-" 40) []).

(** The [finally] block of the browsing operations:
    [for delivery_tag in ...: try: basic_nack(delivery_tag, requeue=True)
    except Exception as e: logger.debug(...)]. *)
Fixpoint requeue_each (tags : list Z) : M unit :=
  match tags with
  | [] => ret tt
  | delivery_tag :: rest =>
      try_except (basic_nack delivery_tag) is_Exception
        (fun e => logger_debug "Error requeuing message {}: {}" [AInt delivery_tag; AExn e]) ;;;
      requeue_each rest
  end.

(** *** [peek_messages] *)

(** The IMEI filter of the loop body: [true] when the message is skipped
    ([continue]). *)
Definition peek_skips (self : RabbitMQInterface) (body : string) : M bool :=
  match filtering self with
  | Some target =>
      try_except
        (data <- loads_body body ;;
         imei <- lift (py_get data "imei" (JStr "UNKNOWN")) ;;
         ret (json_ne_str imei target))
        is_JSONDecodeError
        (fun _ => ret true)
  | None => ret false
  end.

(** The [for] loop of [peek_messages], [n] iterations left; the locals
    [messages_shown] and [messages_to_requeue] are threaded through and
    handed back, also when the loop is left by an exception. *)
Fixpoint peek_loop (self : RabbitMQInterface) (limit : Z) (show_json : bool) (n : nat)
  (messages_shown : Z) (messages_to_requeue : list Z) (w : world)
  : result unit * (Z * list Z) * world :=
  match n with
  | O => (Ok tt, (messages_shown, messages_to_requeue), w)
  | S n' =>
      match basic_get data_queue w with
      | (Raise e, w1) => (Raise e, (messages_shown, messages_to_requeue), w1)
      | (Ok None, w1) => (Ok tt, (messages_shown, messages_to_requeue), w1)
      | (Ok (Some (delivery_tag, body)), w1) =>
          let messages_to_requeue := (messages_to_requeue ++ [delivery_tag])%list in
          match peek_skips self body w1 with
          | (Raise e, w2) => (Raise e, (messages_shown, messages_to_requeue), w2)
          | (Ok true, w2) =>
              peek_loop self limit show_json n' messages_shown messages_to_requeue w2
          | (Ok false, w2) =>
              match _display_message (AInt (messages_shown + 1)) body show_json w2 with
              | (Raise e, w3) => (Raise e, (messages_shown, messages_to_requeue), w3)
              | (Ok _, w3) =>
                  let messages_shown := messages_shown + 1 in
                  if limit <=? messages_shown
                  then (Ok tt, (messages_shown, messages_to_requeue), w3)
                  else peek_loop self limit show_json n' messages_shown messages_to_requeue w3
              end
          end
      end
  end.

(** The [try] ... [finally] statement of [peek_messages]; it hands
    [messages_shown] on. *)
Definition peek_try_finally (self : RabbitMQInterface) (limit : Z) (show_json : bool)
  (message_count : Z) : M Z :=
  fun w =>
    let '(r, (messages_shown, messages_to_requeue), w1) :=
      peek_loop self limit show_json (Z.to_nat (Z.min (limit * 3) message_count)) 0 [] w in
    try_finally (lift r ;;; ret messages_shown) (requeue_each (rev messages_to_requeue)) w1.

Definition peek_messages (self : RabbitMQInterface) (limit : Z) (show_json : bool) : M unit :=
  try_except
    (ensure_connection ;;;
     queue_info <- queue_declare_passive data_queue ;;
     let message_count := fst queue_info in
     if message_count =? 0 then logger_info "📭 No messages in queue to peek" []
     else
       logger_info (repeat_str "=" 60) [] ;;;
       logger_info "PEEKING AT MESSAGES (showing {} of {})"
         [AInt (Z.min limit message_count); AInt message_count] ;;;
       match filtering self with
       | Some t => logger_info "Filtering for IMEI: {}" [AStr t]
       | None => ret tt
       end ;;;
       logger_info (repeat_str "=" 60) [] ;;;
       messages_shown <- peek_try_finally self limit show_json message_count ;;
       match filtering self with
       | Some t =>
           when (messages_shown =? 0) (logger_info "❌ No messages found for IMEI: {}" [AStr t])
       | None => ret tt
       end ;;;
       logger_info (repeat_str "=" 60) [])
    is_Exception
    (fun e => logger_error "Error peeking messages: {}" [AExn e]).

(** *** [_analyze_message_types] *)

(** The keys of the counting dictionaries are values taken from a message: a
    [list] or a [dict] cannot be hashed.  Numbers are compared by their
    lexemes. *)
Definition hashable (k : json) : bool :=
  match k with
  | JArr _ | JObj _ => false
  | _ => true
  end.

Definition key_eqb (a b : json) : bool :=
  match a, b with
  | JNull, JNull => true
  | JBool x, JBool y => Bool.eqb x y
  | JNum x, JNum y => String.eqb x y
  | JStr x, JStr y => String.eqb x y
  | _, _ => false
  end.

Fixpoint bump (k : json) (d : list (json * Z)) : list (json * Z) :=
  match d with
  | [] => [(k, 1)]
  | (k', n) :: d' => if key_eqb k k' then (k', n + 1) :: d' else (k', n) :: bump k d'
  end.

(** [if k not in d: d[k] = 0] followed by [d[k] += 1] *)
Definition count_key (k : json) (d : list (json * Z)) : result (list (json * Z)) :=
  if hashable k then Ok (bump k d) else Raise TypeError.

(** The [try] ... [except json.JSONDecodeError] of the loop body. *)
Definition analyze_one (self : RabbitMQInterface) (body : string)
  (message_types imei_counts : list (json * Z))
  : M (list (json * Z) * list (json * Z)) :=
  try_except
    (data <- loads_body body ;;
     msg_type <- lift (py_get data "type" (JStr "UNKNOWN")) ;;
     imei <- lift (py_get data "imei" (JStr "UNKNOWN")) ;;
     imei_counts <- lift (count_key imei imei_counts) ;;
     if match filtering self with
        | Some target => json_eq_str imei target
        | None => true
        end
     then
       message_types <- lift (count_key msg_type message_types) ;;
       ret (message_types, imei_counts)
     else ret (message_types, imei_counts))
    is_JSONDecodeError
    (fun _ => ret (bump (JStr "RAW") message_types, imei_counts)).

Fixpoint analyze_loop (self : RabbitMQInterface) (n : nat)
  (message_types imei_counts : list (json * Z)) (messages_to_requeue : list Z) (w : world)
  : result (list (json * Z) * list (json * Z)) * list Z * world :=
  match n with
  | O => (Ok (message_types, imei_counts), messages_to_requeue, w)
  | S n' =>
      match basic_get data_queue w with
      | (Raise e, w1) => (Raise e, messages_to_requeue, w1)
      | (Ok None, w1) => (Ok (message_types, imei_counts), messages_to_requeue, w1)
      | (Ok (Some (delivery_tag, body)), w1) =>
          let messages_to_requeue := (messages_to_requeue ++ [delivery_tag])%list in
          match analyze_one self body message_types imei_counts w1 with
          | (Raise e, w2) => (Raise e, messages_to_requeue, w2)
          | (Ok (message_types, imei_counts), w2) =>
              analyze_loop self n' message_types imei_counts messages_to_requeue w2
          end
      end
  end.

Definition _analyze_message_types (self : RabbitMQInterface) (max_messages : Z)
  : M (list (json * Z) * list (json * Z)) :=
  fun w =>
    let '(r, messages_to_requeue, w1) :=
      analyze_loop self (Z.to_nat (Z.min max_messages 10)) [] [] [] w in
    try_finally (lift r) (requeue_each (rev messages_to_requeue)) w1.

(** *** [list_queue_commands] *)

(** Collects the messages: [for i in range(message_count)]. *)
Fixpoint fetch_commands (imei : string) (n : nat) (messages : list (Z * string))
  : M (list (Z * string)) :=
  match n with
  | O => ret messages
  | S n' =>
      got <- basic_get imei ;;
      match got with
      | None => ret messages
      | Some m => fetch_commands imei n' (messages ++ [m])%list
      end
  end.

Definition show_command (display_number : Z) (body : string) : M unit :=
  try_except
    (data <- loads_body body ;;
     command <- lift (py_get data "command" (JStr "Unknown")) ;;
     command_id <- lift (py_get data "command_id" (JStr "N/A")) ;;
     timestamp <- lift (py_get data "timestamp" (JStr "N/A")) ;;
     source <- lift (py_get data "source" (JStr "N/A")) ;;
     print "{display_number:2d}. Command: {command}" [AInt display_number; AJson command] ;;;
     print "     ID: {command_id}" [AJson command_id] ;;;
     print "     Timestamp: {timestamp}" [AJson timestamp] ;;;
     print "     Source: {source}" [AJson source] ;;;
     print (repeat_str "-" 40) [])
    is_JSONDecodeError
    (fun _ =>
       print "{display_number:2d}. Raw message: {}"
         [AInt display_number; AStr (decode_utf8_ignore body)] ;;;
       print (repeat_str "-" 40) []).

(** [for idx, (method_frame, body) in enumerate(messages_to_show)] *)
Fixpoint show_commands (start_index idx : Z) (messages_to_show : list (Z * string)) : M unit :=
  match messages_to_show with
  | [] => ret tt
  | (_, body) :: rest =>
      show_command (start_index + idx) body ;;;
      show_commands start_index (idx + 1) rest
  end.

(** [for method_frame, body in ...: self.channel.basic_nack(...)] *)
Fixpoint nack_each (messages : list (Z * string)) : M unit :=
  match messages with
  | [] => ret tt
  | (delivery_tag, _) :: rest => basic_nack delivery_tag ;;; nack_each rest
  end.

(** [l[-n:]] for a positive [n]. *)
Definition last_n {A} (n : nat) (l : list A) : list A :=
  skipn (List.length l - n)%nat l.

Definition list_queue_commands (imei : string) : M unit :=
  try_except
    (queue_info <- queue_declare_passive imei ;;
     let message_count := fst queue_info in
     if message_count =? 0 then print "📭 Command queue for IMEI {imei} is empty" [AStr imei]
     else
       let show_limit := 10 in
       let show_all := message_count <=? show_limit in
       print (repeat_str "=" 60) [] ;;;
       (if show_all then
          print "📋 ALL COMMANDS IN QUEUE FOR IMEI: {imei}" [AStr imei] ;;;
          print "Total commands: {message_count}" [AInt message_count]
        else
          print "📋 LAST {show_limit} COMMANDS IN QUEUE FOR IMEI: {imei}"
            [AInt show_limit; AStr imei] ;;;
          print "Total commands: {message_count} (showing last {show_limit} only)"
            [AInt message_count; AInt show_limit] ;;;
          print "💡 Use 'Purge Queue' option to clear old commands if needed" []) ;;;
       print (repeat_str "=" 60) [] ;;;
       messages <- fetch_commands imei (Z.to_nat message_count) [] ;;
       let messages_to_show :=
         if show_all then messages else last_n (Z.to_nat show_limit) messages in
       let start_index :=
         if show_all then 1
         else message_count - Z.of_nat (List.length messages_to_show) + 1 in
       show_commands start_index 0 messages_to_show ;;;
       nack_each (rev messages) ;;;
       print (repeat_str "=" 60) [])
    is_Exception
    (fun e => logger_error "Error listing queue commands: {}" [AExn e]).

(** *** [_check_command_queue_status] *)

Definition show_next_command (i : Z) (body : string) : M unit :=
  try_except
    (data <- loads_body body ;;
     command <- lift (py_get data "command" (JStr "Unknown")) ;;
     command_id <- lift (py_get data "command_id" (JStr "N/A")) ;;
     let command_id :=
       match command_id with
       | JStr c => JStr (string_take 8 c)
       | other => other
       end in
     timestamp <- lift (py_get data "timestamp" (JStr "N/A")) ;;
     print "   {i+1}. {command}" [AInt (i + 1); AJson command] ;;;
     print "      ID: {command_id}..." [AJson command_id] ;;;
     (* [int(timestamp)] and [fromtimestamp] sit in a bare [try]/[except]:
        one line is printed for the time stamp, whatever it holds *)
     when (json_ne_str timestamp "N/A")
       (print "      Queued: {time of day} / Timestamp: {timestamp}" [AJson timestamp]))
    is_JSONDecodeError
    (fun _ =>
       print "   {i+1}. Raw message: {}..."
         [AInt (i + 1); AStr (string_take 50 (decode_utf8_ignore body))]).

Fixpoint next_commands_loop (imei : string) (n : nat) (i : Z)
  (messages_to_requeue : list Z) (w : world) : result unit * list Z * world :=
  match n with
  | O => (Ok tt, messages_to_requeue, w)
  | S n' =>
      match basic_get imei w with
      | (Raise e, w1) => (Raise e, messages_to_requeue, w1)
      | (Ok None, w1) => (Ok tt, messages_to_requeue, w1)
      | (Ok (Some (delivery_tag, body)), w1) =>
          let messages_to_requeue := (messages_to_requeue ++ [delivery_tag])%list in
          match show_next_command i body w1 with
          | (Raise e, w2) => (Raise e, messages_to_requeue, w2)
          | (Ok _, w2) => next_commands_loop imei n' (i + 1) messages_to_requeue w2
          end
      end
  end.

(** The [try] ... [finally] statement of [_check_command_queue_status]. *)
Definition next_commands_try_finally (imei : string) (message_count : Z) : M unit :=
  fun w =>
    let '(r, messages_to_requeue, w1) :=
      next_commands_loop imei (Z.to_nat (Z.min message_count 3)) 0 [] w in
    try_finally (lift r) (requeue_each (rev messages_to_requeue)) w1.

Definition _check_command_queue_status (imei : string) : M unit :=
  try_except
    (queue_info <- queue_declare_passive imei ;;
     let message_count := fst queue_info in
     let consumer_count := snd queue_info in
     print "🔧 COMMAND QUEUE STATUS" [] ;;;
     print "   Device IMEI: {imei}" [AStr imei] ;;;
     print "   Pending Commands: {message_count}" [AInt message_count] ;;;
     print "   Active Consumers: {consumer_count}" [AInt consumer_count] ;;;
     (if 0 <? consumer_count
      then print "   🟢 Device Status: ONLINE (consumer connected)" []
      else print "   🔴 Device Status: OFFLINE (no consumer)" []) ;;;
     if 0 <? message_count then
       (if 0 <? consumer_count
        then print "   📤 Command Processing: Commands queued, being processed" []
        else print "   ⏳ Command Processing: Commands waiting (device offline)" []) ;;;
       print "📋 NEXT COMMANDS TO PROCESS:" [] ;;;
       next_commands_try_finally imei message_count ;;;
       when (3 <? message_count)
         (print "   ... and {message_count - 3} more commands" [AInt (message_count - 3)])
     else print "   ✅ Command Queue: Empty (no pending commands)" [])
    is_Exception
    (fun e => print "   ❌ Command queue not accessible: {e}" [AExn e]).

(** *** [inspect_queue_by_name] *)

(** [k in data] *)
Definition py_in (k : string) (data : json) : result bool :=
  match data with
  | JObj d => Ok (match dict_lookup k d with Some _ => true | None => false end)
  | JArr l => Ok (existsb (fun x => json_eq_str x k) l)
  | JStr t => Ok (contains k t)
  | _ => Raise TypeError
  end.

Definition show_field (k : string) (text : string) (data : json) : M unit :=
  present <- lift (py_in k data) ;;
  if present then
    v <- lift (py_get data k JNull) ;;
    print text [AJson v]
  else ret tt.

Definition show_sample (i : Z) (body : string) : M unit :=
  try_except
    (data <- loads_body body ;;
     type <- lift (py_get data "type" (JStr "Unknown")) ;;
     print "{i+1}. Type: {}" [AInt (i + 1); AJson type] ;;;
     show_field "imei" "   IMEI: {}" data ;;;
     show_field "command" "   Command: {}" data ;;;
     show_field "timestamp" "   Timestamp: {}" data ;;;
     print "   Size: {len(body)} bytes" [AInt (Z.of_nat (String.length body))])
    is_JSONDecodeError
    (fun _ =>
       let preview := string_take 100 (decode_utf8_ignore body) in
       print "{i+1}. Raw message preview: {preview}..." [AInt (i + 1); AStr preview] ;;;
       print "   Size: {len(body)} bytes" [AInt (Z.of_nat (String.length body))]).

(** [for i in range(min(3, message_count))]: every message is put back
    right after it has been shown. *)
Fixpoint samples_loop (queue_name : string) (n : nat) (i : Z) : M unit :=
  match n with
  | O => ret tt
  | S n' =>
      got <- basic_get queue_name ;;
      match got with
      | None => ret tt
      | Some (delivery_tag, body) =>
          show_sample i body ;;;
          print (repeat_str "-" 30) [] ;;;
          basic_nack delivery_tag ;;;
          samples_loop queue_name n' (i + 1)
      end
  end.

Definition inspect_queue_by_name (queue_name : string) : M bool :=
  try_except
    (ensure_connection ;;;
     print (repeat_str "=" 60) [] ;;;
     print "🔍 INSPECTING QUEUE: {queue_name}" [AStr queue_name] ;;;
     print (repeat_str "=" 60) [] ;;;
     found <-
       try_except
         (queue_info <- queue_declare_passive queue_name ;;
          let message_count := fst queue_info in
          let consumer_count := snd queue_info in
          print "Queue Name: {queue_name}" [AStr queue_name] ;;;
          print "Messages in Queue: {message_count:,}" [AInt message_count] ;;;
          print "Active Consumers: {consumer_count}" [AInt consumer_count] ;;;
          (if 0 <? consumer_count
           then print "Status: 🟢 ACTIVE (has consumers)" []
           else print "Status: 🔴 INACTIVE (no consumers)" []) ;;;
          (if 0 <? message_count then
             print "Backlog: ⚠️  {message_count:,} messages waiting" [AInt message_count] ;;;
             print "📋 SAMPLE MESSAGES (first 3):" [] ;;;
             print (repeat_str "-" 40) [] ;;;
             samples_loop queue_name (Z.to_nat (Z.min 3 message_count)) 0 ;;;
             when (3 <? message_count)
               (print "... and {message_count - 3} more messages" [AInt (message_count - 3)])
           else print "Backlog: ✅ Empty queue" []) ;;;
          ret true)
         is_Exception
         (fun e =>
            print "❌ Queue '{queue_name}' not found or not accessible" [AStr queue_name] ;;;
            print "Error: {e}" [AExn e] ;;;
            ret false) ;;
     if found then print (repeat_str "=" 60) [] ;;; ret true
     else ret false)
    is_Exception
    (fun e =>
       logger_error "Error inspecting queue '{queue_name}': {e}" [AStr queue_name; AExn e] ;;;
       print "❌ Error inspecting queue: {e}" [AExn e] ;;;
       ret false).

(** *** [monitor_realtime] *)

(** [message_callback(ch, method, properties, body)], for the delivery tag
    of [method]. *)
Definition message_callback (self : RabbitMQInterface) (show_json : bool)
  (delivery_tag : Z) (body : string) : M unit :=
  skipped <-
    match filtering self with
    | Some target =>
        try_except
          (data <- loads_body body ;;
           imei <- lift (py_get data "imei" (JStr "UNKNOWN")) ;;
           if json_ne_str imei target
           then basic_ack delivery_tag ;;; ret true
           else ret false)
          is_JSONDecodeError
          (fun _ => basic_ack delivery_tag ;;; ret true)
    | None => ret false
    end ;;
  if skipped then ret tt
  else
    logger_info "🎯 NEW MESSAGE DETECTED!" [] ;;;
    _display_message (AStr "REALTIME") body show_json ;;;
    basic_ack delivery_tag.

(** [self.channel.basic_consume(queue=..., auto_ack=False)] *)
Definition basic_consume (name : string) : M unit :=
  fun w =>
    if chan_open w then
      match queues w !! name with
      | Some _ => (Ok tt, w)
      | None => (Raise (ChannelClosedByBroker 404), close_channel w)
      end
    else (Raise ChannelWrongStateError, w).

(** [self.channel.start_consuming()]: the broker pushes the messages of the
    queue one after the other, each to the callback; the operator's
    interrupt comes after [deliveries] of them, or when the queue is
    drained. *)
Fixpoint start_consuming (callback : Z -> string -> M unit) (deliveries : nat) : M unit :=
  match deliveries with
  | O => raise KeyboardInterrupt
  | S n =>
      got <- deliver data_queue ;;
      match got with
      | None => raise KeyboardInterrupt
      | Some (delivery_tag, body) =>
          callback delivery_tag body ;;;
          start_consuming callback n
      end
  end.

Definition monitor_realtime (self : RabbitMQInterface) (show_json : bool) (deliveries : nat)
  : M unit :=
  try_except
    (ensure_connection ;;;
     logger_info (repeat_str "=" 60) [] ;;;
     logger_info "REAL-TIME MONITORING" [] ;;;
     logger_info (repeat_str "=" 60) [] ;;;
     match filtering self with
     | Some t => logger_info "Filtering for IMEI: {}" [AStr t]
     | None => ret tt
     end ;;;
     logger_info "Monitoring queue for new messages..." [] ;;;
     logger_info "Press Ctrl+C to stop monitoring" [] ;;;
     logger_info (repeat_str "=" 60) [] ;;;
     basic_consume data_queue ;;;
     logger_info "Waiting for messages... (Press Ctrl+C to stop)" [] ;;;
     start_consuming (message_callback self show_json) deliveries)
    (fun _ => true)
    (fun e =>
       match e with
       | KeyboardInterrupt => logger_info "⏹️  Stopping real-time monitor..." []
       | _ => logger_error "Error in real-time monitoring: {e}" [AExn e]
       end).

(** *** [send_command] *)

(** The [dict] [message] built by [send_command]. *)
Definition command_message (command_id command : string) (now : Z) : json :=
  JObj [("command_id", JStr command_id);
        ("command", JStr command);
        ("timestamp", JStr (str_of_Z now));
        ("source", JStr "command_sender")].

Definition send_command (imei command : string) (command_id : option string) : M bool :=
  try_except
    (command_id <- match command_id with
                   | None => uuid4
                   | Some c => ret c
                   end ;;
     now <- time_now ;;
     let message := command_message command_id command now in
     queue_declare_durable imei ;;;
     basic_publish imei
       {| msg_body := json_dumps message;
          msg_delivery_mode := Some 2;
          msg_content_type := Some "application/json" |} ;;;
     logger_info "✅ Command sent successfully!" [] ;;;
     logger_info "  IMEI: {imei}" [AStr imei] ;;;
     logger_info "  Command: {command}" [AStr command] ;;;
     logger_info "  Command ID: {command_id}" [AStr command_id] ;;;
     queue_info <- queue_declare_passive imei ;;
     logger_info "  Queue status: {} messages in queue" [AInt (fst queue_info)] ;;;
     ret true)
    is_Exception
    (fun e => logger_error "Failed to send command: {e}" [AExn e] ;;; ret false).

(** *** Queue discovery *)

(** The dictionaries of [queues_found]. *)
Record snapshot : Type := {
  name : string;
  messages : Z;
  consumers : Z;
  durable : bool;
  auto_delete : bool
}.

(** [is_imei_format] *)
Definition is_imei_format (queue_name : string) : bool :=
  (isdigit queue_name && (String.length queue_name =? 15)%nat)%bool.

Definition snapshot_of_descriptor (d : descriptor) : snapshot :=
  {| name := default "Unknown" (d_name d);
     messages := default 0 (d_messages d);
     consumers := default 0 (d_consumers d);
     durable := default false (d_durable d);
     auto_delete := default false (d_auto_delete d) |}.

(** [for queue in queues_data: queues_found.append({...})]; an entry without
    a [get] method stops the loop with [AttributeError], the entries
    appended so far staying in [queues_found]. *)
Fixpoint append_descriptors (queues_data : list mgmt_item) (queues_found : list snapshot)
  : result unit * list snapshot :=
  match queues_data with
  | [] => (Ok tt, queues_found)
  | ItemQueue d :: rest =>
      append_descriptors rest (queues_found ++ [snapshot_of_descriptor d])%list
  | ItemOther :: _ => (Raise AttributeError, queues_found)
  end.

(** Known system queues of the fallback. *)
Definition system_queues : list string :=
  [data_queue; "device_commands"; "system_alerts"; "error_queue";
   "dead_letter_queue"; "audit_log"; "notifications"].

(** [for queue_candidate in check_queues] *)
Fixpoint probe_queues (check_queues : list string) (discovered_queues : gset string)
  (queues_found : list snapshot) : M (list snapshot) :=
  match check_queues with
  | [] => ret queues_found
  | queue_candidate :: rest =>
      if decide (queue_candidate ∈ discovered_queues)
      then probe_queues rest discovered_queues queues_found
      else
        fun w =>
          match queue_declare_passive queue_candidate w with
          | (Ok queue_info, w1) =>
              probe_queues rest ({[queue_candidate]} ∪ discovered_queues)
                (queues_found ++
                 [{| name := queue_candidate;
                     messages := fst queue_info;
                     consumers := snd queue_info;
                     durable := true;
                     auto_delete := false |}])%list w1
          | (Raise e, w1) =>
              if is_Exception e then probe_queues rest discovered_queues queues_found w1
              else (Raise e, w1)
          end
  end.

(** Method 1 of [_discover_queues_smart]: the outcome of the [try] block and
    the list [queues_found] as the block leaves it. *)
Definition management_query (w : world) : result unit * list snapshot * world :=
  match requests_get w with
  | (Raise e, w1) => (Raise e, [], w1)
  | (Ok (status_code, body), w1) =>
      if status_code =? 200 then
        match body with
        | None => (Raise ValueError, [], w1)
        | Some queues_data =>
            let w2 :=
              emit (EvOut INFO "✅ Management API available - found {} queues"
                      [AInt (Z.of_nat (List.length queues_data))]) w1 in
            let '(r, queues_found) := append_descriptors queues_data [] in
            (r, queues_found, w2)
        end
      else (Raise PlainException, [], w1)
  end.

Definition _discover_queues_smart : M (list snapshot) :=
  fun w =>
    match management_query w with
    | (Ok _, queues_found, w1) => (Ok queues_found, w1)
    | (Raise e, queues_found, w1) =>
        if is_Exception e then
          (logger_debug "Management API not available: {e}" [AExn e] ;;;
           logger_info "Management API not available, using smart fallback method..." [] ;;;
           logger_info "💡 To see ALL queues, install requests library: pip install requests" [] ;;;
           logger_info "💡 And enable RabbitMQ management plugin on the server" [] ;;;
           logger_info "Scanning for active IMEI queues..." [] ;;;
           queues_found <- probe_queues system_queues ∅ queues_found ;;
           match queues_found with
           | [] =>
               logger_warning
                 "⚠️  No queues discovered. Management API recommended for full visibility." []
           | _ =>
               logger_info "Found {} queues using fallback method"
                 [AInt (Z.of_nat (List.length queues_found))] ;;;
               logger_warning
                 "⚠️  Note: Fallback method may not show all queues. Some queues might be missing."
                 []
           end ;;;
           ret queues_found) w1
        else (Raise e, w1)
    end.

(** [find_queues_by_partial_name] *)
Definition find_queues_by_partial_name (search_term : string) : M (list snapshot) :=
  try_except
    (ensure_connection ;;;
     let search_term_lower := lower search_term in
     all_queues <- _discover_queues_smart ;;
     ret (List.filter (fun q => contains search_term_lower (lower (name q))) all_queues))
    is_Exception
    (fun e =>
       logger_error "Error finding queues by partial name '{search_term}': {e}"
         [AStr search_term; AExn e] ;;;
       ret []).

(** *** [list_all_queues] *)

(** [l.sort(key=..., reverse=True)]: descending and stable; [lt x y] tells
    that the key of [x] is below the key of [y]. *)
Fixpoint insert_desc {A} (lt : A -> A -> bool) (x : A) (l : list A) : list A :=
  match l with
  | [] => [x]
  | y :: l' => if lt x y then y :: insert_desc lt x l' else x :: l
  end.

Definition sort_reverse {A} (lt : A -> A -> bool) (l : list A) : list A :=
  fold_right (insert_desc lt) [] l.

Definition bool_lt (a b : bool) : bool := (negb a && b)%bool.

(** The order of the tuples
    [(consumers > 0, messages > 0, messages, consumers)]. *)
Definition activity_lt (x y : snapshot) : bool :=
  let c1 := 0 <? consumers x in let c2 := 0 <? consumers y in
  let m1 := 0 <? messages x in let m2 := 0 <? messages y in
  (bool_lt c1 c2 ||
   Bool.eqb c1 c2 &&
   (bool_lt m1 m2 ||
    Bool.eqb m1 m2 &&
    ((messages x <? messages y) ||
     (messages x =? messages y) && (consumers x <? consumers y))))%bool.

Inductive status : Type := BUSY | ACTIVE | BACKLOG | IDLE.

(** The status indicator of a row of [list_all_queues]. *)
Definition queue_status (queue : snapshot) : status :=
  if ((0 <? consumers queue) && (0 <? messages queue))%bool then BUSY
  else if 0 <? consumers queue then ACTIVE
  else if 0 <? messages queue then BACKLOG
  else IDLE.

Definition status_text (s : status) : string :=
  match s with
  | BUSY => "🟡 BUSY"
  | ACTIVE => "🟢 ACTIVE"
  | BACKLOG => "🔴 BACKLOG"
  | IDLE => "⚪ IDLE"
  end.

Definition short_name (n : string) : string :=
  if (29 <? String.length n)%nat then string_take 29 n else n.

Definition apply_filter (filter_type : string) (show_active_only : bool)
  (queues_found : list snapshot) : list snapshot :=
  if String.eqb filter_type "non-imei"
  then List.filter (fun q => negb (is_imei_format (name q))) queues_found
  else if String.eqb filter_type "imei-only"
  then List.filter (fun q => is_imei_format (name q)) queues_found
  else if (String.eqb filter_type "active" || show_active_only)%bool
  then List.filter (fun q => ((0 <? messages q) || (0 <? consumers q))%bool) queues_found
  else queues_found.

Fixpoint print_rows (queues_found : list snapshot) : M unit :=
  match queues_found with
  | [] => ret tt
  | queue :: rest =>
      print "{name:<30} {messages:<10} {consumers:<10} {status:<12} {durable:<8}"
        [AStr (short_name (name queue)); AStr (str_of_Z (messages queue));
         AStr (str_of_Z (consumers queue)); AStr (status_text (queue_status queue));
         AStr (if durable queue then "Yes" else "No")] ;;;
      print_rows rest
  end.

Definition count_if {A} (f : A -> bool) (l : list A) : Z :=
  Z.of_nat (List.length (List.filter f l)).

Definition list_all_queues (filter_type : string) (show_active_only : bool) : M unit :=
  try_except
    (ensure_connection ;;;
     print (repeat_str "=" 70) [] ;;;
     (if String.eqb filter_type "non-imei" then
        print "🗂️  NON-IMEI QUEUES ON RABBITMQ SERVER" [] ;;;
        print "(Excluding 15-digit numeric IMEI queues)" []
      else if String.eqb filter_type "imei-only" then
        print "🗂️  IMEI QUEUES ON RABBITMQ SERVER" [] ;;;
        print "(Only 15-digit numeric IMEI queues)" []
      else if String.eqb filter_type "active" then
        print "🗂️  ACTIVE QUEUES ON RABBITMQ SERVER" [] ;;;
        print "(Only queues with messages or consumers)" []
      else print "🗂️  ALL QUEUES ON RABBITMQ SERVER" []) ;;;
     print (repeat_str "=" 70) [] ;;;
     queues_found <- _discover_queues_smart ;;
     match queues_found with
     | [] =>
         print "📭 No queues found or accessible" [] ;;;
         print "💡 TROUBLESHOOTING:" [] ;;;
         print "   1. Install requests library: pip install requests" [] ;;;
         print "   2. Enable RabbitMQ management plugin on server" [] ;;;
         print "   3. Check if queues exist: rabbitmqctl list_queues" []
     | _ =>
         let queues_found := apply_filter filter_type show_active_only queues_found in
         match queues_found with
         | [] =>
             let filter_msg :=
               if String.eqb filter_type "non-imei" then " (no non-IMEI queues found)"
               else if String.eqb filter_type "imei-only" then " (no IMEI queues found)"
               else if String.eqb filter_type "active" then " (no active queues found)"
               else EmptyString in
             print "📭 No queues found or accessible{filter_msg}" [AStr filter_msg]
         | _ =>
             let queues_found := sort_reverse activity_lt queues_found in
             print "Found {len(queues_found)} queues:" [AInt (Z.of_nat (List.length queues_found))] ;;;
             print "{'Queue Name':<30} {'Messages':<10} {'Consumers':<10} {'Status':<12} {'Durable':<8}" [] ;;;
             print (repeat_str "-" 70) [] ;;;
             print_rows queues_found ;;;
             print (repeat_str "=" 70) [] ;;;
             print "📊 SUMMARY:" [] ;;;
             print "   Active queues (with consumers): {active_queues}"
               [AInt (count_if (fun q => 0 <? consumers q) queues_found)] ;;;
             print "   Queues with pending messages: {queues_with_messages}"
               [AInt (count_if (fun q => 0 <? messages q) queues_found)] ;;;
             print "   Total messages across all queues: {total_messages:,}"
               [AInt (fold_right Z.add 0 (List.map messages queues_found))]
         end
     end)
    is_Exception
    (fun e =>
       logger_error "Error listing queues: {e}" [AExn e] ;;;
       print "❌ Error listing queues: {e}" [AExn e]).

(** *** [inspect_queues_by_partial_name] *)

Definition messages_lt (x y : snapshot) : bool := messages x <? messages y.

(** [for i, queue in enumerate(matching_queues, 1)] *)
Fixpoint print_matches (i : Z) (matching_queues : list snapshot) : M unit :=
  match matching_queues with
  | [] => ret tt
  | queue :: rest =>
      print "{i:<3} {name:<30} {messages:<10} {consumers:<10} {status:<8}"
        [AInt i; AStr (short_name (name queue)); AStr (str_of_Z (messages queue));
         AStr (str_of_Z (consumers queue));
         AStr (if 0 <? consumers queue then "🟢 ACTIVE" else "🔴 IDLE")] ;;;
      print_matches (i + 1) rest
  end.

(** Choice [a]: [for i, queue in enumerate(matching_queues)] *)
Fixpoint inspect_each (i total : Z) (matching_queues : list snapshot) : M unit :=
  match matching_queues with
  | [] => ret tt
  | queue :: rest =>
      (if 0 <? i then input ;;; ret tt else ret tt) ;;;
      print "==================== QUEUE {i+1} of {len(matching_queues)} ===================="
        [AInt (i + 1); AInt total] ;;;
      inspect_queue_by_name (name queue) ;;;
      inspect_each (i + 1) total rest
  end.

(** What [inspect_queues_by_partial_name] does with the queues found. *)
Definition inspect_matches (search_term : string) (matching_queues : list snapshot) : M bool :=
  match matching_queues with
  | [] =>
      print "❌ No queues found containing '{search_term}'" [AStr search_term] ;;;
      print "💡 Tip: Search is case-insensitive. Try broader terms like 'device', 'error', etc." [] ;;;
      ret false
  | _ =>
      let matching_queues := sort_reverse messages_lt matching_queues in
      let total := Z.of_nat (List.length matching_queues) in
      match matching_queues with
      | [queue] =>
          print "✅ Found 1 matching queue: {queue_name}" [AStr (name queue)] ;;;
          print (repeat_str "=" 70) [] ;;;
          inspect_queue_by_name (name queue)
      | _ =>
          print "✅ Found {len(matching_queues)} matching queues:" [AInt total] ;;;
          print "{'#':<3} {'Queue Name':<30} {'Messages':<10} {'Consumers':<10} {'Status':<8}" [] ;;;
          print (repeat_str "-" 70) [] ;;;
          print_matches 1 matching_queues ;;;
          print (repeat_str "=" 70) [] ;;;
          print "Options:" [] ;;;
          print "a. Inspect all matching queues" [] ;;;
          print "1-{num}. Inspect specific queue by number" [AInt total] ;;;
          print "0. Cancel" [] ;;;
          answer <- input ;;
          let choice := lower (strip answer) in
          if String.eqb choice "0" then ret false
          else if String.eqb choice "a" then
            inspect_each 0 total matching_queues ;;; ret true
          else
            match int_of_str choice with
            | Some n =>
                let queue_index := n - 1 in
                if ((0 <=? queue_index) && (queue_index <? total))%bool then
                  match nth_error matching_queues (Z.to_nat queue_index) with
                  | Some queue =>
                      print "==================== INSPECTING: {queue_name} ===================="
                        [AStr (name queue)] ;;;
                      inspect_queue_by_name (name queue)
                  | None => ret false
                  end
                else
                  print "❌ Invalid choice. Please enter 1-{len(matching_queues)}" [AInt total] ;;;
                  ret false
            | None =>
                print "❌ Invalid input. Please enter a number." [] ;;;
                ret false
            end
      end
  end.

Definition inspect_queues_by_partial_name (search_term : string) : M bool :=
  try_except
    (print (repeat_str "=" 70) [] ;;;
     print "🔍 SEARCHING FOR QUEUES CONTAINING: '{search_term}'" [AStr search_term] ;;;
     print (repeat_str "=" 70) [] ;;;
     matching_queues <- find_queues_by_partial_name search_term ;;
     inspect_matches search_term matching_queues)
    is_Exception
    (fun e =>
       logger_error "Error inspecting queues by partial name '{search_term}': {e}"
         [AStr search_term; AExn e] ;;;
       print "❌ Error inspecting queues: {e}" [AExn e] ;;;
       ret false).

(** Choice 5 of [show_queue_operations_menu], for a non-empty search term:
    the exact name is tried first. *)
Definition inspect_by_name_or_partial (search_term : string) : M bool :=
  try_except
    (success <-
       try_except
         (ensure_connection ;;;
          queue_declare_passive search_term ;;;
          print "✅ Found exact match: {search_term}" [AStr search_term] ;;;
          inspect_queue_by_name search_term)
         is_Exception
         (fun _ =>
            print "📝 No exact match for '{search_term}', searching for partial matches..."
              [AStr search_term] ;;;
            inspect_queues_by_partial_name search_term) ;;
     when (negb success)
       (print "💡 Tip: Use 'List Active Queues' to see available queues" [] ;;;
        print "💡 Try broader search terms like: 'device', 'tcp', 'error', 'alert'" []) ;;;
     ret success)
    is_Exception
    (fun e =>
       print "❌ Error inspecting queue: {e}" [AExn e] ;;;
       logger_error "Error in inspect queue operation: {e}" [AExn e] ;;;
       ret false).

(** *** [check_queue_status] and [purge_queue] *)

Definition check_queue_status (imei : string) : M unit :=
  try_except
    (queue_info <- queue_declare_passive imei ;;
     let message_count := fst queue_info in
     let consumer_count := snd queue_info in
     print (repeat_str "=" 60) [] ;;;
     print "QUEUE STATUS FOR IMEI: {imei}" [AStr imei] ;;;
     print (repeat_str "=" 60) [] ;;;
     print "Messages in queue: {message_count}" [AInt message_count] ;;;
     print "Active consumers: {consumer_count}" [AInt consumer_count] ;;;
     print (repeat_str "=" 60) [])
    is_Exception
    (fun e => logger_error "Error checking queue status: {e}" [AExn e]).

Definition purge_queue (imei : string) : M unit :=
  try_except
    (queue_info <- queue_declare_passive imei ;;
     let message_count := fst queue_info in
     if message_count =? 0
     then print "📭 Command queue for IMEI {imei} is already empty" [AStr imei]
     else
       print (repeat_str "=" 60) [] ;;;
       print "🗑️  PURGING COMMAND QUEUE FOR IMEI: {imei}" [AStr imei] ;;;
       print "Commands to remove: {message_count}" [AInt message_count] ;;;
       print (repeat_str "=" 60) [] ;;;
       answer <- input ;;
       let confirm := lower (strip answer) in
       (if (String.eqb confirm "yes" || String.eqb confirm "y")%bool then
          queue_purge imei ;;;
          print "✅ Queue purged successfully!" [] ;;;
          queue_info <- queue_declare_passive imei ;;
          let new_count := fst queue_info in
          print "Remaining commands: {new_count}" [AInt new_count]
        else print "❌ Queue purge cancelled" []) ;;;
       print (repeat_str "=" 60) [])
    is_Exception
    (fun e => logger_error "Error purging queue: {e}" [AExn e]).

(** *** [_check_all_command_queues] *)

(** The dictionaries of [device_queues]. *)
Record device_queue : Type := {
  dq_imei : string;
  dq_messages : Z;
  dq_consumers : Z;
  dq_status : string
}.

Definition common_imeis : list string :=
  ["350317177240177"; "862771041414213"; "350317177240178";
   "350317177240179"; "862771041414214"; "862771041414215";
   "862771041414216"; "862771041414217"; "350317177240180";
   "350317177240181"; "350317177240182"; "350317177240183"].

(** [for imei in common_imeis: try: ... except Exception: ...] *)
Fixpoint scan_devices (imeis : list string) (device_queues : list device_queue)
  : M (list device_queue) :=
  match imeis with
  | [] => ret device_queues
  | imei :: rest =>
      fun w =>
        match queue_declare_passive imei w with
        | (Ok queue_info, w1) =>
            let message_count := fst queue_info in
            let consumer_count := snd queue_info in
            if ((0 <? message_count) || (0 <? consumer_count))%bool then
              scan_devices rest
                (device_queues ++
                 [{| dq_imei := imei;
                     dq_messages := message_count;
                     dq_consumers := consumer_count;
                     dq_status := if 0 <? consumer_count
                                  then "🟢 ONLINE" else "🔴 OFFLINE" |}])%list w1
            else scan_devices rest device_queues w1
        | (Raise e, w1) =>
            if is_Exception e then scan_devices rest device_queues w1
            else (Raise e, w1)
        end
  end.

(** The order of the tuples [(messages, consumers)]. *)
Definition device_lt (x y : device_queue) : bool :=
  ((dq_messages x <? dq_messages y) ||
   (dq_messages x =? dq_messages y) && (dq_consumers x <? dq_consumers y))%bool.

(** [for i in range(display_count): device = device_queues[i]] *)
Fixpoint print_devices (devices : list device_queue) : M unit :=
  match devices with
  | [] => ret tt
  | device :: rest =>
      print "   📱 {}: {} commands, {}"
        [AStr (dq_imei device); AInt (dq_messages device); AStr (dq_status device)] ;;;
      print_devices rest
  end.

Definition _check_all_command_queues : M unit :=
  try_except
    (print "🔧 COMMAND QUEUES OVERVIEW" [] ;;;
     print "   Status: No specific device selected" [] ;;;
     print "   💡 Tip: Use --imei <IMEI> or select 'Change/Set IMEI' to monitor specific device commands" [] ;;;
     device_queues <- scan_devices common_imeis [] ;;
     match device_queues with
     | [] => print "📭 No active command queues found" []
     | _ =>
         let device_queues := sort_reverse device_lt device_queues in
         let display_count := Z.min 5 (Z.of_nat (List.length device_queues)) in
         print "📋 ACTIVE DEVICE QUEUES (showing top {display_count}):" [AInt display_count] ;;;
         print_devices (firstn (Z.to_nat display_count) device_queues) ;;;
         when (5 <? Z.of_nat (List.length device_queues))
           (print "   ... and {} more devices"
              [AInt (Z.of_nat (List.length device_queues) - 5)])
     end)
    is_Exception
    (fun e => logger_debug "Error checking command queues: {e}" [AExn e]).

(** *** [check_monitor_status] *)

(** [for msg_type, count in message_types.items()] *)
Fixpoint print_breakdown (items : list (json * Z)) : M unit :=
  match items with
  | [] => ret tt
  | (msg_type, count) :: rest =>
      (if json_eq_str msg_type "DATA" then
         print "   📍 {msg_type}: {count:,} messages" [AJson msg_type; AInt count]
       else if json_eq_str msg_type "CONNECTION" then
         print "   📡 {msg_type}: {count:,} messages" [AJson msg_type; AInt count]
       else if json_eq_str msg_type "RAW" then
         print "   📦 {msg_type}: {count:,} messages" [AJson msg_type; AInt count]
       else
         print "   ❓ {msg_type}: {count:,} messages" [AJson msg_type; AInt count]) ;;;
      print_breakdown rest
  end.

(** [d[k]] for a key that may be absent. *)
Fixpoint count_of (k : json) (d : list (json * Z)) : option Z :=
  match d with
  | [] => None
  | (k', n) :: d' => if key_eqb k k' then Some n else count_of k d'
  end.

Definition check_monitor_status (self : RabbitMQInterface) : M (Z * list (json * Z)) :=
  try_except
    (ensure_connection ;;;
     queue_info <- queue_declare_passive data_queue ;;
     let message_count := fst queue_info in
     let consumer_count := snd queue_info in
     print (repeat_str "=" 70) [] ;;;
     print "🔍 RABBITMQ STATUS OVERVIEW" [] ;;;
     match filtering self with
     | Some t => print "📱 Target Device: {}" [AStr t]
     | None => print "📱 Target Device: ALL DEVICES" []
     end ;;;
     print (repeat_str "=" 70) [] ;;;
     print "📊 DATA QUEUE STATUS" [] ;;;
     print "   Queue Name: {}" [AStr data_queue] ;;;
     print "   Total Messages: {message_count:,}" [AInt message_count] ;;;
     print "   Active Consumers: {consumer_count}" [AInt consumer_count] ;;;
     when ((consumer_count =? 0) && (0 <? message_count))%bool
       (print "   ⚠️  Warning: No consumers processing messages" []) ;;;
     message_types <-
       (if 0 <? message_count then
          analysis <- _analyze_message_types self message_count ;;
          let message_types := fst analysis in
          let imei_breakdown := snd analysis in
          match filtering self, imei_breakdown with
          | Some t, _ :: _ =>
              print "📱 TARGET DEVICE DATA:" [] ;;;
              print "   Messages from {}: {filtered_count:,}"
                [AStr t; AInt (fold_right Z.add 0 (List.map snd imei_breakdown))]
          | _, _ => ret tt
          end ;;;
          print "📈 MESSAGE BREAKDOWN:" [] ;;;
          print_breakdown message_types ;;;
          print "🏥 QUEUE HEALTH:" [] ;;;
          match count_of (JStr "DATA") message_types with
          | Some n => print "   ✅ AVL Data Flow: Active ({} messages)" [AInt n]
          | None => print "   ❌ AVL Data Flow: No recent data messages" []
          end ;;;
          (if 0 <? consumer_count
           then print "   ✅ Message Processing: Active ({consumer_count} consumers)"
                  [AInt consumer_count]
           else print "   ⚠️  Message Processing: No active consumers" []) ;;;
          ret message_types
        else
          print "📭 Queue is currently empty" [] ;;;
          ret []) ;;
     match filtering self with
     | Some t => _check_command_queue_status t
     | None => _check_all_command_queues
     end ;;;
     print (repeat_str "=" 70) [] ;;;
     ret (message_count, message_types))
    is_Exception
    (fun e => logger_error "Error checking status: {e}" [AExn e] ;;; ret (0, [])).

End Program.


(** ** Vocabulary of the statements *)

Local Open Scope list_scope.

Definition is_output (e : event) : Prop :=
  match e with
  | EvOut _ _ _ => True
  | _ => False
  end.

(** The delivery tags fetched, negatively acknowledged and acknowledged in a
    run of events, in order. *)
Fixpoint fetched (evs : list event) : list Z :=
  match evs with
  | [] => []
  | EvGet _ (Some (tag, _)) :: rest => tag :: fetched rest
  | _ :: rest => fetched rest
  end.

Fixpoint nacked (evs : list event) : list Z :=
  match evs with
  | [] => []
  | EvNack tag :: rest => tag :: nacked rest
  | _ :: rest => nacked rest
  end.

Fixpoint acked (evs : list event) : list Z :=
  match evs with
  | [] => []
  | EvAck tag :: rest => tag :: acked rest
  | _ :: rest => acked rest
  end.

(** A computation that only prints or logs. *)
Definition quiet {A} (c : M A) : Prop :=
  forall w, exists evs, snd (c w) = add_trace evs w /\ Forall is_output evs.

(** Two worlds with the same broker state: queues, unacknowledged
    deliveries and channel. *)
Definition same_broker (w w' : world) : Prop :=
  queues w = queues w' /\ unacked w = unacked w' /\ chan_open w = chan_open w'.

(** [browsed name w0 tags w]: [w] comes from [w0] by fetching from the queue
    [name], without acknowledging, the deliveries [tags] in this order, and
    by printing or logging. *)
Inductive browsed (name : string) (w0 : world) : list Z -> world -> Prop :=
| browsed_start : browsed name w0 [] w0
| browsed_output tags w evs :
    browsed name w0 tags w -> Forall is_output evs ->
    browsed name w0 tags (add_trace evs w)
| browsed_get tags w tag body w' :
    browsed name w0 tags w ->
    basic_get name w = (Ok (Some (tag, body)), w') ->
    browsed name w0 (tags ++ [tag]) w'
| browsed_empty tags w w' :
    browsed name w0 tags w ->
    basic_get name w = (Ok None, w') ->
    browsed name w0 tags w'.

(** [message_count] of a queue, and the bodies of its messages in the order
    of their delivery. *)
Definition message_count_of (name : string) (w : world) : Z :=
  match queues w !! name with
  | Some q => Z.of_nat (List.length (q_ready q))
  | None => 0
  end.

Definition delivery_order (name : string) (w : world) : list string :=
  match queues w !! name with
  | Some q => List.map msg_body (q_ready q)
  | None => []
  end.

(** [run_tags w w' f n a]: from [w] to [w'] events were added, with the
    delivery tags [f] fetched, [n] negatively acknowledged and [a]
    acknowledged. *)
Definition run_tags (w w' : world) (f n a : list Z) : Prop :=
  exists evs, trace w' = trace w ++ evs /\
              fetched evs = f /\ nacked evs = n /\ acked evs = a.

(** The fetch budget of [peek_messages] for a queue of the given depth. *)
Definition fetch_budget (self : RabbitMQInterface) (limit depth : Z) : nat :=
  Z.to_nat (Z.min depth (match filtering self with
                         | Some _ => limit * 3
                         | None => limit
                         end)).

(** Events that carry no delivery tag. *)
Definition tagless (e : event) : bool :=
  match e with
  | EvGet _ (Some _) | EvNack _ | EvAck _ => false
  | _ => true
  end.

(** Concrete worlds: one durable queue holding the given bodies, an open
    channel, and a management endpoint that cannot be reached. *)
Definition plain (body : string) : message :=
  {| msg_body := body; msg_delivery_mode := None; msg_content_type := None |}.

Definition one_queue (name : string) (bodies : list string) (consumers : Z) : world :=
  {| queues := {[ name := {| q_ready := List.map plain bodies;
                            q_consumers := consumers;
                            q_durable := true |} ]};
     unacked := [];
     next_tag := 1;
     chan_open := true;
     mgmt := MgmtRaise RequestException;
     stdin := [];
     next_uuid := "123e4567-e89b-42d3-a456-426614174000";
     clock := 1700000000;
     trace := [] |}.

(** A body that is not UTF-8: the single byte [0xff]. *)
Definition not_utf8 : string := byte_str 255.

Definition no_filter : RabbitMQInterface := {| target_imei := None |}.

(** The delivery tags pushed to the consumer in a run of events. *)
Fixpoint delivered (evs : list event) : list Z :=
  match evs with
  | [] => []
  | EvDeliver _ tag _ :: rest => tag :: delivered rest
  | _ :: rest => delivered rest
  end.

(** Bodies used in the examples: a telemetry message of device [111], and a
    message whose type is none of the four named ones. *)
Definition telemetry_111 : string :=
  json_print (JObj [("type", JStr "DATA"); ("imei", JStr "111")]).

Definition heartbeat : string :=
  json_print (JObj [("type", JStr "HEARTBEAT"); ("imei", JStr "111")]).

Definition device_350 : string := "350317177240177".

Definition filter_111 : RabbitMQInterface := {| target_imei := Some "111" |}.

(** [d.get(k, default)] on the items of a [dict]. *)
Definition field (k : string) (dflt : json) (d : list (string * json)) : json :=
  match dict_lookup k d with
  | Some v => v
  | None => dflt
  end.

(** The classification of a decoded message: its [type] field. *)
Definition type_of (d : list (string * json)) : json := field "type" (JStr "UNKNOWN") d.

Definition not_json : string := "ping".


(** The management endpoint cannot be used: the request raises, or the
    response has another status than 200. *)
Definition mgmt_unavailable (r : mgmt_reply) : Prop :=
  match r with
  | MgmtRaise e => is_Exception e = true
  | MgmtResponse status_code _ => status_code <> 200
  end.

(** The exception that ends the management query then. *)
Definition mgmt_exception (r : mgmt_reply) : exn :=
  match r with
  | MgmtRaise e => e
  | MgmtResponse _ _ => PlainException
  end.

Definition probe_snapshot (n : string) (q : queue) : snapshot :=
  {| name := n; messages := fst (counts q); consumers := snd (counts q);
     durable := true; auto_delete := false |}.

(** What probing finds on an open channel: the candidates that exist, up to
    the first one that does not (the failed passive declaration closes the
    channel, and a closed channel answers no further probe). *)
Fixpoint probed (qs : gmap string queue) (names : list string) : list snapshot :=
  match names with
  | [] => []
  | n :: rest =>
      match qs !! n with
      | Some q => probe_snapshot n q :: probed qs rest
      | None => []
      end
  end.

Definition probe_result (w : world) : list snapshot :=
  if chan_open w then probed (queues w) system_queues else [].

Definition is_warning (e : event) : bool :=
  match e with
  | EvOut WARNING _ _ => true
  | _ => false
  end.

(** A row of the table of [list_all_queues]. *)
Definition is_queue_row (e : event) : bool :=
  match e with
  | EvOut STDOUT text _ =>
      String.eqb text "{name:<30} {messages:<10} {consumers:<10} {status:<12} {durable:<8}"
  | _ => false
  end.

Definition no_queue_row (evs : list event) : bool :=
  forallb (fun e => negb (is_queue_row e)) evs.

(** The message that [send_command] publishes, and the events of a
    successful call that reports [depth] messages. *)
Definition command_envelope {J : JsonLib} (command_id command : string) (now : Z) : message :=
  {| msg_body := json_dumps (command_message command_id command now);
     msg_delivery_mode := Some 2;
     msg_content_type := Some "application/json" |}.

Definition sent_events (imei command command_id : string) (m : message) (depth : Z)
  : list event :=
  [EvDeclare imei false true;
   EvPublish imei m;
   EvOut INFO "✅ Command sent successfully!" [];
   EvOut INFO "  IMEI: {imei}" [AStr imei];
   EvOut INFO "  Command: {command}" [AStr command];
   EvOut INFO "  Command ID: {command_id}" [AStr command_id];
   EvDeclare imei true false;
   EvOut INFO "  Queue status: {} messages in queue" [AInt depth]].

Definition is_publish (e : event) : bool :=
  match e with
  | EvPublish _ _ => true
  | _ => false
  end.

(** A world without any queue. *)
Definition no_queue : world :=
  {| queues := ∅; unacked := []; next_tag := 1; chan_open := true;
     mgmt := MgmtRaise RequestException; stdin := [];
     next_uuid := "123e4567-e89b-42d3-a456-426614174000";
     clock := 1700000000; trace := [] |}.

(** The rows of the disambiguation list of
    [inspect_queues_by_partial_name]. *)
Definition match_row (i : Z) (queue : snapshot) : event :=
  EvOut STDOUT "{i:<3} {name:<30} {messages:<10} {consumers:<10} {status:<8}"
    [AInt i; AStr (short_name (name queue)); AStr (str_of_Z (messages queue));
     AStr (str_of_Z (consumers queue));
     AStr (if 0 <? consumers queue then "🟢 ACTIVE" else "🔴 IDLE")].

Fixpoint match_rows (i : Z) (queues_listed : list snapshot) : list event :=
  match queues_listed with
  | [] => []
  | queue :: rest => match_row i queue :: match_rows (i + 1) rest
  end.

Definition is_match_row (e : event) : bool :=
  match e with
  | EvOut STDOUT text _ =>
      String.eqb text "{i:<3} {name:<30} {messages:<10} {consumers:<10} {status:<8}"
  | _ => false
  end.

Definition is_http (e : event) : bool :=
  match e with
  | EvHttpGet => true
  | _ => false
  end.

(** Events of an inspection: no row of the disambiguation list, no query to
    the management endpoint. *)
Definition plain_event (e : event) : bool :=
  (negb (is_match_row e) && negb (is_http e))%bool.

(** A computation that adds such events only and raises nothing but
    exceptions derived from [Exception]. *)
Definition tame {A} (c : M A) : Prop :=
  forall w,
    (exists evs, trace (snd (c w)) = trace w ++ evs /\ forallb plain_event evs = true) /\
    (forall e, fst (c w) = Raise e -> is_Exception e = true).

(** Descending message counts. *)
Definition messages_ge (a b : snapshot) : Prop := messages b <= messages a.

(** The case-insensitive substring match of [find_queues_by_partial_name]. *)
Definition name_matches {U : StrLib} (search_term : string) (q : snapshot) : bool :=
  contains (lower search_term) (lower (name q)).

Definition three_queues : list snapshot :=
  [{| name := "350317177240177"; messages := 2; consumers := 0;
      durable := true; auto_delete := false |};
   {| name := "350317177240178"; messages := 7; consumers := 1;
      durable := true; auto_delete := false |};
   {| name := "350399999999999"; messages := 4; consumers := 0;
      durable := true; auto_delete := false |}].

Definition descriptor_of (s : snapshot) : mgmt_item :=
  ItemQueue {| d_name := Some (name s); d_messages := Some (messages s);
               d_consumers := Some (consumers s); d_durable := Some (durable s);
               d_auto_delete := Some (auto_delete s) |}.

(** A world whose management endpoint lists the three device queues and the
    data queue. *)
Definition managed_world : world :=
  {| queues := ∅; unacked := []; next_tag := 1; chan_open := true;
     mgmt := MgmtResponse 200
               (Some (List.map descriptor_of
                        (three_queues ++
                         [{| name := data_queue; messages := 9; consumers := 2;
                             durable := true; auto_delete := false |}])));
     stdin := ["0"];
     next_uuid := "123e4567-e89b-42d3-a456-426614174000";
     clock := 1700000000; trace := [] |}.

(** The world [w] with the operator's next answers. *)
Definition answering (answers : list string) (w : world) : world :=
  {| queues := queues w; unacked := unacked w; next_tag := next_tag w;
     chan_open := chan_open w; mgmt := mgmt w; stdin := answers;
     next_uuid := next_uuid w; clock := clock w; trace := trace w |}.

(** The answers that [purge_queue] takes for a confirmation. *)
Definition confirms {U : StrLib} (answer : string) : bool :=
  let confirm := lower (strip answer) in
  (String.eqb confirm "yes" || String.eqb confirm "y")%bool.

(** The queue [q] without its ready messages. *)
Definition emptied (q : queue) : queue :=
  {| q_ready := []; q_consumers := q_consumers q; q_durable := q_durable q |}.

(** A body that the display code can handle: UTF-8 text that is either not
    JSON or a JSON object. *)
Definition decodable {J : JsonLib} (body : string) : Prop :=
  utf8_valid body = true /\
  (json_loads body = None \/ exists d, json_loads body = Some (JObj d)).

(** The number in front of an entry of [list_queue_commands]. *)
Definition shown_number (e : event) : option Z :=
  match e with
  | EvOut STDOUT text (AInt n :: _) =>
      if (String.eqb text "{display_number:2d}. Command: {command}" ||
          String.eqb text "{display_number:2d}. Raw message: {}")%bool
      then Some n else None
  | _ => None
  end.

Fixpoint shown_numbers (evs : list event) : list Z :=
  match evs with
  | [] => []
  | e :: rest =>
      match shown_number e with
      | Some n => n :: shown_numbers rest
      | None => shown_numbers rest
      end
  end.

(** [count] consecutive numbers from [start]. *)
Definition numbers_from (start : Z) (count : nat) : list Z :=
  List.map (fun i => start + Z.of_nat i) (seq 0 count).

Definition is_get (e : event) : Prop :=
  match e with
  | EvGet _ _ => True
  | _ => False
  end.

(** The bodies fetched in a run of events, in order. *)
Fixpoint fetched_bodies (evs : list event) : list string :=
  match evs with
  | [] => []
  | EvGet _ (Some (_, body)) :: rest => body :: fetched_bodies rest
  | _ :: rest => fetched_bodies rest
  end.

(** The row of [list_all_queues] for a queue. *)
Definition queue_row (queue : snapshot) : event :=
  EvOut STDOUT "{name:<30} {messages:<10} {consumers:<10} {status:<12} {durable:<8}"
    [AStr (short_name (name queue)); AStr (str_of_Z (messages queue));
     AStr (str_of_Z (consumers queue)); AStr (status_text (queue_status queue));
     AStr (if durable queue then "Yes" else "No")].

(** The order of the rows of [list_all_queues]: [y] is below [x] when
    [x] has consumers and [y] has none; else, both having consumers or
    neither, when [x] has messages and [y] has none; else by the message
    count, then by the consumer count. *)
Definition activity_below (y x : snapshot) : Prop :=
  (~ 0 < consumers y /\ 0 < consumers x) \/
  ((0 < consumers y <-> 0 < consumers x) /\
   ((~ 0 < messages y /\ 0 < messages x) \/
    ((0 < messages y <-> 0 < messages x) /\
     (messages y < messages x \/
      (messages y = messages x /\ consumers y < consumers x))))).

Definition activity_ge (x y : snapshot) : Prop := ~ activity_below x y.

(** [sum(d.values())] of a counting dictionary. *)
Definition total_count (d : list (json * Z)) : Z :=
  fold_right Z.add 0 (List.map snd d).

(** A body that the IMEI filter of [target] skips: UTF-8 text that is not
    JSON, or a JSON object whose [imei] is not the target's. *)
Definition foreign {J : JsonLib} (target body : string) : Prop :=
  utf8_valid body = true /\
  (json_loads body = None \/
   exists o, json_loads body = Some (JObj o) /\
             json_ne_str (field "imei" (JStr "UNKNOWN") o) target = true).

(** The queue [q] without its first [n] messages. *)
Definition dequeued (n : nat) (q : queue) : queue :=
  {| q_ready := skipn n (q_ready q); q_consumers := q_consumers q;
     q_durable := q_durable q |}.

(** Events of the consumer: a delivery or an acknowledgment. *)
Definition is_consumption (e : event) : Prop :=
  match e with
  | EvDeliver _ _ _ | EvAck _ => True
  | _ => False
  end.

(** A computation that, started with no delivery waiting for its
    acknowledgment, leaves every queue as it is and no delivery waiting. *)
Definition calm {A} (c : M A) : Prop :=
  forall w, unacked w = [] ->
    queues (snd (c w)) = queues w /\ unacked (snd (c w)) = [].

(** The line of [_check_all_command_queues] for a device. *)
Definition device_line (device : device_queue) : event :=
  EvOut STDOUT "   📱 {}: {} commands, {}"
    [AStr (dq_imei device); AInt (dq_messages device); AStr (dq_status device)].

Definition is_device_line (e : event) : bool :=
  match e with
  | EvOut STDOUT text _ => String.eqb text "   📱 {}: {} commands, {}"
  | _ => false
  end.

(** What the scan of [_check_all_command_queues] finds on an open channel:
    of the candidates that exist, up to the first one that does not, those
    with messages or consumers. *)
Fixpoint scanned (qs : gmap string queue) (imeis : list string) : list device_queue :=
  match imeis with
  | [] => []
  | imei :: rest =>
      match qs !! imei with
      | Some q =>
          (if ((0 <? fst (counts q)) || (0 <? snd (counts q)))%bool
           then [{| dq_imei := imei;
                    dq_messages := fst (counts q);
                    dq_consumers := snd (counts q);
                    dq_status := if 0 <? snd (counts q)
                                 then "🟢 ONLINE" else "🔴 OFFLINE" |}]
           else []) ++ scanned qs rest
      | None => []
      end
  end.

(** A broker with the command queues of the first and of the third
    hard-coded device, each with pending commands, and none for the second. *)
Definition two_devices : world :=
  {| queues := {[ "350317177240177" := {| q_ready := [plain "reboot"];
                                          q_consumers := 0;
                                          q_durable := true |};
                  "350317177240178" := {| q_ready := [plain "reboot"; plain "status"];
                                          q_consumers := 1;
                                          q_durable := true |} ]};
     unacked := [];
     next_tag := 1;
     chan_open := true;
     mgmt := MgmtRaise RequestException;
     stdin := [];
     next_uuid := "123e4567-e89b-42d3-a456-426614174000";
     clock := 1700000000;
     trace := [] |}.



(** A broker on which [error_queue] exists and the data queue does not; its
    management endpoint cannot be reached. *)
Definition only_error_queue : world := one_queue "error_queue" ["disk full"] 0.

Definition is_declare (e : event) : bool :=
  match e with
  | EvDeclare _ _ _ => true
  | _ => false
  end.

(** Events that are not printed. *)
Definition quiet_event (e : event) : bool :=
  match e with
  | EvOut STDOUT _ _ => false
  | _ => true
  end.

(** A management listing that breaks off: a queue object, then an entry that
    is not an object. *)
Definition broken_listing : world :=
  {| queues := ∅; unacked := []; next_tag := 1; chan_open := true;
     mgmt := MgmtResponse 200
               (Some [descriptor_of {| name := "350317177240177"; messages := 2;
                                       consumers := 0; durable := true;
                                       auto_delete := false |};
                      ItemOther]);
     stdin := [];
     next_uuid := "123e4567-e89b-42d3-a456-426614174000";
     clock := 1700000000; trace := [] |}.

(** The same character, or the same letter in upper and in lower case (the
    lower-case letter is 32 places above the upper-case one). *)
Definition same_letter (a b : ascii) : bool :=
  (Ascii.eqb a b
   || byte_in 65 90 a && N.eqb (N_of_ascii b) (N_of_ascii a + 32)
   || byte_in 65 90 b && N.eqb (N_of_ascii a) (N_of_ascii b + 32))%bool.

(** Two texts that differ by the case of their letters at most. *)
Fixpoint same_ignoring_case (s t : string) : bool :=
  match s, t with
  | EmptyString, EmptyString => true
  | String a s', String b t' => (same_letter a b && same_ignoring_case s' t')%bool
  | _, _ => false
  end.

Definition all_bytes : list ascii := List.map ascii_of_nat (seq 0 256).

(** A value that [print] can write.  A [str] with a lone surrogate, which
    [json.loads] accepts from an escape, cannot be encoded for the terminal;
    it has no UTF-8 encoding either, and is a string of bytes that are not
    well-formed UTF-8 here.  Numbers are written by their digits, lists and
    objects through [repr], which escapes such characters. *)
Definition printable (v : json) : bool :=
  match v with
  | JStr text => utf8_valid text
  | _ => true
  end.

(** A body that the display code can handle and print: UTF-8 text that is
    either not JSON or a JSON object whose string fields can be printed. *)
Definition showable {J : JsonLib} (body : string) : Prop :=
  utf8_valid body = true /\
  (json_loads body = None \/
   exists d, json_loads body = Some (JObj d) /\
             Forall (fun kv => printable (snd kv) = true) d).

(** The no-break space U+00A0. *)
Definition nbsp : string := byte_str 194 ++ byte_str 160.

(** ** Proofs *)

Lemma add_trace_nil w : add_trace [] w = w.
Proof. destruct w; unfold add_trace; simpl. now rewrite app_nil_r. Qed.

Lemma add_trace_app e1 e2 w : add_trace e2 (add_trace e1 w) = add_trace (e1 ++ e2) w.
Proof. unfold add_trace; simpl. now rewrite app_assoc. Qed.

Section Quiet.

Context {A B : Type}.

Lemma quiet_ret (a : A) : quiet (ret a).
Proof. intros w. exists []. now rewrite add_trace_nil. Qed.

Lemma quiet_raise (e : exn) : quiet (@raise A e).
Proof. intros w. exists []. now rewrite add_trace_nil. Qed.

Lemma quiet_lift (r : result A) : quiet (lift r).
Proof. intros w. exists []. now rewrite add_trace_nil. Qed.

Lemma quiet_bind (c : M A) (k : A -> M B) :
  quiet c -> (forall a, quiet (k a)) -> quiet (bind c k).
Proof.
  intros Hc Hk w. unfold bind.
  destruct (Hc w) as (e1 & H1 & F1).
  destruct (c w) as [[a | e] w1]; simpl in H1; subst w1.
  - destruct (Hk a (add_trace e1 w)) as (e2 & H2 & F2).
    exists (e1 ++ e2). rewrite H2, add_trace_app. split; [easy|].
    apply Forall_app; auto.
  - exists e1. auto.
Qed.

Lemma quiet_try_except (c : M A) handles (h : exn -> M A) :
  quiet c -> (forall e, quiet (h e)) -> quiet (try_except c handles h).
Proof.
  intros Hc Hh w. unfold try_except.
  destruct (Hc w) as (e1 & H1 & F1).
  destruct (c w) as [[a | e] w1]; simpl in H1; subst w1.
  - exists e1. auto.
  - destruct (handles e).
    + destruct (Hh e (add_trace e1 w)) as (e2 & H2 & F2).
      exists (e1 ++ e2). rewrite H2, add_trace_app. split; [easy|].
      apply Forall_app; auto.
    + exists e1. auto.
Qed.

End Quiet.

Lemma quiet_out lvl text args : quiet (out lvl text args).
Proof. intros w. exists [EvOut lvl text args]. split; [easy|]. repeat constructor. Qed.

Lemma quiet_when b c : quiet c -> quiet (when b c).
Proof. intros H. destruct b; simpl; [easy | apply quiet_ret]. Qed.

Ltac quiet_step :=
  match goal with
  | |- quiet (bind _ _) => apply quiet_bind; [| intros ?]
  | |- quiet (try_except _ _ _) => apply quiet_try_except; [| intros ?]
  | |- quiet (when _ _) => apply quiet_when
  | |- quiet (print _ _) => apply quiet_out
  | |- quiet (logger_info _ _) => apply quiet_out
  | |- quiet (logger_debug _ _) => apply quiet_out
  | |- quiet (logger_warning _ _) => apply quiet_out
  | |- quiet (logger_error _ _) => apply quiet_out
  | |- quiet (out _ _ _) => apply quiet_out
  | |- quiet (ret _) => apply quiet_ret
  | |- quiet (raise _) => apply quiet_raise
  | |- quiet (lift _) => apply quiet_lift
  | |- quiet (if ?b then _ else _) => destruct b
  | |- quiet (match ?x with _ => _ end) => destruct x
  end.

Ltac quiet_tac := repeat quiet_step.

Section ProgramFacts.

Context {J : JsonLib} {U : StrLib}.

Lemma quiet_loads_body body : quiet (loads_body body).
Proof. unfold loads_body. quiet_tac. Qed.

Lemma quiet_display_message msg_num body show_json :
  quiet (_display_message msg_num body show_json).
Proof. unfold _display_message. pose proof quiet_loads_body. quiet_tac; auto. Qed.

Lemma quiet_peek_skips self body : quiet (peek_skips self body).
Proof. unfold peek_skips. pose proof quiet_loads_body. quiet_tac; auto. Qed.

Lemma quiet_analyze_one self body mt ic : quiet (analyze_one self body mt ic).
Proof. unfold analyze_one. pose proof quiet_loads_body. quiet_tac; auto. Qed.

Lemma quiet_show_command n body : quiet (show_command n body).
Proof. unfold show_command. pose proof quiet_loads_body. quiet_tac; auto. Qed.

Lemma quiet_show_next_command i body : quiet (show_next_command i body).
Proof. unfold show_next_command. pose proof quiet_loads_body. quiet_tac; auto. Qed.

Lemma quiet_show_sample i body : quiet (show_sample i body).
Proof.
  unfold show_sample, show_field. pose proof quiet_loads_body. quiet_tac; auto.
Qed.

End ProgramFacts.

(** *** Fetching and putting back *)

Lemma same_broker_refl w : same_broker w w.
Proof. now unfold same_broker. Qed.

Lemma same_broker_sym w w' : same_broker w w' -> same_broker w' w.
Proof. unfold same_broker. intuition congruence. Qed.

Lemma same_broker_trans w1 w2 w3 :
  same_broker w1 w2 -> same_broker w2 w3 -> same_broker w1 w3.
Proof. unfold same_broker. intuition congruence. Qed.

Lemma same_broker_add_trace evs w : same_broker (add_trace evs w) w.
Proof. now unfold same_broker. Qed.

Lemma quiet_same_broker {A} (c : M A) w : quiet c -> same_broker (snd (c w)) w.
Proof. intros H. destruct (H w) as (evs & -> & _). apply same_broker_add_trace. Qed.

Lemma basic_nack_same_broker tag w w' :
  same_broker w w' ->
  fst (basic_nack tag w) = fst (basic_nack tag w') /\
  same_broker (snd (basic_nack tag w)) (snd (basic_nack tag w')).
Proof.
  intros (Hq & Hu & Hc).
  unfold basic_nack, same_broker, close_channel, set_broker, emit, add_trace. simpl.
  rewrite <- Hq, <- Hu, <- Hc.
  destruct (chan_open w) eqn:E; [| simpl; repeat split; congruence].
  destruct (take_delivery tag (unacked w)) as [[[n m] un] |]; simpl;
    repeat split; congruence.
Qed.

Lemma requeue_each_same_broker tags : forall w w',
  same_broker w w' ->
  same_broker (snd (requeue_each tags w)) (snd (requeue_each tags w')).
Proof.
  induction tags as [| t tags IH]; intros w w' H; simpl; [easy|].
  unfold bind, try_except.
  destruct (basic_nack_same_broker t w w' H) as [Hr Hs].
  destruct (basic_nack t w) as [r1 w1], (basic_nack t w') as [r2 w2].
  simpl in Hr, Hs. subst r2.
  destruct r1 as [[] | e]; [now apply IH |].
  destruct (is_Exception e); simpl.
  - apply IH. unfold same_broker in *. simpl. easy.
  - easy.
Qed.

Lemma basic_nack_raises tag w e w1 :
  basic_nack tag w = (Raise e, w1) -> is_Exception e = true.
Proof.
  unfold basic_nack. destruct (chan_open _); [| now inversion 1].
  destruct (take_delivery _ _) as [[[? ?] ?] |]; now inversion 1.
Qed.

Lemma basic_nack_trace tag w :
  trace (snd (basic_nack tag w)) = trace w ++ [EvNack tag].
Proof.
  unfold basic_nack. destruct (chan_open _); [| easy].
  destruct (take_delivery _ _) as [[[? ?] ?] |]; easy.
Qed.

Lemma requeue_each_ok tags : forall w, fst (requeue_each tags w) = Ok tt.
Proof.
  induction tags as [| t tags IH]; intros w; simpl; [easy|].
  unfold bind, try_except.
  destruct (basic_nack t w) as [[[] | e] w1] eqn:E; [apply IH |].
  rewrite (basic_nack_raises _ _ _ _ E). simpl. apply IH.
Qed.

Lemma requeue_each_trace tags : forall w,
  exists evs, trace (snd (requeue_each tags w)) = trace w ++ evs /\
              nacked evs = tags /\ fetched evs = [] /\ acked evs = [].
Proof.
  induction tags as [| t tags IH]; intros w; simpl.
  - exists []. now rewrite app_nil_r.
  - unfold bind, try_except.
    pose proof (basic_nack_trace t w) as Ht1.
    destruct (basic_nack t w) as [[[] | e] w1] eqn:E; simpl in Ht1.
    + destruct (IH w1) as (evs & H1 & H2 & H3 & H4).
      exists (EvNack t :: evs). rewrite H1, Ht1, <- app_assoc. simpl.
      now rewrite H2, H3, H4.
    + rewrite (basic_nack_raises _ _ _ _ E). simpl.
      match goal with |- context [requeue_each tags ?w2] =>
        destruct (IH w2) as (evs & H1 & H2 & H3 & H4) end.
      eexists (EvNack t :: EvOut _ _ _ :: evs). rewrite H1. simpl.
      rewrite Ht1, <- !app_assoc. simpl. now rewrite H2, H3, H4.
Qed.

Lemma basic_get_some name w tag body w' :
  basic_get name w = (Ok (Some (tag, body)), w') ->
  chan_open w = true /\
  exists q m rest,
    queues w !! name = Some q /\ q_ready q = m :: rest /\ msg_body m = body /\
    tag = next_tag w /\
    w' = emit (EvGet name (Some (tag, body)))
           (set_broker
              (<[name := {| q_ready := rest; q_consumers := q_consumers q;
                            q_durable := q_durable q |}]> (queues w))
              ((tag, (name, m)) :: unacked w) (tag + 1) true w).
Proof.
  unfold basic_get. destruct (chan_open w); [| now inversion 1].
  destruct (queues w !! name) as [q |] eqn:Eq; [| now inversion 1].
  destruct (q_ready q) as [| m rest] eqn:Er; inversion 1; subst.
  split; [easy|]. exists q, m, rest. easy.
Qed.

Lemma basic_get_none name w w' :
  basic_get name w = (Ok None, w') -> w' = emit (EvGet name None) w.
Proof.
  unfold basic_get. destruct (chan_open w); [| now inversion 1].
  destruct (queues w !! name) as [q |]; [| now inversion 1].
  destruct (q_ready q); now inversion 1.
Qed.

(** A closed channel or a missing queue are the only reasons for
    [basic_get] to raise. *)
Lemma basic_get_raise name w e w' :
  basic_get name w = (Raise e, w') ->
  (chan_open w = false /\ w' = w /\ e = ChannelWrongStateError) \/
  (chan_open w = true /\ queues w !! name = None /\ w' = close_channel w).
Proof.
  unfold basic_get. destruct (chan_open w); [| inversion 1; auto].
  destruct (queues w !! name) as [q |]; [| inversion 1; auto].
  destruct (q_ready q); inversion 1.
Qed.

(** Negatively acknowledging a message right after it was fetched restores
    the broker state. *)
Lemma nack_after_get name w tag body w' :
  basic_get name w = (Ok (Some (tag, body)), w') ->
  fst (basic_nack tag w') = Ok tt /\ same_broker (snd (basic_nack tag w')) w.
Proof.
  intros H. apply basic_get_some in H.
  destruct H as (Hopen & q & m & rest & Hq & Hr & _ & _ & ->).
  unfold basic_nack, emit, add_trace, set_broker. simpl.
  rewrite Z.eqb_refl. simpl. split; [easy|].
  unfold same_broker, push_front. simpl.
  rewrite lookup_insert_eq, insert_insert_eq. simpl.
  repeat split; [| easy].
  apply insert_id. rewrite Hq. f_equal. destruct q; simpl in *. now subst.
Qed.

Lemma browsed_restore name w0 tags w :
  browsed name w0 tags w ->
  same_broker (snd (requeue_each (rev tags) w)) w0.
Proof.
  induction 1 as [| tags w evs _ IH _ | tags w tag body w' _ IH Hget | tags w w' _ IH Hget].
  - apply same_broker_refl.
  - eapply same_broker_trans; [| exact IH].
    apply requeue_each_same_broker, same_broker_add_trace.
  - rewrite rev_app_distr. simpl.
    destruct (nack_after_get _ _ _ _ _ Hget) as [Hok Hsame].
    unfold bind, try_except.
    destruct (basic_nack tag w') as [r w1]. simpl in Hok, Hsame. subst r.
    eapply same_broker_trans; [| exact IH].
    now apply requeue_each_same_broker.
  - apply basic_get_none in Hget. subst w'.
    eapply same_broker_trans; [| exact IH].
    apply requeue_each_same_broker, same_broker_add_trace.
Qed.

Lemma fetched_app e1 e2 : fetched (e1 ++ e2) = fetched e1 ++ fetched e2.
Proof.
  induction e1 as [| e e1 IH]; simpl; [easy|].
  destruct e as [| ? [[? ?] |] | | | | | | |]; simpl; now rewrite ?IH.
Qed.

Lemma nacked_app e1 e2 : nacked (e1 ++ e2) = nacked e1 ++ nacked e2.
Proof.
  induction e1 as [| e e1 IH]; simpl; [easy|].
  destruct e; simpl; now rewrite ?IH.
Qed.

Lemma acked_app e1 e2 : acked (e1 ++ e2) = acked e1 ++ acked e2.
Proof.
  induction e1 as [| e e1 IH]; simpl; [easy|].
  destruct e; simpl; now rewrite ?IH.
Qed.

Lemma output_no_tags evs :
  Forall is_output evs -> fetched evs = [] /\ nacked evs = [] /\ acked evs = [].
Proof.
  induction 1 as [| e evs He _ IH]; [easy|].
  destruct e; simpl in *; easy.
Qed.

(** The events of a browse: the fetches, and nothing acknowledged yet. *)
Lemma browsed_trace name w0 tags w :
  browsed name w0 tags w ->
  exists evs, trace w = trace w0 ++ evs /\
              fetched evs = tags /\ nacked evs = [] /\ acked evs = [].
Proof.
  induction 1 as [| tags w evs _ IH Hout | tags w tag body w' _ IH Hget | tags w w' _ IH Hget].
  - exists []. now rewrite app_nil_r.
  - destruct IH as (e0 & Ht & Hf & Hn & Ha).
    destruct (output_no_tags _ Hout) as (Of & On & Oa).
    exists (e0 ++ evs). simpl. rewrite Ht, app_assoc, fetched_app, nacked_app, acked_app.
    rewrite Hf, Hn, Ha, Of, On, Oa. now rewrite app_nil_r.
  - destruct IH as (e0 & Ht & Hf & Hn & Ha).
    apply basic_get_some in Hget.
    destruct Hget as (_ & q & m & rest & _ & _ & _ & _ & ->).
    exists (e0 ++ [EvGet name (Some (tag, body))]). simpl.
    rewrite Ht, app_assoc, fetched_app, nacked_app, acked_app.
    rewrite Hf, Hn, Ha. easy.
  - destruct IH as (e0 & Ht & Hf & Hn & Ha).
    apply basic_get_none in Hget. subst w'.
    exists (e0 ++ [EvGet name None]). simpl.
    rewrite Ht, app_assoc, fetched_app, nacked_app, acked_app.
    rewrite Hf, Hn, Ha. simpl. now rewrite app_nil_r.
Qed.

(** While browsing, the channel stays open and the queue stays there. *)
Lemma browsed_ready name w0 tags w :
  browsed name w0 tags w ->
  chan_open w0 = true -> is_Some (queues w0 !! name) ->
  chan_open w = true /\ is_Some (queues w !! name).
Proof.
  induction 1 as [| tags w evs _ IH _ | tags w tag body w' _ IH Hget | tags w w' _ IH Hget];
    intros Ho Hq; auto.
  - apply basic_get_some in Hget.
    destruct Hget as (_ & q & m & rest & _ & _ & _ & _ & ->). simpl.
    split; [easy|]. rewrite lookup_insert_eq. eauto.
  - apply basic_get_none in Hget. subst w'. simpl. auto.
Qed.

Lemma basic_get_ready name w :
  chan_open w = true -> is_Some (queues w !! name) ->
  forall e w', basic_get name w <> (Raise e, w').
Proof.
  intros Ho [q Hq] e w' H. apply basic_get_raise in H.
  destruct H as [(H & _) | (_ & H & _)]; congruence.
Qed.

Lemma browsed_depth name w0 tags w :
  browsed name w0 tags w ->
  message_count_of name w + Z.of_nat (List.length tags) = message_count_of name w0.
Proof.
  induction 1 as [| tags w evs _ IH _ | tags w tag body w' _ IH Hget | tags w w' _ IH Hget].
  - simpl. lia.
  - exact IH.
  - apply basic_get_some in Hget.
    destruct Hget as (_ & q & m & rest & Hq & Hr & _ & _ & ->).
    rewrite length_app. simpl.
    unfold message_count_of in *. simpl. rewrite lookup_insert_eq. simpl.
    rewrite Hq, Hr in IH. simpl in IH. lia.
  - apply basic_get_none in Hget. subst w'. exact IH.
Qed.

Section Loops.

Context {J : JsonLib} {U : StrLib}.

Variable w0 : world.
Hypothesis open0 : chan_open w0 = true.

Lemma quiet_browsed {A} (c : M A) name tags w :
  quiet c -> browsed name w0 tags w -> browsed name w0 tags (snd (c w)).
Proof.
  intros Hq Hb. destruct (Hq w) as (evs & -> & Hout). now apply browsed_output.
Qed.

Lemma peek_loop_browsed self limit show_json n :
  is_Some (queues w0 !! data_queue) ->
  forall shown req w r shown' req' w',
    browsed data_queue w0 req w ->
    peek_loop self limit show_json n shown req w = (r, (shown', req'), w') ->
    browsed data_queue w0 req' w'.
Proof.
  intros Hq0. induction n as [| n IH]; intros shown req w r shown' req' w' Hb; simpl.
  - inversion 1; now subst.
  - destruct (browsed_ready _ _ _ _ Hb open0 Hq0) as [Ho Hq].
    destruct (basic_get data_queue w) as [[[[tag body] |] | e] w1] eqn:G.
    + pose proof (browsed_get _ _ _ _ _ _ _ Hb G) as Hb1.
      pose proof (quiet_browsed (peek_skips self body) _ _ _
                    (quiet_peek_skips self body) Hb1) as Hb2.
      destruct (peek_skips self body w1) as [[[|] | e] w2]; simpl in Hb2.
      * now apply IH.
      * pose proof (quiet_browsed (_display_message (AInt (shown + 1)) body show_json) _ _ _
                      (quiet_display_message _ _ _) Hb2) as Hb3.
        destruct (_display_message (AInt (shown + 1)) body show_json w2) as [[[] | e] w3];
          simpl in Hb3.
        -- destruct (limit <=? shown + 1); [inversion 1; now subst | now apply IH].
        -- inversion 1; now subst.
      * inversion 1; now subst.
    + inversion 1; subst. eapply browsed_empty; eauto.
    + exfalso. eapply basic_get_ready; eauto.
Qed.

Lemma analyze_loop_browsed self n :
  is_Some (queues w0 !! data_queue) ->
  forall mt ic req w r req' w',
    browsed data_queue w0 req w ->
    analyze_loop self n mt ic req w = (r, req', w') ->
    browsed data_queue w0 req' w'.
Proof.
  intros Hq0. induction n as [| n IH]; intros mt ic req w r req' w' Hb; simpl.
  - inversion 1; now subst.
  - destruct (browsed_ready _ _ _ _ Hb open0 Hq0) as [Ho Hq].
    destruct (basic_get data_queue w) as [[[[tag body] |] | e] w1] eqn:G.
    + pose proof (browsed_get _ _ _ _ _ _ _ Hb G) as Hb1.
      pose proof (quiet_browsed (analyze_one self body mt ic) _ _ _
                    (quiet_analyze_one self body mt ic) Hb1) as Hb2.
      destruct (analyze_one self body mt ic w1) as [[[mt' ic'] | e] w2]; simpl in Hb2.
      * now apply IH.
      * inversion 1; now subst.
    + inversion 1; subst. eapply browsed_empty; eauto.
    + exfalso. eapply basic_get_ready; eauto.
Qed.

Lemma next_commands_loop_browsed imei n :
  is_Some (queues w0 !! imei) ->
  forall i req w r req' w',
    browsed imei w0 req w ->
    next_commands_loop imei n i req w = (r, req', w') ->
    browsed imei w0 req' w'.
Proof.
  intros Hq0. induction n as [| n IH]; intros i req w r req' w' Hb; simpl.
  - inversion 1; now subst.
  - destruct (browsed_ready _ _ _ _ Hb open0 Hq0) as [Ho Hq].
    destruct (basic_get imei w) as [[[[tag body] |] | e] w1] eqn:G.
    + pose proof (browsed_get _ _ _ _ _ _ _ Hb G) as Hb1.
      pose proof (quiet_browsed (show_next_command i body) _ _ _
                    (quiet_show_next_command i body) Hb1) as Hb2.
      destruct (show_next_command i body w1) as [[[] | e] w2]; simpl in Hb2.
      * now apply IH.
      * inversion 1; now subst.
    + inversion 1; subst. eapply browsed_empty; eauto.
    + exfalso. eapply basic_get_ready; eauto.
Qed.

End Loops.

(** *** Tags of a run *)

Lemma run_tags_refl w : run_tags w w [] [] [].
Proof. exists []. now rewrite app_nil_r. Qed.

Lemma run_tags_trans w1 w2 w3 f1 n1 a1 f2 n2 a2 :
  run_tags w1 w2 f1 n1 a1 -> run_tags w2 w3 f2 n2 a2 ->
  run_tags w1 w3 (f1 ++ f2) (n1 ++ n2) (a1 ++ a2).
Proof.
  intros (e1 & H1 & F1 & N1 & A1) (e2 & H2 & F2 & N2 & A2).
  exists (e1 ++ e2). rewrite H2, H1, app_assoc, fetched_app, nacked_app, acked_app.
  now subst.
Qed.

Lemma run_tags_add_trace evs w :
  Forall is_output evs -> run_tags w (add_trace evs w) [] [] [].
Proof.
  intros H. exists evs. destruct (output_no_tags _ H) as (? & ? & ?). easy.
Qed.

Lemma run_tags_quiet {A} (c : M A) w : quiet c -> run_tags w (snd (c w)) [] [] [].
Proof. intros H. destruct (H w) as (evs & -> & Ho). now apply run_tags_add_trace. Qed.

Lemma run_tags_browsed name w0 tags w :
  browsed name w0 tags w -> run_tags w0 w tags [] [].
Proof. intros H. exact (browsed_trace _ _ _ _ H). Qed.

Lemma run_tags_requeue tags w : run_tags w (snd (requeue_each tags w)) [] tags [].
Proof.
  destruct (requeue_each_trace tags w) as (evs & H1 & H2 & H3 & H4).
  exists evs. easy.
Qed.

(** The quiet steps before and after: tags are those of the middle. *)
Lemma run_tags_frame w1 w2 w3 w4 f n a :
  run_tags w1 w2 [] [] [] -> run_tags w2 w3 f n a -> run_tags w3 w4 [] [] [] ->
  run_tags w1 w4 f n a.
Proof.
  intros H1 H2 H3.
  pose proof (run_tags_trans _ _ _ _ _ _ _ _ _ (run_tags_trans _ _ _ _ _ _ _ _ _ H1 H2) H3) as H.
  simpl in H. now rewrite !app_nil_r in H.
Qed.

Lemma try_finally_requeue {A} (c : M A) tags w :
  try_finally c (requeue_each tags) w =
  (fst (c w), snd (requeue_each tags (snd (c w)))).
Proof.
  unfold try_finally. destruct (c w) as [r w1]. simpl.
  pose proof (requeue_each_ok tags w1) as H.
  destruct (requeue_each tags w1) as [r2 w2]. simpl in *. now subst.
Qed.

(** A handler that only logs adds output to what the body did. *)
Lemma try_except_quiet_handler {A} (c : M A) handles h w :
  (forall e, quiet (h e)) ->
  exists evs, Forall is_output evs /\
              snd (try_except c handles h w) = add_trace evs (snd (c w)).
Proof.
  intros Hh. unfold try_except. destruct (c w) as [[a | e] w1]; simpl.
  - exists []. now rewrite add_trace_nil.
  - destruct (handles e).
    + destruct (Hh e w1) as (evs & -> & Ho). eauto.
    + exists []. now rewrite add_trace_nil.
Qed.

Section Browsing.

Context {J : JsonLib} {U : StrLib}.

(** How many messages the loop of [peek_messages] fetches: at most one for
    each iteration, and without a filter no more than are still to be
    shown. *)
Lemma peek_loop_count self limit show_json n :
  forall shown req w r shown' req' w',
    peek_loop self limit show_json n shown req w = (r, (shown', req'), w') ->
    exists new, req' = req ++ new /\ (List.length new <= n)%nat /\
                (filtering self = None -> shown < limit ->
                 Z.of_nat (List.length new) <= limit - shown).
Proof.
  induction n as [| n IH]; intros shown req w r shown' req' w'; simpl.
  - inversion 1; subst. exists []. rewrite app_nil_r. simpl. split; [easy|]. split; lia.
  - destruct (basic_get data_queue w) as [[[[tag body] |] | e] w1].
    + assert (Hone : exists new, req ++ [tag] = req ++ new /\ (List.length new <= S n)%nat /\
                       (filtering self = None -> shown < limit ->
                        Z.of_nat (List.length new) <= limit - shown)).
      { exists [tag]. simpl. split; [easy|]. split; lia. }
      assert (Hrec : forall sh r0 s0 q0 v0 w2,
                 (filtering self = None -> sh = shown + 1 /\ sh < limit) ->
                 peek_loop self limit show_json n sh (req ++ [tag]) w2 = (r0, (s0, q0), v0) ->
                 exists new, q0 = req ++ new /\ (List.length new <= S n)%nat /\
                   (filtering self = None -> shown < limit ->
                    Z.of_nat (List.length new) <= limit - shown)).
      { intros sh r0 s0 q0 v0 w2 Hsh Hl. apply IH in Hl.
        destruct Hl as (new & -> & Hlen & Hlim).
        exists (tag :: new). rewrite <- app_assoc. simpl. split; [easy|]. split; [lia|].
        intros Hf Hs. destruct (Hsh Hf) as [-> Hlt]. specialize (Hlim Hf Hlt). lia. }
      destruct (peek_skips self body w1) as [[[|] | e] w2] eqn:Es.
      * intros Hl. eapply Hrec; [| exact Hl].
        intros Hf. unfold peek_skips in Es. rewrite Hf in Es. inversion Es.
      * destruct (_display_message (AInt (shown + 1)) body show_json w2) as [[[] | e] w3].
        -- destruct (limit <=? shown + 1) eqn:El.
           ++ inversion 1; subst. exact Hone.
           ++ intros Hl. eapply Hrec; [| exact Hl]. intros _. split; [easy | lia].
        -- inversion 1; subst. exact Hone.
      * inversion 1; subst. exact Hone.
    + inversion 1; subst. exists []. rewrite app_nil_r. simpl. split; [easy|]. split; lia.
    + inversion 1; subst. exists []. rewrite app_nil_r. simpl. split; [easy|]. split; lia.
Qed.

(** The [try] ... [finally] of [peek_messages] on an open channel and an
    existing queue: what was fetched is put back in reverse order, and the
    broker state is as before. *)
Lemma peek_try_finally_ready self limit show_json message_count w :
  chan_open w = true -> is_Some (queues w !! data_queue) ->
  exists tags,
    same_broker (snd (peek_try_finally self limit show_json message_count w)) w /\
    run_tags w (snd (peek_try_finally self limit show_json message_count w))
      tags (rev tags) [] /\
    Z.of_nat (List.length tags) <= message_count_of data_queue w /\
    (List.length tags <= Z.to_nat (Z.min (limit * 3) message_count))%nat /\
    (filtering self = None -> Z.of_nat (List.length tags) <= Z.max 0 limit).
Proof.
  intros Ho Hq. unfold peek_try_finally.
  destruct (peek_loop self limit show_json _ 0 [] w) as [[r [shown req]] w1] eqn:El.
  pose proof (peek_loop_browsed w Ho self limit show_json _ Hq _ _ _ _ _ _ _
                (browsed_start _ _) El) as Hb.
  destruct (peek_loop_count _ _ _ _ _ _ _ _ _ _ _ El) as (new & Hnew & Hlen & Hlim).
  simpl in Hnew. subst new.
  rewrite try_finally_requeue.
  assert (Hs : snd ((lift r ;;; ret shown) w1) = w1).
  { unfold bind, lift, ret. now destruct r. }
  simpl. rewrite Hs.
  exists req. split; [now apply browsed_restore with (name := data_queue) |].
  split.
  { pose proof (run_tags_trans _ _ _ _ _ _ _ _ _ (run_tags_browsed _ _ _ _ Hb)
                  (run_tags_requeue (rev req) w1)) as H.
    simpl in H. now rewrite app_nil_r in H. }
  split.
  { pose proof (browsed_depth _ _ _ _ Hb) as Hd.
    assert (0 <= message_count_of data_queue w1).
    { unfold message_count_of. destruct (queues w1 !! data_queue); lia. }
    lia. }
  split; [exact Hlen |].
  intros Hf. destruct (Z.ltb_spec 0 limit) as [Hpos | Hneg].
  - specialize (Hlim Hf Hpos). lia.
  - assert (Z.to_nat (Z.min (limit * 3) message_count) = 0%nat) by lia.
    lia.
Qed.

End Browsing.

(** *** Channel facts *)

Lemma ensure_connection_spec w :
  exists w1, ensure_connection w = (Ok tt, w1) /\
             chan_open w1 = true /\ queues w1 = queues w /\
             run_tags w w1 [] [] [] /\
             (chan_open w = true -> w1 = w).
Proof.
  unfold ensure_connection. destruct (chan_open w) eqn:E.
  - exists w. rewrite E. repeat split; auto using run_tags_refl.
  - eexists. split; [reflexivity|]. simpl. repeat split; [| easy].
    eexists [_]. simpl. easy.
Qed.

Lemma declare_passive_found name q w :
  chan_open w = true -> queues w !! name = Some q ->
  queue_declare_passive name w = (Ok (counts q), emit (EvDeclare name true false) w).
Proof. intros Ho Hq. unfold queue_declare_passive. simpl. now rewrite Ho, Hq. Qed.

Lemma declare_passive_missing name w :
  chan_open w = true -> queues w !! name = None ->
  queue_declare_passive name w =
  (Raise (ChannelClosedByBroker 404), close_channel (emit (EvDeclare name true false) w)).
Proof. intros Ho Hq. unfold queue_declare_passive. simpl. now rewrite Ho, Hq. Qed.

Lemma declare_passive_closed name w :
  chan_open w = false ->
  queue_declare_passive name w =
  (Raise ChannelWrongStateError, emit (EvDeclare name true false) w).
Proof. intros Ho. unfold queue_declare_passive. simpl. now rewrite Ho. Qed.

Lemma push_front_lookup_none name n m qs :
  qs !! name = None -> push_front n m qs !! name = None.
Proof.
  intros H. unfold push_front. destruct (qs !! n) eqn:E; [| easy].
  rewrite lookup_insert_ne; [easy | congruence].
Qed.

Lemma requeue_unacked_lookup_none name un : forall qs,
  qs !! name = None -> requeue_unacked un qs !! name = None.
Proof.
  unfold requeue_unacked. induction un as [| d un IH]; intros qs H; simpl; [easy|].
  apply IH. now apply push_front_lookup_none.
Qed.

Lemma run_tags_emit_declare name p d w :
  run_tags w (emit (EvDeclare name p d) w) [] [] [].
Proof. eexists [_]. easy. Qed.

Lemma run_tags_close_channel w : run_tags w (close_channel w) [] [] [].
Proof. exists []. simpl. now rewrite app_nil_r. Qed.

Lemma tagless_no_tags evs :
  forallb tagless evs = true -> fetched evs = [] /\ nacked evs = [] /\ acked evs = [].
Proof.
  induction evs as [| e evs IH]; simpl; [easy|].
  intros H. apply andb_prop in H. destruct H as [He H]. specialize (IH H).
  destruct e as [| ? [[? ?] |] | | | | | | |]; simpl in *; easy.
Qed.

Lemma run_tags_tagless evs w w1 f n a :
  forallb tagless evs = true ->
  run_tags w w1 f n a -> run_tags w (add_trace evs w1) f n a.
Proof.
  intros Ht (e0 & H1 & F & N & A). destruct (tagless_no_tags _ Ht) as (F' & N' & A').
  exists (e0 ++ evs). simpl. rewrite H1, app_assoc, fetched_app, nacked_app, acked_app.
  rewrite F, N, A, F', N', A'. now rewrite !app_nil_r.
Qed.

Lemma run_tags_output evs w w1 f n a :
  Forall is_output evs ->
  run_tags w w1 f n a -> run_tags w (add_trace evs w1) f n a.
Proof.
  intros Ho H.
  pose proof (run_tags_trans _ _ _ _ _ _ _ _ _ H (run_tags_add_trace evs w1 Ho)) as H'.
  now rewrite !app_nil_r in H'.
Qed.

Section PeekMessages.

Context {J : JsonLib} {U : StrLib}.

Arguments peek_try_finally : simpl never.
Arguments repeat_str : simpl never.

Lemma peek_messages_run self limit show_json w :
  let w' := snd (peek_messages self limit show_json w) in
  queues w' !! data_queue = queues w !! data_queue /\
  (is_Some (queues w !! data_queue) -> queues w' = queues w) /\
  exists tags,
    run_tags w w' tags (rev tags) [] /\
    (List.length tags <= fetch_budget self limit (message_count_of data_queue w))%nat.
Proof.
  intros w'. remember w' as wf eqn:Ew. unfold w', peek_messages in Ew. clear w'.
  match type of Ew with context [try_except ?c ?hd ?h w] =>
    destruct (try_except_quiet_handler c hd h w) as (hevs & Hho & Hw');
    [intros; quiet_tac |]; rewrite Hw' in Ew; clear Hw'
  end.
  destruct (ensure_connection_spec w) as (w1 & He & Ho1 & Hq1 & Ht1 & _).
  unfold bind at 1 in Ew. rewrite He in Ew.
  destruct (queues w !! data_queue) as [q |] eqn:Eq.
  - unfold bind at 1 in Ew.
    rewrite (declare_passive_found data_queue q w1) in Ew by congruence.
    set (w2 := emit (EvDeclare data_queue true false) w1) in *.
    assert (Ht2 : run_tags w w2 [] [] []) by (now apply (run_tags_tagless [_])).
    assert (Hmc : message_count_of data_queue w = fst (counts q)).
    { unfold message_count_of. now rewrite Eq. }
    cbv beta in Ew. remember (fst (counts q)) as mc eqn:Emc. clear Emc.
    destruct (mc =? 0) eqn:E0.
    + simpl in Ew. subst wf. simpl. rewrite Hq1, Eq.
      repeat split; auto.
      exists []. split; [| simpl; lia].
      apply run_tags_output; [easy|]. now apply (run_tags_tagless [_]).
    + unfold fetch_budget. rewrite Hmc.
      destruct (filtering self) as [t |] eqn:Ef;
        unfold bind, logger_info, out, emit in Ew; simpl in Ew;
        rewrite !add_trace_app in Ew; simpl in Ew;
        match type of Ew with context [peek_try_finally ?a ?b ?c ?d ?v] =>
          set (w3 := v) in *;
          assert (Ho3 : chan_open w3 = true) by exact Ho1;
          assert (Hq3 : queues w3 = queues w) by exact Hq1;
          assert (Ht3 : run_tags w w3 [] [] [])
            by (apply run_tags_tagless; [reflexivity | exact Ht2]);
          destruct (peek_try_finally_ready a b c d w3)
            as (tags & Hsame & Htags & Hdepth & Hbud & Hnof);
            [easy | rewrite Hq3, Eq; eauto |];
          destruct (peek_try_finally a b c d w3) as [[shown | e] w4]
        end;
        simpl in Hsame, Htags;
        destruct Hsame as (Hqs & _ & _);
        assert (Hmc3 : message_count_of data_queue w3 = mc)
          by (unfold message_count_of in *; now rewrite Hq3);
        rewrite Hmc3 in Hdepth;
        pose proof (run_tags_trans _ _ _ _ _ _ _ _ _ Ht3 Htags) as Hrun;
        simpl in Hrun.
      * destruct (shown =? 0); simpl in Ew; subst wf; simpl;
          rewrite Hqs, Hq3, Eq; (repeat split; auto);
          exists tags; (split; [| rewrite Z.min_comm; exact Hbud]);
          (apply run_tags_output; [easy|]);
          rewrite ?add_trace_app; (apply run_tags_tagless; [reflexivity | exact Hrun]).
      * simpl in Ew; subst wf; simpl;
          rewrite Hqs, Hq3, Eq; (repeat split; auto);
          exists tags; (split; [| rewrite Z.min_comm; exact Hbud]);
          (apply run_tags_output; [easy|]); exact Hrun.
      * simpl in Ew; subst wf; simpl;
          rewrite Hqs, Hq3, Eq; (repeat split; auto);
          exists tags; (split; [| specialize (Hnof Ef); lia]);
          (apply run_tags_output; [easy|]);
          (apply run_tags_tagless; [reflexivity | exact Hrun]).
      * simpl in Ew; subst wf; simpl;
          rewrite Hqs, Hq3, Eq; (repeat split; auto);
          exists tags; (split; [| specialize (Hnof Ef); lia]);
          (apply run_tags_output; [easy|]); exact Hrun.
  - unfold bind at 1 in Ew.
    rewrite (declare_passive_missing data_queue w1) in Ew by congruence.
    subst wf. simpl.
    split; [now apply requeue_unacked_lookup_none; rewrite Hq1 |].
    split; [intros [? ?]; congruence |].
    exists []. split; [| simpl; lia].
    apply run_tags_output; [easy|].
    pose proof (run_tags_trans _ _ _ _ _ _ _ _ _
                  (run_tags_tagless [EvDeclare data_queue true false] _ _ _ _ _ eq_refl Ht1)
                  (run_tags_close_channel _)) as H.
    exact H.
Qed.

End PeekMessages.

Section OtherBrowsers.

Context {J : JsonLib} {U : StrLib}.

Lemma analyze_loop_not_ready self n mt ic req w r req' w' :
  chan_open w = false \/ queues w !! data_queue = None ->
  analyze_loop self n mt ic req w = (r, req', w') ->
  req' = req /\ (w' = w \/ (queues w !! data_queue = None /\ w' = close_channel w)).
Proof.
  intros Hnr. destruct n as [| n]; simpl.
  - inversion 1; auto.
  - destruct (basic_get data_queue w) as [[[[tag body] |] | e] w1] eqn:G.
    + apply basic_get_some in G. destruct G as (Ho & q & ? & ? & Hq & _).
      destruct Hnr; congruence.
    + exfalso. unfold basic_get in G. destruct Hnr as [Hc | Hq].
      * rewrite Hc in G. inversion G.
      * destruct (chan_open w); [rewrite Hq in G |]; inversion G.
    + inversion 1; subst. split; [easy|].
      apply basic_get_raise in G. destruct G as [(_ & -> & _) | (_ & Hq & ->)]; auto.
Qed.

Lemma analyze_loop_count self n :
  forall mt ic req0 w r req w1,
    analyze_loop self n mt ic req0 w = (r, req, w1) ->
    (List.length req <= List.length req0 + n)%nat.
Proof.
  induction n as [| n IH]; intros mt ic req0 w r req w1; simpl.
  - inversion 1; subst. lia.
  - destruct (basic_get data_queue w) as [[[[tag body] |] | e] w2].
    + destruct (analyze_one self body mt ic w2) as [[[mt' ic'] | e] w3].
      * intros H. apply IH in H. rewrite length_app in H. simpl in H. lia.
      * inversion 1; subst. rewrite length_app. simpl. lia.
    + inversion 1; subst. lia.
    + inversion 1; subst. lia.
Qed.

Lemma analyze_message_types_run self max_messages w :
  let w' := snd (_analyze_message_types self max_messages w) in
  queues w' !! data_queue = queues w !! data_queue /\
  (chan_open w = true -> is_Some (queues w !! data_queue) -> queues w' = queues w) /\
  exists tags, run_tags w w' tags (rev tags) [] /\ (List.length tags <= 10)%nat.
Proof.
  unfold _analyze_message_types.
  destruct (analyze_loop self _ [] [] [] w) as [[r req] w1] eqn:El.
  rewrite try_finally_requeue. simpl.
  destruct (chan_open w) eqn:Ho; [destruct (queues w !! data_queue) as [q |] eqn:Eq |].
  - pose proof (analyze_loop_browsed w Ho self _ (ltac:(rewrite Eq; eauto)) _ _ _ _ _ _ _
                  (browsed_start _ _) El) as Hb.
    destruct (browsed_restore _ _ _ _ Hb) as (Hqs & _ & _).
    rewrite Hqs, Eq. repeat split; auto.
    exists req. split.
    + pose proof (run_tags_trans _ _ _ _ _ _ _ _ _ (run_tags_browsed _ _ _ _ Hb)
                    (run_tags_requeue (rev req) w1)) as H.
      simpl in H. now rewrite app_nil_r in H.
    + apply analyze_loop_count in El. simpl in El. lia.
  - destruct (analyze_loop_not_ready _ _ _ _ _ _ _ _ _ (or_intror Eq) El) as [-> Hw].
    simpl. split.
    + destruct Hw as [-> | [_ ->]]; [easy|].
      simpl. now apply requeue_unacked_lookup_none.
    + split; [intros _ [? ?]; congruence |].
      exists []. split; [| simpl; lia].
      destruct Hw as [-> | [_ ->]]; [apply run_tags_refl | apply run_tags_close_channel].
  - destruct (analyze_loop_not_ready _ _ _ _ _ _ _ _ _ (or_introl Ho) El) as [-> Hw].
    simpl. split.
    + destruct Hw as [-> | [Hq ->]]; [easy|].
      simpl. rewrite Hq. now apply requeue_unacked_lookup_none.
    + split; [congruence |].
      exists []. split; [| simpl; lia].
      destruct Hw as [-> | [_ ->]]; [apply run_tags_refl | apply run_tags_close_channel].
Qed.

End OtherBrowsers.

Lemma output_tagless evs : Forall is_output evs -> forallb tagless evs = true.
Proof.
  induction 1 as [| e evs He _ IH]; [easy|]. simpl. rewrite IH.
  destruct e; simpl in *; easy.
Qed.

Section CommandQueueStatus.

Context {J : JsonLib} {U : StrLib}.

Arguments next_commands_try_finally : simpl never.
Arguments repeat_str : simpl never.

Lemma next_commands_try_finally_ready imei message_count w :
  chan_open w = true -> is_Some (queues w !! imei) ->
  exists tags,
    same_broker (snd (next_commands_try_finally imei message_count w)) w /\
    run_tags w (snd (next_commands_try_finally imei message_count w)) tags (rev tags) [].
Proof.
  intros Ho Hq. unfold next_commands_try_finally.
  destruct (next_commands_loop imei _ 0 [] w) as [[r req] w1] eqn:El.
  pose proof (next_commands_loop_browsed w Ho imei _ Hq _ _ _ _ _ _
                (browsed_start _ _) El) as Hb.
  rewrite try_finally_requeue. simpl.
  exists req. split.
  - now apply browsed_restore with (name := imei).
  - pose proof (run_tags_trans _ _ _ _ _ _ _ _ _ (run_tags_browsed _ _ _ _ Hb)
                  (run_tags_requeue (rev req) w1)) as H.
    simpl in H. now rewrite app_nil_r in H.
Qed.

Lemma check_command_queue_status_run imei w :
  let w' := snd (_check_command_queue_status imei w) in
  queues w' !! imei = queues w !! imei /\
  (chan_open w = true -> is_Some (queues w !! imei) -> queues w' = queues w) /\
  exists tags, run_tags w w' tags (rev tags) [].
Proof.
  intros w'. remember w' as wf eqn:Ew. unfold w', _check_command_queue_status in Ew. clear w'.
  match type of Ew with context [try_except ?c ?hd ?h w] =>
    destruct (try_except_quiet_handler c hd h w) as (hevs & Hho & Hw');
    [intros; quiet_tac |]; rewrite Hw' in Ew; clear Hw'
  end.
  unfold bind at 1 in Ew.
  destruct (chan_open w) eqn:Ho; [destruct (queues w !! imei) as [q |] eqn:Eq |].
  - rewrite (declare_passive_found imei q w) in Ew by congruence.
    set (w2 := emit (EvDeclare imei true false) w) in *.
    assert (Ht2 : run_tags w w2 [] [] []) by (apply (run_tags_tagless [_]); [easy | apply run_tags_refl]).
    cbv beta in Ew. remember (fst (counts q)) as mc eqn:Emc. clear Emc.
    remember (snd (counts q)) as cc eqn:Ecc. clear Ecc.
    unfold bind, print, out, emit in Ew.
    destruct (0 <? cc); simpl in Ew;
      (destruct (0 <? mc); simpl in Ew;
       [ rewrite !add_trace_app in Ew; simpl in Ew;
         match type of Ew with context [next_commands_try_finally ?a ?b ?v] =>
           set (w3 := v) in *;
           assert (Ht3 : run_tags w w3 [] [] [])
             by (apply run_tags_tagless; [reflexivity | exact Ht2]);
           destruct (next_commands_try_finally_ready a b w3)
             as (tags & Hsame & Htags);
             [exact Ho | change (queues w3) with (queues w); rewrite Eq; eauto |];
           destruct (next_commands_try_finally a b w3) as [[[] | e] w4]
         end;
         simpl in Hsame, Htags; destruct Hsame as (Hqs & _ & _);
         pose proof (run_tags_trans _ _ _ _ _ _ _ _ _ Ht3 Htags) as Hrun;
         simpl in Hrun;
         [ destruct (3 <? mc); simpl in Ew | ];
         subst wf; simpl; rewrite Hqs; change (queues w3) with (queues w);
         (repeat split; auto); exists tags;
         (apply run_tags_output; [easy|]);
         first [ exact Hrun | apply run_tags_tagless; [reflexivity | exact Hrun] ]
       | rewrite !add_trace_app in Ew; subst wf; simpl; (repeat split; auto);
         exists []; apply run_tags_tagless; [| exact Ht2];
         simpl; now apply output_tagless ]).
  - rewrite (declare_passive_missing imei w) in Ew by congruence.
    subst wf. simpl.
    split; [now apply requeue_unacked_lookup_none |].
    split; [intros _ [? ?]; congruence |].
    exists []. apply run_tags_output; [easy|].
    exists [EvDeclare imei true false]. simpl. easy.
  - rewrite (declare_passive_closed imei w) in Ew by congruence.
    subst wf. simpl. split; [easy|]. split; [congruence|].
    exists []. apply run_tags_output; [easy|].
    exists [EvDeclare imei true false]. simpl. easy.
Qed.

End CommandQueueStatus.

(** ** Non-destructive browsing *)

Section BrowsingClaims.

Context {J : JsonLib} {U : StrLib}.

Lemma peek_loop_depth self limit show_json n :
  forall shown req w r shown' req' w',
    peek_loop self limit show_json n shown req w = (r, (shown', req'), w') ->
    Z.of_nat (List.length req') <= Z.of_nat (List.length req) + message_count_of data_queue w.
Proof.
  assert (Hpos : forall w, 0 <= message_count_of data_queue w).
  { intros w. unfold message_count_of. destruct (queues w !! data_queue); lia. }
  induction n as [| n IH]; intros shown req w r shown' req' w'; simpl.
  - inversion 1; subst. specialize (Hpos w'). lia.
  - destruct (basic_get data_queue w) as [[[[tag body] |] | e] w1] eqn:G.
    + assert (Hone : message_count_of data_queue w1 + 1 = message_count_of data_queue w).
      { apply basic_get_some in G. destruct G as (_ & q & m & rest & Hq & Hr & _ & _ & ->).
        unfold message_count_of. simpl. rewrite lookup_insert_eq, Hq, Hr. simpl. lia. }
      assert (Hq : forall {A} (c : M A), quiet c ->
                 message_count_of data_queue (snd (c w1)) = message_count_of data_queue w1).
      { intros A c Hc. destruct (Hc w1) as (evs & -> & _). easy. }
      pose proof (Hq _ _ (quiet_peek_skips self body)) as H2.
      destruct (peek_skips self body w1) as [[[|] | e] w2]; simpl in H2.
      * intros H. apply IH in H. rewrite length_app in H. simpl in H. lia.
      * assert (Hq2 : forall {A} (c : M A), quiet c ->
                 message_count_of data_queue (snd (c w2)) = message_count_of data_queue w2).
        { intros A c Hc. destruct (Hc w2) as (evs & -> & _). easy. }
        pose proof (Hq2 _ _ (quiet_display_message (AInt (shown + 1)) body show_json)) as H3.
        destruct (_display_message (AInt (shown + 1)) body show_json w2) as [[[] | e] w3];
          simpl in H3.
        -- destruct (limit <=? shown + 1).
           ++ inversion 1; subst. rewrite length_app. simpl. specialize (Hpos w1). lia.
           ++ intros H. apply IH in H. rewrite length_app in H. simpl in H. lia.
        -- inversion 1; subst. rewrite length_app. simpl. specialize (Hpos w1). lia.
      * inversion 1; subst. rewrite length_app. simpl. specialize (Hpos w1). lia.
    + inversion 1; subst. specialize (Hpos w). lia.
    + inversion 1; subst. specialize (Hpos w). lia.
Qed.

(** C2.  [peek_messages] leaves the browsed queue as it found it: the same
    messages in the same order of delivery, hence the same message count,
    for every state of the broker, every limit and with or without an IMEI
    filter; and so does [_analyze_message_types].  The broker puts a
    negatively acknowledged message back at the head of its queue, and
    nobody else consumes meanwhile. *)
Theorem browse_preserves_queue self limit show_json max_messages w :
  let after_peek := snd (peek_messages self limit show_json w) in
  let after_analysis := snd (_analyze_message_types self max_messages w) in
  (queues after_peek !! data_queue = queues w !! data_queue /\
   message_count_of data_queue after_peek = message_count_of data_queue w /\
   delivery_order data_queue after_peek = delivery_order data_queue w) /\
  (queues after_analysis !! data_queue = queues w !! data_queue /\
   message_count_of data_queue after_analysis = message_count_of data_queue w /\
   delivery_order data_queue after_analysis = delivery_order data_queue w).
Proof.
  intros after_peek after_analysis.
  destruct (peek_messages_run self limit show_json w) as (Hp & _).
  destruct (analyze_message_types_run self max_messages w) as (Ha & _).
  fold after_peek in Hp. fold after_analysis in Ha.
  unfold message_count_of, delivery_order. rewrite Hp, Ha. easy.
Qed.

(** C4.  The messages that [peek_messages] fetches number at most
    [min(queue_depth, limit * 3)] with an IMEI filter and at most
    [min(queue_depth, limit)] without one (none for a limit below one); the
    loop ends as soon as [basic_get] reports no message, and never fetches
    more than the queue holds, whatever its budget. *)
Theorem peek_fetch_budget self limit show_json w :
  (exists tags,
     run_tags w (snd (peek_messages self limit show_json w)) tags (rev tags) [] /\
     (List.length tags <= fetch_budget self limit (message_count_of data_queue w))%nat) /\
  (forall n shown req w1,
     basic_get data_queue w = (Ok None, w1) ->
     peek_loop self limit show_json (S n) shown req w = (Ok tt, (shown, req), w1)) /\
  (forall n shown req r shown' req' w',
     peek_loop self limit show_json n shown req w = (r, (shown', req'), w') ->
     Z.of_nat (List.length req') <=
     Z.of_nat (List.length req) + message_count_of data_queue w).
Proof.
  split; [| split].
  - destruct (peek_messages_run self limit show_json w) as (_ & _ & H). exact H.
  - intros n shown req w1 H. simpl. now rewrite H.
  - intros n shown req r shown' req' w'. apply peek_loop_depth.
Qed.

End BrowsingClaims.

Lemma peek_fetch_budget_witness :
  (exists tags,
     run_tags (one_queue data_queue [] 0)
       (snd (@peek_messages py_json no_filter 5 false (one_queue data_queue [] 0)))
       tags (rev tags) [] /\
     (List.length tags <=
      fetch_budget no_filter 5 (message_count_of data_queue (one_queue data_queue [] 0)))%nat) /\
  @peek_loop py_json no_filter 5 false 1 0 [] (one_queue data_queue [] 0) =
    (Ok tt, (0, []), emit (EvGet data_queue None) (one_queue data_queue [] 0)) /\
  Z.of_nat (List.length (@nil Z)) <=
    Z.of_nat (List.length (@nil Z)) + message_count_of data_queue (one_queue data_queue [] 0).
Proof.
  destruct (@peek_fetch_budget py_json no_filter 5 false (one_queue data_queue [] 0))
    as (H1 & H2 & H3).
  split; [exact H1 | split].
  - apply H2. reflexivity.
  - apply (H3 0%nat 0 [] (Ok tt) 0 [] (one_queue data_queue [] 0)). reflexivity.
Defined.

(** What the three browsers with a [finally] block do, for every state of
    the broker and every message body: each delivery tag that was fetched is
    negatively acknowledged, in the reverse order of the fetches. *)
Lemma restoration_in_finally {J : JsonLib} self limit show_json max_messages imei w :
  (exists tags, run_tags w (snd (peek_messages self limit show_json w)) tags (rev tags) []) /\
  (exists tags, run_tags w (snd (_check_command_queue_status imei w)) tags (rev tags) []) /\
  (exists tags, run_tags w (snd (_analyze_message_types self max_messages w)) tags (rev tags) []).
Proof.
  split; [| split].
  - destruct (peek_messages_run self limit show_json w) as (_ & _ & tags & H & _). eauto.
  - destruct (check_command_queue_status_run imei w) as (_ & _ & H). exact H.
  - destruct (analyze_message_types_run self max_messages w) as (_ & _ & tags & H & _). eauto.
Qed.

(** C1.  [list_queue_commands] and [inspect_queue_by_name] restore outside
    of any [finally] block.  On a queue whose only message is the byte
    [0xff], showing the message raises [UnicodeDecodeError], which no
    [except json.JSONDecodeError] clause catches: the fetched delivery is
    never negatively acknowledged and the message stays out of the queue.
    On two well-formed messages [inspect_queue_by_name] puts each delivery
    back before it fetches the next, so that the negative acknowledgments
    come in the order of the fetches. *)
Theorem restoration_skipped_on_error :
  (let w' := snd (@list_queue_commands py_json device_350 (one_queue device_350 [not_utf8] 0)) in
   fetched (trace w') = [1] /\ nacked (trace w') = [] /\
   message_count_of device_350 w' = 0 /\
   unacked w' = [(1, (device_350, plain not_utf8))]) /\
  (let w' := snd (@inspect_queue_by_name py_json device_350 (one_queue device_350 [not_utf8] 0)) in
   fetched (trace w') = [1] /\ nacked (trace w') = [] /\
   message_count_of device_350 w' = 0 /\
   unacked w' = [(1, (device_350, plain not_utf8))]) /\
  (let w' := snd (@inspect_queue_by_name py_json device_350
                    (one_queue device_350 [telemetry_111; heartbeat] 0)) in
   fetched (trace w') = [1; 2] /\ nacked (trace w') = [1; 2]).
Proof. vm_compute. repeat split. Qed.

(** ** Real-time monitoring *)

Lemma basic_ack_tags tag w : run_tags w (snd (basic_ack tag w)) [] [] [tag].
Proof.
  exists [EvAck tag]. unfold basic_ack.
  destruct (chan_open (emit (EvAck tag) w));
    [destruct (take_delivery tag (unacked (emit (EvAck tag) w))) as [[? ?] |] |];
    simpl; easy.
Qed.

Lemma basic_ack_delivered tag w d un' :
  chan_open w = true -> take_delivery tag (unacked w) = Some (d, un') ->
  basic_ack tag w =
  (Ok tt, set_broker (queues w) un' (next_tag w) true (emit (EvAck tag) w)).
Proof.
  intros Ho Ht. unfold basic_ack. simpl. now rewrite Ho, Ht.
Qed.

Lemma basic_ack_raises tag w e w' :
  basic_ack tag w = (Raise e, w') -> is_JSONDecodeError e = false.
Proof.
  unfold basic_ack.
  destruct (chan_open (emit (EvAck tag) w));
    [destruct (take_delivery tag (unacked (emit (EvAck tag) w))) as [[? ?] |] |];
    intros H; inversion H; reflexivity.
Qed.

Section Monitoring.

Context {J : JsonLib} {U : StrLib}.

Lemma loads_body_pure body w : snd (loads_body body w) = w.
Proof.
  unfold loads_body, bind, lift, decode_utf8.
  destruct (utf8_valid body); [| reflexivity].
  now destruct (json_loads body).
Qed.

(** Whenever the callback of [monitor_realtime] returns, it has acknowledged
    the delivery, once. *)
Lemma callback_acks_on_return self show_json delivery_tag body w w' :
  message_callback self show_json delivery_tag body w = (Ok tt, w') ->
  run_tags w w' [] [] [delivery_tag].
Proof.
  assert (Hshown : forall w0 w1,
            (logger_info "🎯 NEW MESSAGE DETECTED!" [] ;;;
             _display_message (AStr "REALTIME") body show_json ;;;
             basic_ack delivery_tag) w0 = (Ok tt, w1) ->
            run_tags w0 w1 [] [] [delivery_tag]).
  { intros w0 w1. unfold bind at 1, logger_info at 1, out at 1. unfold bind.
    pose proof (run_tags_quiet _ (emit (EvOut INFO "🎯 NEW MESSAGE DETECTED!" []) w0)
                  (quiet_display_message (AStr "REALTIME") body show_json)) as Hd.
    destruct (_display_message (AStr "REALTIME") body show_json _) as [[[] | e] w2];
      [| discriminate]. simpl in Hd.
    intros Ha. pose proof (basic_ack_tags delivery_tag w2) as Hk.
    rewrite Ha in Hk. simpl in Hk.
    apply (run_tags_frame w0 (emit (EvOut INFO "🎯 NEW MESSAGE DETECTED!" []) w0) w1 w1);
      [ apply (run_tags_add_trace [_]); repeat constructor
      | pose proof (run_tags_trans _ _ _ _ _ _ _ _ _ Hd Hk) as H; exact H
      | apply run_tags_refl ]. }
  unfold message_callback. destruct (filtering self) as [target |].
  - unfold bind at 1, try_except. unfold bind at 1.
    pose proof (loads_body_pure body w) as Hl.
    destruct (loads_body body w) as [[data | e] w0]; simpl in Hl; subst w0.
    + unfold bind at 1, lift. destruct (py_get data "imei" (JStr "UNKNOWN")) as [imei | e].
      * destruct (json_ne_str imei target).
        -- unfold bind at 1. pose proof (basic_ack_tags delivery_tag w) as Hk.
           destruct (basic_ack delivery_tag w) as [[[] | e] w1] eqn:Ea; simpl in Hk.
           ++ unfold ret. intros H. inversion H; subst. exact Hk.
           ++ rewrite (basic_ack_raises _ _ _ _ Ea). discriminate.
        -- unfold ret at 1. apply Hshown.
      * destruct e; simpl; try discriminate.
        unfold bind at 1. pose proof (basic_ack_tags delivery_tag w) as Hk.
        destruct (basic_ack delivery_tag w) as [[[] | e] w1]; simpl in Hk.
        ++ unfold ret. intros H. inversion H; subst. exact Hk.
        ++ discriminate.
    + destruct (is_JSONDecodeError e); [| discriminate].
      unfold bind at 1. pose proof (basic_ack_tags delivery_tag w) as Hk.
      destruct (basic_ack delivery_tag w) as [[[] | e'] w1]; simpl in Hk.
      * unfold ret. intros H. inversion H; subst. exact Hk.
      * discriminate.
  - unfold bind at 1, ret at 1. apply Hshown.
Qed.

(** With the IMEI filter on, a delivered message that is UTF-8 text but not
    JSON, or a JSON object of another device, is acknowledged and skipped:
    it leaves the unacknowledged deliveries and does not return to its
    queue. *)
Lemma callback_acks_skipped self target show_json delivery_tag body d un' w :
  filtering self = Some target ->
  chan_open w = true ->
  take_delivery delivery_tag (unacked w) = Some (d, un') ->
  utf8_valid body = true ->
  json_loads body = None \/
  (exists o, json_loads body = Some (JObj o) /\
             json_ne_str (field "imei" (JStr "UNKNOWN") o) target = true) ->
  message_callback self show_json delivery_tag body w =
  (Ok tt, set_broker (queues w) un' (next_tag w) true (emit (EvAck delivery_tag) w)).
Proof.
  intros Hf Ho Ht Hu Hb. unfold message_callback. rewrite Hf.
  unfold bind at 1, try_except. unfold bind at 1, loads_body.
  unfold bind at 1, lift at 1, decode_utf8. rewrite Hu.
  destruct Hb as [Hn | (o & Hs & Hne)].
  - rewrite Hn. unfold raise. simpl. unfold bind at 1.
    now rewrite (basic_ack_delivered _ _ _ _ Ho Ht).
  - rewrite Hs. unfold ret at 1. unfold bind at 1, lift, py_get.
    unfold field in Hne. cbv beta iota. rewrite Hne. unfold bind at 1.
    now rewrite (basic_ack_delivered _ _ _ _ Ho Ht).
Qed.

End Monitoring.

(** C9.  The callback of [monitor_realtime] does not acknowledge a message
    whose handling raises another exception than [json.JSONDecodeError].
    With the IMEI filter on, a message that is the byte [0xff] is delivered
    and never acknowledged; without a filter the same happens to the JSON
    text [[]], a message delivered after an acknowledged one.  The
    monitoring stops there and the message stays unacknowledged, to be
    requeued by the broker when the channel closes. *)
Theorem monitor_leaves_message_unacked :
  (let w' := snd (@monitor_realtime py_json filter_111 false 5
                    (one_queue data_queue [not_utf8; telemetry_111] 0)) in
   delivered (trace w') = [1] /\ acked (trace w') = [] /\
   unacked w' = [(1, (data_queue, plain not_utf8))] /\
   delivery_order data_queue w' = [telemetry_111]) /\
  (let w' := snd (@monitor_realtime py_json no_filter false 5
                    (one_queue data_queue [telemetry_111; "[]"; telemetry_111] 0)) in
   delivered (trace w') = [1; 2] /\ acked (trace w') = [1] /\
   unacked w' = [(2, (data_queue, plain "[]"))] /\
   delivery_order data_queue w' = [telemetry_111]).
Proof. vm_compute. repeat split. Qed.

(** ** Decoding and classification *)





(** The decoding boundary is crossed by the exceptions that are not
    [json.JSONDecodeError]: a body that is not UTF-8 raises
    [UnicodeDecodeError], JSON that is not an object raises
    [AttributeError]. *)
Lemma display_raises :
  fst (@_display_message py_json (AInt 1) not_utf8 false (one_queue data_queue [] 0))
  = Raise UnicodeDecodeError /\
  fst (@_display_message py_json (AInt 1) "[]" false (one_queue data_queue [] 0))
  = Raise AttributeError /\
  fst (@_analyze_message_types py_json no_filter 10 (one_queue data_queue [not_utf8] 0))
  = Raise UnicodeDecodeError.
Proof. vm_compute. repeat split. Qed.

Section Decoding.

Context {J : JsonLib} {U : StrLib}.

Arguments repeat_str : simpl never.

Lemma loads_body_failure body w :
  utf8_valid body = true -> json_loads body = None ->
  loads_body body w = (Raise JSONDecodeError, w).
Proof.
  intros Hv Hl. unfold loads_body, bind, lift, decode_utf8. now rewrite Hv, Hl.
Qed.

Lemma loads_body_success body data w :
  utf8_valid body = true -> json_loads body = Some data ->
  loads_body body w = (Ok data, w).
Proof.
  intros Hv Hl. unfold loads_body, bind, lift, decode_utf8. now rewrite Hv, Hl.
Qed.


End Decoding.


(** ** Queue status *)

(** C5.  The status that [list_all_queues] prints in the row of a queue,
    for counts that are not negative, is exactly one of four labels: [BUSY]
    when both counts are positive, [ACTIVE] with consumers and no message,
    [BACKLOG] with messages and no consumer, [IDLE] when both are zero. *)
Theorem queue_status_truth_table (queue : snapshot) :
  0 <= messages queue -> 0 <= consumers queue ->
  exists label,
    (forall w,
       print_rows [queue] w =
       (Ok tt,
        emit (EvOut STDOUT
                "{name:<30} {messages:<10} {consumers:<10} {status:<12} {durable:<8}"
                [AStr (short_name (name queue)); AStr (str_of_Z (messages queue));
                 AStr (str_of_Z (consumers queue)); AStr label;
                 AStr (if durable queue then "Yes" else "No")]) w)) /\
    In label ["🟡 BUSY"; "🟢 ACTIVE"; "🔴 BACKLOG"; "⚪ IDLE"] /\
    (label = "🟡 BUSY" <-> 0 < consumers queue /\ 0 < messages queue) /\
    (label = "🟢 ACTIVE" <-> 0 < consumers queue /\ messages queue = 0) /\
    (label = "🔴 BACKLOG" <-> consumers queue = 0 /\ 0 < messages queue) /\
    (label = "⚪ IDLE" <-> consumers queue = 0 /\ messages queue = 0).
Proof.
  intros Hm Hc. exists (status_text (queue_status queue)).
  split; [intros w; reflexivity |].
  unfold queue_status.
  destruct (Z.ltb_spec 0 (consumers queue)), (Z.ltb_spec 0 (messages queue));
    cbn [andb status_text].
  all: split; [cbn [In]; tauto |].
  all: repeat match goal with |- _ /\ _ => split end.
  all: (split; [intros E; try discriminate E; lia | intros [? ?]; try reflexivity; lia]).
Qed.

Lemma queue_status_truth_table_witness :
  exists label,
    print_rows [{| name := "device_commands"; messages := 3; consumers := 0;
                   durable := true; auto_delete := false |}] no_queue =
    (Ok tt,
     emit (EvOut STDOUT
             "{name:<30} {messages:<10} {consumers:<10} {status:<12} {durable:<8}"
             [AStr "device_commands"; AStr "3"; AStr "0"; AStr label; AStr "Yes"])
       no_queue) /\
    label = "🔴 BACKLOG".
Proof.
  destruct (queue_status_truth_table
              {| name := "device_commands"; messages := 3; consumers := 0;
                 durable := true; auto_delete := false |})
    as (label & Hrow & _ & _ & _ & Hb & _); [cbn; lia | cbn; lia |].
  exists label. split; [exact (Hrow no_queue) |].
  apply Hb. cbn. lia.
Defined.

(** ** Queue discovery *)

Lemma probe_queues_closed names : forall disc found w,
  chan_open w = false ->
  (forall n, n ∈ names -> n ∉ disc) ->
  probe_queues names disc found w =
  (Ok found, add_trace (List.map (fun n => EvDeclare n true false) names) w).
Proof.
  induction names as [| n names IH]; intros disc found w Hc Hd; simpl.
  - now rewrite add_trace_nil.
  - destruct (decide (n ∈ disc)) as [Hin | _].
    + exfalso. apply (Hd n); [left | exact Hin].
    + rewrite (declare_passive_closed n w Hc). simpl.
      rewrite IH; [| exact Hc | intros m Hm; apply Hd; now right].
      unfold emit. now rewrite add_trace_app.
Qed.

Lemma probe_queues_open names : forall disc found w,
  chan_open w = true ->
  NoDup names ->
  (forall n, n ∈ names -> n ∉ disc) ->
  exists w',
    probe_queues names disc found w = (Ok (found ++ probed (queues w) names), w') /\
    trace w' = trace w ++ List.map (fun n => EvDeclare n true false) names.
Proof.
  induction names as [| n names IH]; intros disc found w Ho Hnd Hd; simpl.
  - exists w. now rewrite !app_nil_r.
  - destruct (decide (n ∈ disc)) as [Hin | _].
    { exfalso. apply (Hd n); [left | exact Hin]. }
    apply NoDup_cons in Hnd. destruct Hnd as [Hn Hnd].
    destruct (queues w !! n) as [q |] eqn:Eq.
    + rewrite (declare_passive_found n q w Ho Eq).
      destruct (IH ({[n]} ∪ disc)
                  (found ++ [{| name := n; messages := fst (counts q);
                                consumers := snd (counts q); durable := true;
                                auto_delete := false |}])
                  (emit (EvDeclare n true false) w)) as (w' & Hp & Ht).
      * exact Ho.
      * exact Hnd.
      * intros m Hm Hin. apply elem_of_union in Hin. destruct Hin as [Hin | Hin].
        -- apply elem_of_singleton in Hin. subst m. contradiction.
        -- apply (Hd m); [now right | exact Hin].
      * exists w'. split.
        -- rewrite Hp. simpl. now rewrite <- app_assoc.
        -- rewrite Ht. simpl. now rewrite <- app_assoc.
    + rewrite (declare_passive_missing n w Ho Eq). simpl.
      rewrite probe_queues_closed; [| easy | intros m Hm; apply Hd; now right].
      eexists. split; [now rewrite app_nil_r |].
      simpl. now rewrite <- app_assoc.
Qed.

Lemma system_queues_NoDup : NoDup system_queues.
Proof.
  apply (bool_decide_unpack _). vm_compute. exact I.
Qed.

(** Probing finds existing queues only, under their own name and with their
    own counts. *)
Lemma probed_sound qs names :
  Forall (fun s => name s ∈ names /\
                   exists q, qs !! name s = Some q /\
                             messages s = Z.of_nat (List.length (q_ready q)) /\
                             consumers s = q_consumers q)
         (probed qs names).
Proof.
  induction names as [| n names IH]; simpl; [constructor|].
  destruct (qs !! n) as [q |] eqn:Eq; [| constructor].
  constructor.
  - simpl. split; [left | eauto].
  - eapply Forall_impl; [exact IH |]. intros s [Hin Hq]. split; [now right | exact Hq].
Qed.

Lemma management_query_unavailable w :
  mgmt_unavailable (mgmt w) ->
  management_query w = (Raise (mgmt_exception (mgmt w)), [], emit EvHttpGet w) /\
  is_Exception (mgmt_exception (mgmt w)) = true.
Proof.
  unfold mgmt_unavailable, management_query, requests_get, mgmt_exception. simpl.
  destruct (mgmt w) as [e | code body]; intros H; [easy|].
  destruct (Z.eqb_spec code 200); [contradiction | easy].
Qed.

Arguments system_queues : simpl never.
Arguments probe_queues : simpl never.
Arguments probed : simpl never.

(** C6, at a failing input.  The management endpoint cannot be reached and
    the broker holds [error_queue], one of the seven well-known names, but
    not the data queue.  Every candidate is probed, yet the discovery
    returns no queue and warns that none was discovered: the failed probe of
    the data queue has closed the channel, and the probes that follow fail
    on the closed channel. *)
Theorem probing_misses_existing_queue :
  is_Some (queues only_error_queue !! "error_queue") /\
  In "error_queue" system_queues /\
  mgmt only_error_queue = MgmtRaise RequestException /\
  exists w',
    _discover_queues_smart only_error_queue = (Ok [], w') /\
    List.filter is_declare (trace w') =
      List.map (fun n => EvDeclare n true false) system_queues /\
    In (EvOut WARNING
          "⚠️  No queues discovered. Management API recommended for full visibility." [])
       (trace w') /\
    chan_open w' = false.
Proof.
  split; [vm_compute; eauto |].
  split; [vm_compute; tauto |].
  split; [reflexivity |].
  eexists. split; [vm_compute; reflexivity |].
  split; [vm_compute; reflexivity |].
  split; [vm_compute; tauto | reflexivity].
Qed.

Lemma ensure_connection_keeps w :
  exists w1,
    ensure_connection w = (Ok tt, w1) /\
    chan_open w1 = true /\ queues w1 = queues w /\ mgmt w1 = mgmt w /\
    stdin w1 = stdin w /\
    trace w1 = trace w ++ (if chan_open w then []
                           else [EvOut INFO "Channel lost, recreating..." []]).
Proof.
  unfold ensure_connection. destruct (chan_open w) eqn:E.
  - exists w. rewrite app_nil_r. repeat split; auto.
  - eexists. split; [reflexivity |]. simpl. repeat split; auto.
Qed.

Lemma system_queues_not_imei : Forall (fun n => is_imei_format n = false) system_queues.
Proof. repeat constructor. Qed.

Lemma probe_result_not_imei w :
  List.filter (fun q => is_imei_format (name q)) (probe_result w) = [].
Proof.
  unfold probe_result. destruct (chan_open w); [| reflexivity].
  pose proof (probed_sound (queues w) system_queues) as Hs.
  induction Hs as [| s l [Hin _] _ IH]; [reflexivity |].
  simpl. rewrite IH.
  pose proof system_queues_not_imei as Hn. rewrite Forall_forall in Hn.
  now rewrite (Hn _ Hin).
Qed.

Lemma no_queue_row_app e1 e2 :
  no_queue_row (e1 ++ e2) = (no_queue_row e1 && no_queue_row e2)%bool.
Proof. apply forallb_app. Qed.

Lemma no_queue_row_output_free evs :
  forallb (fun e => match e with EvOut STDOUT _ _ => false | _ => true end) evs = true ->
  no_queue_row evs = true.
Proof.
  unfold no_queue_row. induction evs as [| e evs IH]; simpl; [easy |].
  intros H. apply andb_prop in H. destruct H as [He H]. rewrite (IH H).
  destruct e as [| | | | | | | [] ? ? |]; simpl in *; easy.
Qed.

Lemma management_query_frame w w' :
  mgmt w' = mgmt w ->
  exists evs,
    management_query w' =
      (fst (fst (management_query w)), snd (fst (management_query w)), add_trace evs w') /\
    forallb quiet_event evs = true.
Proof.
  intros Hm. unfold management_query, requests_get. cbn [mgmt emit add_trace]. rewrite Hm.
  destruct (mgmt w) as [e | code [items |]].
  - exists [EvHttpGet]. split; reflexivity.
  - destruct (code =? 200).
    + destruct (append_descriptors items []) as [r kept].
      eexists. unfold emit. rewrite add_trace_app. split; reflexivity.
    + exists [EvHttpGet]. split; reflexivity.
  - destruct (code =? 200); exists [EvHttpGet]; split; reflexivity.
Qed.

Lemma no_queue_row_quiet evs : forallb quiet_event evs = true -> no_queue_row evs = true.
Proof. apply no_queue_row_output_free. Qed.

Lemma quiet_declares names :
  forallb quiet_event (List.map (fun n => EvDeclare n true false) names) = true.
Proof. induction names as [| n names IH]; [reflexivity | exact IH]. Qed.

(** The fallback of [_discover_queues_smart], whatever the management query
    had kept when it failed. *)
Lemma discover_fallback_kept w e kept w1 :
  management_query w = (Raise e, kept, w1) -> is_Exception e = true ->
  exists w' evs,
    _discover_queues_smart w = (Ok (kept ++ probe_result w), w') /\
    trace w' = trace w ++ evs /\
    forallb quiet_event evs = true.
Proof.
  intros Hq He.
  destruct (management_query_frame w w eq_refl) as (qevs & Hf & Hquiet).
  rewrite Hq in Hf. cbn [fst snd] in Hf. inversion Hf as [Hw1]. clear Hf. subst w1.
  unfold _discover_queues_smart. rewrite Hq, He.
  unfold bind, logger_debug, logger_info, logger_warning, out, emit.
  rewrite !add_trace_app.
  match goal with |- context [probe_queues _ _ _ ?v] => set (w2 := v) end.
  unfold probe_result.
  destruct (chan_open w) eqn:Ho.
  - destruct (probe_queues_open system_queues ∅ kept w2 Ho system_queues_NoDup)
      as (w3 & Hp & Ht); [set_solver |].
    rewrite Hp. change (queues w2) with (queues w).
    destruct (kept ++ probed (queues w) system_queues) as [| s l];
      eexists _, _; (split; [reflexivity |]); cbn [trace add_trace]; rewrite Ht;
      cbn [trace add_trace w2]; rewrite <- !app_assoc; (split; [reflexivity |]);
      rewrite !forallb_app, Hquiet, ?quiet_declares; reflexivity.
  - rewrite probe_queues_closed; [| exact Ho | set_solver].
    rewrite app_nil_r. destruct kept as [| s l];
      eexists _, _; (split; [reflexivity |]); cbn [trace add_trace w2];
      rewrite <- !app_assoc; (split; [reflexivity |]);
      rewrite !forallb_app, Hquiet, ?quiet_declares; reflexivity.
Qed.

Arguments repeat_str : simpl never.

(** [list_all_queues("imei-only")] when the discovery falls back to probing
    with nothing in the IMEI format kept from a listing. *)
Lemma list_imei_only_fallback_kept show_active_only w e kept w1 :
  management_query w = (Raise e, kept, w1) -> is_Exception e = true ->
  List.filter (fun q => is_imei_format (name q)) kept = [] ->
  exists w' evs,
    list_all_queues "imei-only" show_active_only w = (Ok tt, w') /\
    trace w' = trace w ++ evs /\
    no_queue_row evs = true /\
    (In (EvOut STDOUT "📭 No queues found or accessible{filter_msg}"
           [AStr " (no IMEI queues found)"]) evs \/
     In (EvOut STDOUT "📭 No queues found or accessible" []) evs).
Proof.
  intros Hq He Hk. unfold list_all_queues, try_except.
  destruct (ensure_connection_keeps w) as (w1' & Hen & Ho1 & Hq1 & Hm1 & _ & Ht1).
  unfold bind at 1. rewrite Hen.
  unfold bind at 1. unfold print at 1, out at 1.
  unfold bind at 1. cbn [String.eqb Ascii.eqb Bool.eqb]. cbv iota.
  unfold bind at 1. unfold print at 1, out at 1.
  unfold bind at 1. unfold print at 1, out at 1.
  unfold bind at 1. unfold print at 1, out at 1.
  unfold bind at 1.
  match goal with |- context [_discover_queues_smart ?v] => set (w2 := v) end.
  destruct (management_query_frame w w2) as (qevs & Hq2 & _).
  { unfold w2. cbn [mgmt emit add_trace]. exact Hm1. }
  rewrite Hq in Hq2. cbn [fst snd] in Hq2.
  destruct (discover_fallback_kept w2 e kept _ Hq2 He) as (w3 & devs & Hd & Ht3 & Hquiet).
  rewrite Hd.
  assert (Ht2 : trace w2 = trace w ++ (if chan_open w then []
                           else [EvOut INFO "Channel lost, recreating..." []])
                  ++ [EvOut STDOUT (repeat_str "=" 70) [];
                      EvOut STDOUT "🗂️  IMEI QUEUES ON RABBITMQ SERVER" [];
                      EvOut STDOUT "(Only 15-digit numeric IMEI queues)" [];
                      EvOut STDOUT (repeat_str "=" 70) []]).
  { unfold w2, emit. rewrite !add_trace_app. cbn [trace add_trace]. rewrite Ht1.
    now rewrite <- !app_assoc. }
  assert (Hf : List.filter (fun q => is_imei_format (name q)) (kept ++ probe_result w2) = []).
  { now rewrite List.filter_app, Hk, probe_result_not_imei. }
  destruct (kept ++ probe_result w2) as [| s l] eqn:Ep.
  - unfold bind, print, out, emit. cbn [fst snd]. rewrite !add_trace_app.
    eexists _, _. split; [reflexivity |]. cbn [trace add_trace]. rewrite Ht3, Ht2.
    rewrite <- !app_assoc. split; [reflexivity |].
    split.
    + rewrite !no_queue_row_app, (no_queue_row_quiet _ Hquiet).
      destruct (chan_open w); reflexivity.
    + right. rewrite !in_app_iff. do 3 right. left. now left.
  - unfold apply_filter. cbn [String.eqb Ascii.eqb Bool.eqb]. cbv iota.
    rewrite Hf.
    unfold bind, print, out, emit, ret. cbn [fst snd].
    eexists _, _. split; [reflexivity |]. cbn [trace add_trace]. rewrite Ht3, Ht2.
    rewrite <- !app_assoc. split; [reflexivity |].
    split.
    + rewrite !no_queue_row_app, (no_queue_row_quiet _ Hquiet).
      destruct (chan_open w); reflexivity.
    + left. rewrite !in_app_iff. do 3 right. now left.
Qed.

(** C10, amended.  The candidates of the probe fallback are the data queue
    and six fixed names, none of them in the IMEI format (fifteen digits).
    Hence, whenever the discovery falls back to probing (the management
    query ended with an exception, [kept] being what it had read from a
    listing until then), no queue found by probing passes the [imei-only]
    filter: the filter leaves the IMEI queues of [kept] and nothing else.
    Nothing is kept when the endpoint cannot be reached or answers with
    another status than 200; and whenever no IMEI queue is kept,
    [list_all_queues("imei-only")] prints no queue row but the notice that
    no queue was found. *)
Theorem probe_fallback_finds_no_imei_queue show_active_only w e kept w1 :
  management_query w = (Raise e, kept, w1) -> is_Exception e = true ->
  system_queues =
    [data_queue; "device_commands"; "system_alerts"; "error_queue";
     "dead_letter_queue"; "audit_log"; "notifications"] /\
  Forall (fun n => is_imei_format n = false) system_queues /\
  (exists found w2,
     _discover_queues_smart w = (Ok found, w2) /\
     (exists probed_queues,
        found = kept ++ probed_queues /\
        Forall (fun s => name s ∈ system_queues) probed_queues) /\
     apply_filter "imei-only" show_active_only found =
       List.filter (fun q => is_imei_format (name q)) kept) /\
  (mgmt_unavailable (mgmt w) -> kept = []) /\
  (List.filter (fun q => is_imei_format (name q)) kept = [] ->
   exists w' evs,
     list_all_queues "imei-only" show_active_only w = (Ok tt, w') /\
     trace w' = trace w ++ evs /\
     no_queue_row evs = true /\
     (In (EvOut STDOUT "📭 No queues found or accessible{filter_msg}"
            [AStr " (no IMEI queues found)"]) evs \/
      In (EvOut STDOUT "📭 No queues found or accessible" []) evs)).
Proof.
  intros Hq He. split; [reflexivity |]. split; [exact system_queues_not_imei |].
  split; [| split].
  - destruct (discover_fallback_kept w e kept w1 Hq He) as (w2 & evs & Hd & _ & _).
    exists (kept ++ probe_result w), w2. split; [exact Hd |]. split.
    + exists (probe_result w). split; [reflexivity |].
      unfold probe_result. destruct (chan_open w); [| constructor].
      eapply Forall_impl; [apply probed_sound |]. now intros s [H _].
    + unfold apply_filter. cbn [String.eqb Ascii.eqb Bool.eqb]. cbv iota.
      now rewrite List.filter_app, probe_result_not_imei, app_nil_r.
  - intros Hm. destruct (management_query_unavailable w Hm) as [Hq' _].
    rewrite Hq in Hq'. now inversion Hq'.
  - intros Hk. exact (list_imei_only_fallback_kept show_active_only w e kept w1 Hq He Hk).
Qed.

Lemma probe_fallback_finds_no_imei_queue_witness :
  exists found w2 w' evs,
    _discover_queues_smart (one_queue data_queue [telemetry_111] 1) = (Ok found, w2) /\
    apply_filter "imei-only" false found = [] /\
    list_all_queues "imei-only" false (one_queue data_queue [telemetry_111] 1) = (Ok tt, w') /\
    trace w' = evs /\
    no_queue_row evs = true.
Proof.
  destruct (probe_fallback_finds_no_imei_queue false
              (one_queue data_queue [telemetry_111] 1) RequestException []
              (emit EvHttpGet (one_queue data_queue [telemetry_111] 1))
              eq_refl eq_refl)
    as (_ & _ & (found & w2 & Hd & _ & Hf) & _ & Hl).
  destruct (Hl eq_refl) as (w' & evs & Hrun & Ht & Hn & _).
  exists found, w2, w', evs. repeat split; assumption.
Defined.

(** C10, as stated, fails after a listing that breaks off: the discovery
    falls back to probing and keeps the IMEI queue read from the listing,
    which [list_all_queues("imei-only")] then prints. *)
Lemma fallback_lists_kept_imei_queue :
  is_imei_format "350317177240177" = true /\
  exists w',
    list_all_queues "imei-only" false broken_listing = (Ok tt, w') /\
    In (EvOut INFO "Management API not available, using smart fallback method..." [])
       (trace w') /\
    List.filter is_queue_row (trace w') =
      [queue_row {| name := "350317177240177"; messages := 2; consumers := 0;
                    durable := true; auto_delete := false |}].
Proof.
  split; [reflexivity |].
  eexists. split; [vm_compute; reflexivity |].
  split; [vm_compute; tauto | vm_compute; reflexivity].
Qed.

(** ** Sending a command *)

Section SendCommand.

Context {J : JsonLib} {U : StrLib}.

(** C8.  [send_command] declares the queue durable, publishes the command
    with delivery mode 2 (persistent), then reports the depth of the queue:
    one more than before, so 1 for a queue that was empty or absent.  The
    published body is the JSON text of the envelope, whose [command] field
    is the command and whose [command_id] is the caller's or, without one, a
    fresh UUID.  Whenever something was published, the depth was reported;
    the call fails before publishing on a closed channel or on an existing
    queue that is not durable. *)
Theorem send_command_reports_depth imei command command_id w :
  let cid := match command_id with Some c => c | None => next_uuid w end in
  let m := command_envelope cid command (clock w) in
  (chan_open w = true ->
   (forall q, queues w !! imei = Some q -> q_durable q = true) ->
   exists w',
     send_command imei command command_id w = (Ok true, w') /\
     trace w' = trace w ++ sent_events imei command cid m (message_count_of imei w + 1) /\
     message_count_of imei w' = message_count_of imei w + 1 /\
     delivery_order imei w' = delivery_order imei w ++ [msg_body m] /\
     (exists q, queues w' !! imei = Some q /\ q_durable q = true) /\
     (message_count_of imei w = 0 ->
      In (EvOut INFO "  Queue status: {} messages in queue" [AInt 1])
         (sent_events imei command cid m (message_count_of imei w + 1)))) /\
  py_get (command_message cid command (clock w)) "command" JNull = Ok (JStr command) /\
  py_get (command_message cid command (clock w)) "command_id" JNull = Ok (JStr cid) /\
  (forall r w',
     send_command imei command command_id w = (r, w') ->
     exists evs,
       trace w' = trace w ++ evs /\
       ((r = Ok true /\ evs = sent_events imei command cid m (message_count_of imei w')) \/
        (r = Ok false /\ existsb is_publish evs = false))).
Proof.
  intros cid m.
  assert (Hrun : send_command imei command command_id w =
                 try_except
                   (queue_declare_durable imei ;;;
                    basic_publish imei m ;;;
                    logger_info "✅ Command sent successfully!" [] ;;;
                    logger_info "  IMEI: {imei}" [AStr imei] ;;;
                    logger_info "  Command: {command}" [AStr command] ;;;
                    logger_info "  Command ID: {command_id}" [AStr cid] ;;;
                    queue_info <- queue_declare_passive imei ;;
                    logger_info "  Queue status: {} messages in queue" [AInt (fst queue_info)] ;;;
                    ret true)
                   is_Exception
                   (fun e => logger_error "Failed to send command: {e}" [AExn e] ;;; ret false)
                   w).
  { unfold send_command, try_except, cid, m. unfold bind at 1 2.
    destruct command_id; reflexivity. }
  split; [| split; [| split]]; try reflexivity.
  - intros Ho Hd. rewrite Hrun. unfold try_except, bind at 1.
    unfold queue_declare_durable, message_count_of, delivery_order. cbn [emit add_trace chan_open queues].
    rewrite Ho.
    destruct (queues w !! imei) as [q |] eqn:Eq.
    + rewrite (Hd q eq_refl).
      unfold bind, basic_publish, logger_info, out, queue_declare_passive, emit, ret,
        set_broker, add_trace. simpl. rewrite Ho, Eq. simpl.
      rewrite lookup_insert_eq. simpl.
      eexists. split; [reflexivity |]. simpl. rewrite lookup_insert_eq. simpl.
      rewrite <- !app_assoc. simpl. rewrite length_app, map_app, Nat2Z.inj_add. simpl.
      split; [reflexivity |]. split; [reflexivity |]. split; [reflexivity |].
      split; [eexists; split; [reflexivity | simpl; auto] |].
      intros H0. unfold sent_events. rewrite H0. simpl. tauto.
    + unfold bind, basic_publish, logger_info, out, queue_declare_passive, emit, ret,
        set_broker, add_trace. simpl. rewrite lookup_insert_eq. simpl.
      rewrite lookup_insert_eq. simpl.
      eexists. split; [reflexivity |]. simpl. rewrite lookup_insert_eq. simpl.
      rewrite <- !app_assoc. simpl.
      split; [reflexivity |]. split; [reflexivity |]. split; [reflexivity |].
      split; [eexists; split; reflexivity |].
      intros _. unfold sent_events. simpl. tauto.
  - intros r w'. rewrite Hrun. unfold try_except, bind at 1.
    unfold queue_declare_durable, message_count_of. cbn [emit add_trace chan_open queues].
    destruct (chan_open w) eqn:Ho.
    + destruct (queues w !! imei) as [q |] eqn:Eq.
      * destruct (q_durable q) eqn:Edur.
        -- unfold bind, basic_publish, logger_info, out, queue_declare_passive, emit, ret,
             set_broker, add_trace. simpl. rewrite Ho, Eq. simpl.
           rewrite lookup_insert_eq. simpl.
           inversion 1; subst. eexists. split; [simpl; rewrite <- ?app_assoc; reflexivity |].
           left. split; [reflexivity |]. simpl. rewrite lookup_insert_eq. reflexivity.
        -- simpl. unfold bind, logger_error, out, ret. simpl.
           inversion 1; subst. eexists [_; _]. split; [simpl; rewrite <- ?app_assoc; reflexivity |].
           right. split; reflexivity.
      * unfold bind, basic_publish, logger_info, out, queue_declare_passive, emit, ret,
          set_broker, add_trace. simpl. rewrite lookup_insert_eq. simpl.
        rewrite lookup_insert_eq. simpl.
        inversion 1; subst. eexists. split; [simpl; rewrite <- ?app_assoc; reflexivity |].
        left. split; [reflexivity |]. simpl. rewrite lookup_insert_eq. reflexivity.
    + simpl. unfold bind, logger_error, out, ret. simpl.
      inversion 1; subst. eexists [_; _]. split; [simpl; rewrite <- ?app_assoc; reflexivity |].
      right. split; reflexivity.
Qed.

End SendCommand.

Lemma send_command_reports_depth_witness :
  exists w',
    @send_command py_json device_350 "getinfo" None (one_queue device_350 [] 0) = (Ok true, w') /\
    message_count_of device_350 w' = 1 /\
    In (EvOut INFO "  Queue status: {} messages in queue" [AInt 1]) (trace w') /\
    exists body data,
      delivery_order device_350 w' = [body] /\
      json_parse body = Some data /\
      py_get data "command" JNull = Ok (JStr "getinfo") /\
      py_get data "command_id" JNull = Ok (JStr "123e4567-e89b-42d3-a456-426614174000").
Proof.
  destruct (@send_command_reports_depth py_json device_350 "getinfo" None
              (one_queue device_350 [] 0)) as (A & _).
  destruct A as (w' & Hs & Ht & Hc & Hd & _ & Hone).
  - reflexivity.
  - intros q Hq. vm_compute in Hq. inversion Hq. reflexivity.
  - exists w'. split; [exact Hs |]. split; [exact Hc |]. split.
    + rewrite Ht. apply in_or_app. right. apply Hone. reflexivity.
    + eexists _, _. split; [exact Hd |]. vm_compute. repeat split.
Defined.

(** ** Inspection by name *)

Section Tame.

Context {A B : Type}.

Lemma tame_ret (a : A) : tame (ret a).
Proof. intros w. split; [exists []; now rewrite app_nil_r | inversion 1]. Qed.

Lemma tame_lift (r : result A) :
  (forall e, r = Raise e -> is_Exception e = true) -> tame (lift r).
Proof. intros H w. split; [exists []; now rewrite app_nil_r | exact H]. Qed.

Lemma tame_bind (c : M A) (k : A -> M B) :
  tame c -> (forall a, tame (k a)) -> tame (bind c k).
Proof.
  intros Hc Hk w. unfold bind.
  destruct (Hc w) as [(e1 & H1 & F1) R1].
  destruct (c w) as [[a | e] w1]; simpl in *.
  - destruct (Hk a w1) as [(e2 & H2 & F2) R2]. split; [| exact R2].
    exists (e1 ++ e2). rewrite H2, H1, <- app_assoc. split; [easy |].
    rewrite forallb_app. now rewrite F1, F2.
  - split; [eauto |]. intros e0 He0. inversion He0; subst. now apply R1.
Qed.

Lemma tame_try_except (c : M A) handles (h : exn -> M A) :
  tame c -> (forall e, tame (h e)) -> tame (try_except c handles h).
Proof.
  intros Hc Hh w. unfold try_except.
  destruct (Hc w) as [(e1 & H1 & F1) R1].
  destruct (c w) as [[a | e] w1]; simpl in *.
  - split; [eauto | inversion 1].
  - destruct (handles e).
    + destruct (Hh e w1) as [(e2 & H2 & F2) R2]. split; [| exact R2].
      exists (e1 ++ e2). rewrite H2, H1, <- app_assoc. split; [easy |].
      rewrite forallb_app. now rewrite F1, F2.
    + split; [eauto | exact R1].
Qed.

End Tame.

Lemma tame_out lvl text args :
  plain_event (EvOut lvl text args) = true -> tame (out lvl text args).
Proof.
  intros H w. split; [| inversion 1].
  exists [EvOut lvl text args]. simpl. now rewrite H.
Qed.

Lemma tame_input : tame input.
Proof.
  intros w. unfold input. destruct (stdin w) as [| a rest]; simpl.
  - split; [exists []; now rewrite app_nil_r | now inversion 1].
  - split; [now exists [EvInput a] | inversion 1].
Qed.

Lemma tame_ensure_connection : tame ensure_connection.
Proof.
  intros w. unfold ensure_connection. destruct (chan_open w); simpl.
  - split; [exists []; now rewrite app_nil_r | inversion 1].
  - split; [now eexists [_] | inversion 1].
Qed.

Lemma tame_queue_declare_passive n : tame (queue_declare_passive n).
Proof.
  intros w. unfold queue_declare_passive. simpl.
  destruct (chan_open w); [destruct (queues w !! n) |]; simpl;
    (split; [now eexists [_] | now inversion 1]).
Qed.

Lemma tame_basic_get n : tame (basic_get n).
Proof.
  intros w. unfold basic_get.
  destruct (chan_open w); [destruct (queues w !! n) as [q |]; [destruct (q_ready q) |] |];
    simpl; split; try (now inversion 1); try (now eexists [_]);
    exists []; now rewrite app_nil_r.
Qed.

Lemma tame_basic_nack t : tame (basic_nack t).
Proof.
  intros w. unfold basic_nack. simpl.
  destruct (chan_open w); [destruct (take_delivery t (unacked w)) as [[[? ?] ?] |] |];
    simpl; (split; [now eexists [_] | now inversion 1]).
Qed.

Lemma tame_when b c : tame c -> tame (when b c).
Proof. intros H. destruct b; simpl; [easy | apply tame_ret]. Qed.

Lemma py_get_raises data k v e : py_get data k v = Raise e -> is_Exception e = true.
Proof. destruct data; simpl; now inversion 1. Qed.

Lemma py_in_raises k data e : py_in k data = Raise e -> is_Exception e = true.
Proof. destruct data; simpl; now inversion 1. Qed.

Lemma decode_utf8_raises body e : decode_utf8 body = Raise e -> is_Exception e = true.
Proof. unfold decode_utf8. destruct (utf8_valid body); now inversion 1. Qed.

Ltac tame_step :=
  match goal with
  | |- tame (bind _ _) => apply tame_bind; [| intros ?]
  | |- tame (try_except _ _ _) => apply tame_try_except; [| intros ?]
  | |- tame (when _ _) => apply tame_when
  | |- tame (print _ _) => apply tame_out; reflexivity
  | |- tame (logger_info _ _) => apply tame_out; reflexivity
  | |- tame (logger_error _ _) => apply tame_out; reflexivity
  | |- tame (out _ _ _) => apply tame_out; reflexivity
  | |- tame (ret _) => apply tame_ret
  | |- tame (lift (py_get _ _ _)) => apply tame_lift; apply py_get_raises
  | |- tame (lift (py_in _ _)) => apply tame_lift; apply py_in_raises
  | |- tame (lift (decode_utf8 _)) => apply tame_lift; apply decode_utf8_raises
  | |- tame (raise JSONDecodeError) => intros ?; split; [exists []; now rewrite app_nil_r | now inversion 1]
  | |- tame input => apply tame_input
  | |- tame ensure_connection => apply tame_ensure_connection
  | |- tame (queue_declare_passive _) => apply tame_queue_declare_passive
  | |- tame (basic_get _) => apply tame_basic_get
  | |- tame (basic_nack _) => apply tame_basic_nack
  | |- tame (if ?b then _ else _) => destruct b
  | |- tame (match ?x with _ => _ end) => destruct x
  end.

Ltac tame_tac := repeat tame_step.

Lemma try_except_returns {A} (c : M A) (h : exn -> M A) :
  tame c -> (forall e w, exists a, fst (h e w) = Ok a) ->
  forall w, exists a, fst (try_except c is_Exception h w) = Ok a.
Proof.
  intros Hc Hh w. unfold try_except. destruct (Hc w) as [_ Hr].
  destruct (c w) as [[a | e] w1]; simpl in *; [eauto |].
  rewrite (Hr e eq_refl). apply Hh.
Qed.

Section Inspection.

Context {J : JsonLib} {U : StrLib}.

Arguments repeat_str : simpl never.

Lemma tame_show_sample i body : tame (show_sample i body).
Proof. unfold show_sample, show_field, loads_body. tame_tac. Qed.

Lemma tame_samples_loop queue_name n : forall i, tame (samples_loop queue_name n i).
Proof.
  induction n as [| n IH]; intros i; simpl; [apply tame_ret |].
  pose proof tame_show_sample. tame_tac; auto.
Qed.

Lemma tame_inspect_queue_by_name queue_name : tame (inspect_queue_by_name queue_name).
Proof.
  unfold inspect_queue_by_name. pose proof tame_samples_loop. tame_tac; auto.
Qed.

(** [inspect_queue_by_name] always returns: its [except Exception] clauses
    catch whatever is raised. *)
Lemma inspect_queue_by_name_returns queue_name w :
  exists b, fst (inspect_queue_by_name queue_name w) = Ok b.
Proof.
  unfold inspect_queue_by_name. apply try_except_returns.
  - pose proof tame_samples_loop. tame_tac; auto.
  - intros e v. unfold bind, logger_error, print, out, ret. simpl. eauto.
Qed.

Lemma tame_inspect_each total : forall l i, tame (inspect_each i total l).
Proof.
  induction l as [| q l IH]; intros i; simpl; [apply tame_ret |].
  pose proof tame_inspect_queue_by_name. tame_tac; auto.
Qed.

End Inspection.

(** *** Sorting *)

Lemma insert_desc_perm {A} (lt : A -> A -> bool) x l :
  Permutation (insert_desc lt x l) (x :: l).
Proof.
  induction l as [| y l IH]; simpl; [reflexivity |].
  destruct (lt x y); [| reflexivity].
  rewrite IH. apply perm_swap.
Qed.

Lemma sort_reverse_perm {A} (lt : A -> A -> bool) l :
  Permutation (sort_reverse lt l) l.
Proof.
  induction l as [| x l IH]; simpl; [reflexivity |].
  rewrite insert_desc_perm. now rewrite IH.
Qed.

Lemma insert_desc_sorted x l :
  StronglySorted messages_ge l -> StronglySorted messages_ge (insert_desc messages_lt x l).
Proof.
  induction l as [| y l IH]; intros Hs; simpl.
  - repeat constructor.
  - apply StronglySorted_inv in Hs. destruct Hs as [Hl Hy].
    unfold messages_lt at 1. destruct (Z.ltb_spec (messages x) (messages y)) as [Hlt | Hge].
    + constructor; [now apply IH |].
      eapply Permutation_Forall; [symmetry; apply insert_desc_perm |].
      constructor; [unfold messages_ge; lia | exact Hy].
    + constructor; [now constructor |].
      constructor; [exact Hge |].
      eapply Forall_impl; [exact Hy |]. unfold messages_ge. intros z Hz. simpl in *. lia.
Qed.

Lemma sort_reverse_sorted l : StronglySorted messages_ge (sort_reverse messages_lt l).
Proof.
  induction l as [| x l IH]; simpl; [constructor |]. now apply insert_desc_sorted.
Qed.

Lemma print_matches_run l : forall i w,
  print_matches i l w = (Ok tt, add_trace (match_rows i l) w).
Proof.
  induction l as [| q l IH]; intros i w; simpl.
  - now rewrite add_trace_nil.
  - unfold bind, print, out, emit. simpl. rewrite IH. now rewrite add_trace_app.
Qed.

Lemma filter_match_rows l : forall i,
  List.filter is_match_row (match_rows i l) = match_rows i l.
Proof. induction l as [| q l IH]; intros i; simpl; [easy |]. now rewrite IH. Qed.

Lemma filter_http_match_rows l : forall i, List.filter is_http (match_rows i l) = [].
Proof. induction l as [| q l IH]; intros i; simpl; [easy |]. apply IH. Qed.

Lemma filter_plain evs :
  forallb plain_event evs = true ->
  List.filter is_match_row evs = [] /\ List.filter is_http evs = [].
Proof.
  induction evs as [| e evs IH]; simpl; [easy |].
  intros H. apply andb_prop in H. destruct H as [He H]. destruct (IH H) as [-> ->].
  unfold plain_event in He. apply andb_prop in He. destruct He as [H1 H2].
  destruct (is_match_row e), (is_http e); simpl in *; easy.
Qed.

Section PartialName.

Context {J : JsonLib} {U : StrLib}.

Arguments repeat_str : simpl never.
Arguments inspect_queue_by_name : simpl never.
Arguments sort_reverse : simpl never.

Lemma inspect_matches_none search_term w :
  inspect_matches search_term [] w =
  (Ok false,
   add_trace
     [EvOut STDOUT "❌ No queues found containing '{search_term}'" [AStr search_term];
      EvOut STDOUT
        "💡 Tip: Search is case-insensitive. Try broader terms like 'device', 'error', etc."
        []] w).
Proof.
  unfold inspect_matches, bind, print, out, emit. simpl. now rewrite add_trace_app.
Qed.

Lemma inspect_matches_one search_term q w :
  inspect_matches search_term [q] w =
  inspect_queue_by_name (name q)
    (add_trace [EvOut STDOUT "✅ Found 1 matching queue: {queue_name}" [AStr (name q)];
                EvOut STDOUT (repeat_str "=" 70) []] w).
Proof.
  unfold inspect_matches, bind, print, out, emit.
  change (sort_reverse messages_lt [q]) with [q]. cbv iota beta.
  now rewrite add_trace_app.
Qed.

Lemma inspect_matches_many search_term ms w :
  (2 <= List.length ms)%nat ->
  exists evs,
    trace (snd (inspect_matches search_term ms w)) = trace w ++ evs /\
    List.filter is_match_row evs = match_rows 1 (sort_reverse messages_lt ms) /\
    List.filter is_http evs = [].
Proof.
  intros Hlen.
  pose proof (Permutation_length (sort_reverse_perm messages_lt ms)) as Hl.
  unfold inspect_matches.
  destruct ms as [| a ms']; [simpl in Hlen; lia |].
  remember (sort_reverse messages_lt (a :: ms')) as listed eqn:El. clear El.
  destruct listed as [| x [| y l]]; [simpl in *; lia | simpl in *; lia |].
  cbv beta iota zeta.
  unfold bind at 1, print at 1, out at 1.
  unfold bind at 1, print at 1, out at 1.
  unfold bind at 1, print at 1, out at 1.
  unfold bind at 1. rewrite print_matches_run.
  match goal with |- context [bind ?c ?k ?v] =>
    assert (Ht : tame (bind c k));
    [pose proof tame_inspect_queue_by_name; pose proof tame_inspect_each; tame_tac; auto |];
    destruct (Ht v) as [(evs & Htr & Hp) _]
  end.
  destruct (filter_plain _ Hp) as [Hf1 Hf2].
  eexists. rewrite Htr. unfold emit. rewrite !add_trace_app. simpl.
  rewrite <- app_assoc. split; [reflexivity |].
  rewrite !List.filter_app, Hf1, Hf2, !app_nil_r. simpl.
  rewrite filter_match_rows, filter_http_match_rows. split; reflexivity.
Qed.

Lemma find_queues_by_partial_name_run search_term w w1 all w2 :
  ensure_connection w = (Ok tt, w1) ->
  _discover_queues_smart w1 = (Ok all, w2) ->
  find_queues_by_partial_name search_term w =
  (Ok (List.filter (name_matches search_term) all), w2).
Proof.
  intros He Hd. unfold find_queues_by_partial_name, try_except, bind.
  now rewrite He, Hd.
Qed.

End PartialName.

Lemma tame_trace {A} (c : M A) w :
  tame c ->
  exists evs, trace (snd (c w)) = trace w ++ evs /\ forallb plain_event evs = true.
Proof. intros H. exact (proj1 (H w)). Qed.

Lemma try_except_tame_handler {A} (c : M A) handles h w :
  (forall e, tame (h e)) ->
  exists evs, forallb plain_event evs = true /\
              trace (snd (try_except c handles h w)) = trace (snd (c w)) ++ evs.
Proof.
  intros Hh. unfold try_except. destruct (c w) as [[a | e] w1]; simpl.
  - exists []. now rewrite app_nil_r.
  - destruct (handles e).
    + destruct (tame_trace (h e) w1 (Hh e)) as (evs & Ht & Hp). eauto.
    + exists []. now rewrite app_nil_r.
Qed.

Section ExactName.

Context {J : JsonLib} {U : StrLib}.

Arguments repeat_str : simpl never.

(** Inspecting an existing queue shows its name and its counts first. *)
Lemma inspect_queue_by_name_shows queue_name q w :
  chan_open w = true -> queues w !! queue_name = Some q ->
  exists evs,
    trace (snd (inspect_queue_by_name queue_name w)) =
    trace w ++
    [EvOut STDOUT (repeat_str "=" 60) [];
     EvOut STDOUT "🔍 INSPECTING QUEUE: {queue_name}" [AStr queue_name];
     EvOut STDOUT (repeat_str "=" 60) [];
     EvDeclare queue_name true false;
     EvOut STDOUT "Queue Name: {queue_name}" [AStr queue_name];
     EvOut STDOUT "Messages in Queue: {message_count:,}"
       [AInt (Z.of_nat (List.length (q_ready q)))];
     EvOut STDOUT "Active Consumers: {consumer_count}" [AInt (q_consumers q)]] ++ evs /\
    forallb plain_event evs = true.
Proof.
  intros Ho Hq. unfold inspect_queue_by_name.
  match goal with |- context [try_except ?c ?hd ?h w] =>
    destruct (try_except_tame_handler c hd h w) as (hevs & Hhp & Htr);
    [intros; tame_tac |]; rewrite Htr; clear Htr
  end.
  destruct (ensure_connection_spec w) as (w1 & He & _ & _ & _ & Hsame).
  rewrite (Hsame Ho) in He. clear Hsame w1.
  unfold bind at 1. rewrite He.
  unfold bind at 1, print at 1, out at 1.
  unfold bind at 1, print at 1, out at 1.
  unfold bind at 1, print at 1, out at 1.
  unfold bind at 1.
  match goal with |- context [try_except ?c ?hd ?h ?v] =>
    set (w3 := v);
    destruct (try_except_tame_handler c hd h w3) as (hevs2 & Hhp2 & Htr2);
    [intros; tame_tac |];
    assert (Hin : exists evs,
               trace (snd (c w3)) =
               trace w3 ++
               [EvDeclare queue_name true false;
                EvOut STDOUT "Queue Name: {queue_name}" [AStr queue_name];
                EvOut STDOUT "Messages in Queue: {message_count:,}"
                  [AInt (Z.of_nat (List.length (q_ready q)))];
                EvOut STDOUT "Active Consumers: {consumer_count}" [AInt (q_consumers q)]]
               ++ evs /\ forallb plain_event evs = true);
    [| destruct Hin as (evs & Hin & Hp); rewrite Hin in Htr2;
       destruct (try_except c hd h w3) as [[found | e] w8] ]
  end.
  - unfold bind at 1.
    rewrite (declare_passive_found queue_name q w3) by (unfold w3; easy).
    unfold bind at 1, print at 1, out at 1.
    unfold bind at 1, print at 1, out at 1.
    unfold bind at 1, print at 1, out at 1.
    match goal with |- context [bind ?c ?k ?v] =>
      assert (Ht : tame (bind c k));
      [pose proof tame_samples_loop; tame_tac; auto |];
      destruct (tame_trace _ v Ht) as (evs & Htr & Hp)
    end.
    exists evs. rewrite Htr. unfold emit. rewrite !add_trace_app. simpl.
    rewrite <- !app_assoc. split; [reflexivity | exact Hp].
  - simpl in Htr2.
    match goal with |- context [(if found then ?a else ?b) w8] =>
      assert (Ht : tame (if found then a else b)) by tame_tac;
      destruct (tame_trace _ w8 Ht) as (evs3 & Htr3 & Hp3)
    end.
    exists (evs ++ hevs2 ++ evs3 ++ hevs). rewrite Htr3, Htr2.
    unfold w3, emit. simpl. rewrite <- !app_assoc. simpl.
    split; [reflexivity |]. rewrite !forallb_app. now rewrite Hp, Hhp2, Hp3, Hhp.
  - simpl in Htr2. exists (evs ++ hevs2 ++ hevs). simpl. rewrite Htr2.
    unfold w3, emit. simpl. rewrite <- !app_assoc. simpl.
    split; [reflexivity |]. rewrite !forallb_app. now rewrite Hp, Hhp2, Hhp.
Qed.

End ExactName.

Section ExactOrPartial.

Context {J : JsonLib} {U : StrLib}.

Arguments repeat_str : simpl never.
Arguments inspect_queue_by_name : simpl never.
Arguments inspect_queues_by_partial_name : simpl never.

(** Choice 5 of the queue operations menu with the name of an existing
    queue: the queue is inspected at once, without any discovery. *)
Lemma exact_name_inspected_directly search_term q w :
  queues w !! search_term = Some q ->
  exists w2 evs,
    fst (inspect_by_name_or_partial search_term w) =
      fst (inspect_queue_by_name search_term w2) /\
    queues w2 = queues w /\
    trace (snd (inspect_by_name_or_partial search_term w)) = trace w ++ evs /\
    In (EvOut STDOUT "Queue Name: {queue_name}" [AStr search_term]) evs /\
    In (EvOut STDOUT "Messages in Queue: {message_count:,}"
          [AInt (Z.of_nat (List.length (q_ready q)))]) evs /\
    In (EvOut STDOUT "Active Consumers: {consumer_count}" [AInt (q_consumers q)]) evs /\
    List.filter is_http evs = [] /\
    List.filter is_match_row evs = [].
Proof.
  intros Hq.
  destruct (ensure_connection_keeps w) as (w1 & He & Ho1 & Hq1 & _ & _ & Ht1).
  set (w2 := emit (EvOut STDOUT "✅ Found exact match: {search_term}" [AStr search_term])
               (emit (EvDeclare search_term true false) w1)).
  destruct (inspect_queue_by_name_returns search_term w2) as [b Hb].
  destruct (inspect_queue_by_name_shows search_term q w2) as (evs & Hshow & Hp);
    [exact Ho1 | unfold w2; simpl; now rewrite Hq1 |].
  destruct (inspect_queue_by_name search_term w2) as [[b' | e] w3] eqn:Ei;
    [| simpl in Hb; discriminate Hb].
  simpl in Hshow.
  assert (Hrun : exists tips,
             forallb plain_event tips = true /\
             inspect_by_name_or_partial search_term w = (Ok b', add_trace tips w3)).
  { unfold inspect_by_name_or_partial.
    unfold try_except at 1. unfold bind at 1. unfold try_except at 1.
    unfold bind at 1. rewrite He.
    unfold bind at 1.
    rewrite (declare_passive_found search_term q w1) by (easy || now rewrite Hq1).
    unfold bind at 1, print at 1, out at 1. fold w2. rewrite Ei.
    destruct b'; simpl.
    - exists []. now rewrite add_trace_nil.
    - eexists. split; cycle 1.
      + unfold bind, print, out, emit, ret. simpl. now rewrite add_trace_app.
      + reflexivity. }
  destruct Hrun as (tips & Htips & ->). simpl.
  exists w2. eexists. split; [now rewrite Ei |]. split; [exact Hq1 |].
  rewrite Hshow. unfold w2, emit. simpl. rewrite Ht1. rewrite <- !app_assoc. simpl.
  split; [reflexivity |].
  destruct (filter_plain _ Hp) as [Hf1 Hf2].
  destruct (filter_plain _ Htips) as [Hg1 Hg2].
  rewrite !in_app_iff, !List.filter_app. simpl.
  rewrite !List.filter_app, Hf1, Hf2, Hg1, Hg2. simpl.
  repeat split; try (destruct (chan_open w); reflexivity); right; simpl; tauto.
Qed.

Lemma inspect_queues_by_partial_name_run search_term w ms w1 :
  find_queues_by_partial_name search_term
    (add_trace
       [EvOut STDOUT (repeat_str "=" 70) [];
        EvOut STDOUT "🔍 SEARCHING FOR QUEUES CONTAINING: '{search_term}'" [AStr search_term];
        EvOut STDOUT (repeat_str "=" 70) []] w) = (Ok ms, w1) ->
  inspect_queues_by_partial_name search_term w =
  try_except (inspect_matches search_term ms) is_Exception
    (fun e =>
       logger_error "Error inspecting queues by partial name '{search_term}': {e}"
         [AStr search_term; AExn e] ;;;
       print "❌ Error inspecting queues: {e}" [AExn e] ;;;
       ret false) w1.
Proof.
  intros Hf. unfold inspect_queues_by_partial_name, try_except.
  unfold bind at 1, print at 1, out at 1.
  unfold bind at 1, print at 1, out at 1.
  unfold bind at 1, print at 1, out at 1.
  unfold bind at 1. unfold emit. rewrite !add_trace_app. simpl. now rewrite Hf.
Qed.

End ExactOrPartial.

Lemma starts_with_spec p : forall s,
  starts_with p s = true <-> exists b, s = (p ++ b)%string.
Proof.
  induction p as [| a p IH]; intros s; simpl.
  - split; [intros _; now exists s | easy].
  - destruct s as [| c s]; [split; [easy | intros [b H]; discriminate H] |].
    rewrite andb_true_iff, IH. split.
    + intros [Ha [b ->]]. apply Ascii.eqb_eq in Ha. subst. now exists b.
    + intros [b H]. inversion H; subst. split; [apply Ascii.eqb_refl | now exists b].
Qed.

(** [contains p s] tells that [p] is a substring of [s]. *)
Lemma contains_spec p : forall s,
  contains p s = true <-> exists a b, s = (a ++ p ++ b)%string.
Proof.
  induction s as [| c s IH]; simpl.
  - rewrite orb_false_r, starts_with_spec. split.
    + intros [b H]. now exists EmptyString, b.
    + intros [a [b H]]. destruct a; [now exists b |]. discriminate H.
  - rewrite orb_true_iff, starts_with_spec, IH. split.
    + intros [[b H] | [a [b ->]]].
      * now exists EmptyString, b.
      * now exists (String c a), b.
    + intros [a [b H]]. destruct a as [| c' a].
      * left. now exists b.
      * right. inversion H; subst. now exists a, b.
Qed.

(** Every character is one of the 256 bytes. *)
Lemma in_all_bytes a : In a all_bytes.
Proof.
  rewrite <- (ascii_nat_embedding a). apply in_map. apply in_seq.
  pose proof (nat_ascii_bounded a). lia.
Qed.

Lemma lower_char_same a b :
  Ascii.eqb (lower_char a) (lower_char b) = same_letter a b.
Proof.
  assert (H : forallb (fun a => forallb (fun b =>
                Bool.eqb (Ascii.eqb (lower_char a) (lower_char b)) (same_letter a b))
                all_bytes) all_bytes = true) by (vm_compute; reflexivity).
  rewrite List.forallb_forall in H. specialize (H a (in_all_bytes a)).
  rewrite List.forallb_forall in H. specialize (H b (in_all_bytes b)).
  now apply Bool.eqb_prop in H.
Qed.

Lemma lower_same s : forall t,
  ascii_lower s = ascii_lower t <-> same_ignoring_case s t = true.
Proof.
  induction s as [| a s IH]; intros [| b t]; cbn [ascii_lower same_ignoring_case];
    try (split; [discriminate | discriminate]); [tauto |].
  rewrite andb_true_iff, <- IH, <- lower_char_same, Ascii.eqb_eq.
  split; [intros H; now inversion H | intros [-> ->]; reflexivity].
Qed.

Lemma lower_app s t : ascii_lower (s ++ t) = (ascii_lower s ++ ascii_lower t)%string.
Proof. induction s as [| a s IH]; simpl; [reflexivity | now rewrite IH]. Qed.

Lemma lower_split x : forall s y,
  ascii_lower s = (x ++ y)%string ->
  exists s1 s2, s = (s1 ++ s2)%string /\ ascii_lower s1 = x /\ ascii_lower s2 = y.
Proof.
  induction x as [| c x IH]; intros s y H.
  - exists EmptyString, s. auto.
  - destruct s as [| a s]; [discriminate H |].
    simpl in H. inversion H as [[Hc Hr]].
    destruct (IH s y Hr) as (s1 & s2 & -> & H1 & H2).
    exists (String a s1), s2. simpl. rewrite H1. repeat split; auto.
Qed.

(** The match of [find_queues_by_partial_name] on ASCII text: the search
    term occurs in the name, upper-case and lower-case letters taken as the
    same. *)
Lemma name_matches_spec {U : StrLib} search_term q :
  is_ascii search_term = true -> is_ascii (name q) = true ->
  name_matches search_term q = true <->
  exists a m b, name q = (a ++ m ++ b)%string /\ same_ignoring_case m search_term = true.
Proof.
  intros Ht Hn. unfold name_matches.
  rewrite (lower_ascii _ Ht), (lower_ascii _ Hn), contains_spec. split.
  - intros (a' & b' & H).
    destruct (lower_split _ _ _ H) as (a & r & Hq & Ha & Hr).
    destruct (lower_split _ _ _ Hr) as (m & b & Hr' & Hm & Hb).
    exists a, m, b. split; [now rewrite Hq, Hr' | now apply lower_same].
  - intros (a & m & b & Hq & Hs). apply lower_same in Hs.
    exists (ascii_lower a), (ascii_lower b). now rewrite Hq, !lower_app, Hs.
Qed.

(** C7.  [find_queues_by_partial_name] keeps, of the discovered queues,
    those whose lower-cased name has the lower-cased search term as a
    substring, lower-cased as Python's [str.lower] does; on names and terms
    of ASCII characters these are the queues whose name contains the search
    term, upper-case and lower-case letters taken as the same.
    [inspect_queues_by_partial_name] then has three outcomes: no match, it
    reports the failure with a hint and returns [False]; one match, it
    inspects that queue at once; several matches, it prints a
    disambiguation list whose rows are exactly the matching queues, by
    descending message count, before it asks.  The search of the menu
    inspects a queue that exists under the exact name directly, showing its
    name and counts, without any discovery. *)
Theorem partial_name_inspection {J : JsonLib} {U : StrLib} search_term :
  (forall q, name_matches search_term q = contains (lower search_term) (lower (name q))) /\
  (forall q, is_ascii search_term = true -> is_ascii (name q) = true ->
             (name_matches search_term q = true <->
              exists a m b, name q = (a ++ m ++ b)%string /\
                            same_ignoring_case m search_term = true)) /\
  (forall w w1 all w2,
     ensure_connection w = (Ok tt, w1) ->
     _discover_queues_smart w1 = (Ok all, w2) ->
     find_queues_by_partial_name search_term w =
     (Ok (List.filter (name_matches search_term) all), w2)) /\
  (forall w ms w1,
     find_queues_by_partial_name search_term
       (add_trace
          [EvOut STDOUT (repeat_str "=" 70) [];
           EvOut STDOUT "🔍 SEARCHING FOR QUEUES CONTAINING: '{search_term}'"
             [AStr search_term];
           EvOut STDOUT (repeat_str "=" 70) []] w) = (Ok ms, w1) ->
     inspect_queues_by_partial_name search_term w =
     try_except (inspect_matches search_term ms) is_Exception
       (fun e =>
          logger_error "Error inspecting queues by partial name '{search_term}': {e}"
            [AStr search_term; AExn e] ;;;
          print "❌ Error inspecting queues: {e}" [AExn e] ;;;
          ret false) w1) /\
  (forall w,
     inspect_matches search_term [] w =
     (Ok false,
      add_trace
        [EvOut STDOUT "❌ No queues found containing '{search_term}'" [AStr search_term];
         EvOut STDOUT
           "💡 Tip: Search is case-insensitive. Try broader terms like 'device', 'error', etc."
           []] w)) /\
  (forall q w,
     inspect_matches search_term [q] w =
     inspect_queue_by_name (name q)
       (add_trace [EvOut STDOUT "✅ Found 1 matching queue: {queue_name}" [AStr (name q)];
                   EvOut STDOUT (repeat_str "=" 70) []] w)) /\
  (forall ms w,
     (2 <= List.length ms)%nat ->
     let listed := sort_reverse messages_lt ms in
     Permutation listed ms /\
     StronglySorted messages_ge listed /\
     exists evs,
       trace (snd (inspect_matches search_term ms w)) = trace w ++ evs /\
       List.filter is_match_row evs = match_rows 1 listed /\
       List.filter is_http evs = []) /\
  (forall q w,
     queues w !! search_term = Some q ->
     exists w2 evs,
       fst (inspect_by_name_or_partial search_term w) =
         fst (inspect_queue_by_name search_term w2) /\
       queues w2 = queues w /\
       trace (snd (inspect_by_name_or_partial search_term w)) = trace w ++ evs /\
       In (EvOut STDOUT "Queue Name: {queue_name}" [AStr search_term]) evs /\
       In (EvOut STDOUT "Messages in Queue: {message_count:,}"
             [AInt (Z.of_nat (List.length (q_ready q)))]) evs /\
       In (EvOut STDOUT "Active Consumers: {consumer_count}" [AInt (q_consumers q)]) evs /\
       List.filter is_http evs = [] /\
       List.filter is_match_row evs = []).
Proof.
  split; [reflexivity |].
  split; [intros q; apply name_matches_spec |].
  split; [intros w w1 all w2; apply find_queues_by_partial_name_run |].
  split; [intros w ms w1; apply inspect_queues_by_partial_name_run |].
  split; [apply inspect_matches_none |].
  split; [apply inspect_matches_one |].
  split.
  - intros ms w Hlen listed.
    split; [apply sort_reverse_perm |]. split; [apply sort_reverse_sorted |].
    now apply inspect_matches_many.
  - intros q w. apply exact_name_inspected_directly.
Qed.

Lemma partial_name_inspection_witness :
  (exists w2,
     @find_queues_by_partial_name py_str "DEVICE" managed_world =
     (Ok [{| name := "device_tcp_data"; messages := 9; consumers := 2;
             durable := true; auto_delete := false |}], w2)) /\
  @name_matches py_str "Device_TCP" {| name := "device_tcp_data"; messages := 9; consumers := 2;
                               durable := true; auto_delete := false |} = true /\
  (exists w2,
     @find_queues_by_partial_name py_str "3503" managed_world = (Ok three_queues, w2)) /\
  (exists evs,
     trace (snd (@inspect_matches py_json py_str "3503" three_queues managed_world)) = evs /\
     List.filter is_match_row evs =
       [match_row 1 {| name := "350317177240178"; messages := 7; consumers := 1;
                       durable := true; auto_delete := false |};
        match_row 2 {| name := "350399999999999"; messages := 4; consumers := 0;
                       durable := true; auto_delete := false |};
        match_row 3 {| name := "350317177240177"; messages := 2; consumers := 0;
                       durable := true; auto_delete := false |}]) /\
  (exists evs,
     trace (snd (@inspect_by_name_or_partial py_json py_str device_350
                   (one_queue device_350 [telemetry_111] 0))) = evs /\
     In (EvOut STDOUT "Messages in Queue: {message_count:,}" [AInt 1]) evs /\
     List.filter is_http evs = []).
Proof.
  pose proof (@partial_name_inspection py_json py_str "DEVICE") as (_ & _ & Hupper & _).
  pose proof (@partial_name_inspection py_json py_str "3503")
    as (_ & _ & Hfind & _ & _ & _ & Hmany & _).
  pose proof (@partial_name_inspection py_json py_str device_350)
    as (_ & _ & _ & _ & _ & _ & _ & Hexact).
  split; [| split; [| split; [| split]]].
  - eexists.
    etransitivity;
      [ apply (Hupper managed_world (snd (ensure_connection managed_world))
                 (match fst (_discover_queues_smart
                               (snd (ensure_connection managed_world))) with
                  | Ok a => a
                  | Raise _ => []
                  end)
                 (snd (_discover_queues_smart (snd (ensure_connection managed_world)))));
        vm_compute; reflexivity
      | vm_compute; reflexivity ].
  - pose proof (@partial_name_inspection py_json py_str "Device_TCP") as (_ & Hmixed & _).
    apply (Hmixed {| name := "device_tcp_data"; messages := 9; consumers := 2;
                     durable := true; auto_delete := false |} eq_refl eq_refl).
    exists EmptyString, "device_tcp", "_data". split; reflexivity.
  - eexists.
    etransitivity;
      [ apply (Hfind managed_world (snd (ensure_connection managed_world))
                 (match fst (_discover_queues_smart
                               (snd (ensure_connection managed_world))) with
                  | Ok a => a
                  | Raise _ => []
                  end)
                 (snd (_discover_queues_smart (snd (ensure_connection managed_world)))));
        vm_compute; reflexivity
      | vm_compute; reflexivity ].
  - destruct (Hmany three_queues managed_world) as (_ & _ & evs & Ht & Hrows & _);
      [simpl; lia |].
    exists evs. split; [exact Ht | exact Hrows].
  - destruct (Hexact {| q_ready := [plain telemetry_111]; q_consumers := 0; q_durable := true |}
                (one_queue device_350 [telemetry_111] 0) eq_refl)
      as (w2 & evs & _ & _ & Ht & _ & Hm & _ & Hh & _).
    exists evs. split; [exact Ht |]. split; [exact Hm | exact Hh].
Defined.


(** * Further properties of the interface *)

(** ** Running a computation step by step *)

Lemma bind_ok {A B} (c : M A) (k : A -> M B) w a w' :
  c w = (Ok a, w') -> bind c k w = k a w'.
Proof. intros H. unfold bind. now rewrite H. Qed.

Lemma bind_raise {A B} (c : M A) (k : A -> M B) w e w' :
  c w = (Raise e, w') -> bind c k w = (Raise e, w').
Proof. intros H. unfold bind. now rewrite H. Qed.

Lemma bind_ret {A B} (a : A) (k : A -> M B) w : bind (ret a) k w = k a w.
Proof. reflexivity. Qed.

Lemma bind_out {B} lvl text args (k : unit -> M B) w :
  bind (out lvl text args) k w = k tt (add_trace [EvOut lvl text args] w).
Proof. reflexivity. Qed.

Lemma bind_print {B} text args (k : unit -> M B) w :
  bind (print text args) k w = k tt (add_trace [EvOut STDOUT text args] w).
Proof. reflexivity. Qed.

Lemma bind_logger_info {B} text args (k : unit -> M B) w :
  bind (logger_info text args) k w = k tt (add_trace [EvOut INFO text args] w).
Proof. reflexivity. Qed.

Lemma run_out lvl text args w :
  out lvl text args w = (Ok tt, add_trace [EvOut lvl text args] w).
Proof. reflexivity. Qed.

Lemma run_print text args w :
  print text args w = (Ok tt, add_trace [EvOut STDOUT text args] w).
Proof. reflexivity. Qed.

Lemma try_except_ok {A} (c : M A) handles h w a w' :
  c w = (Ok a, w') -> try_except c handles h w = (Ok a, w').
Proof. intros H. unfold try_except. now rewrite H. Qed.

Lemma try_except_caught {A} (c : M A) handles h w e w' :
  c w = (Raise e, w') -> handles e = true -> try_except c handles h w = h e w'.
Proof. intros H He. unfold try_except. now rewrite H, He. Qed.

(** ** [_check_command_queue_status] *)

(** [_check_command_queue_status] leaves the command queue of the device as
    it found it, for every state of the broker: the same messages in the
    same order of delivery.  On an open channel and an existing queue,
    no queue of the broker changes. *)
Theorem command_status_preserves_queue {J : JsonLib} imei w :
  let w' := snd (_check_command_queue_status imei w) in
  queues w' !! imei = queues w !! imei /\
  message_count_of imei w' = message_count_of imei w /\
  delivery_order imei w' = delivery_order imei w /\
  (chan_open w = true -> is_Some (queues w !! imei) -> queues w' = queues w).
Proof.
  intros w'. destruct (check_command_queue_status_run imei w) as (Hq & Hall & _).
  fold w' in Hq, Hall. unfold message_count_of, delivery_order. rewrite Hq. easy.
Qed.

(** ** The callback of [monitor_realtime] *)

Lemma basic_ack_ok tag w w' :
  basic_ack tag w = (Ok tt, w') ->
  exists d un', take_delivery tag (unacked w) = Some (d, un') /\
                queues w' = queues w /\ unacked w' = un'.
Proof.
  unfold basic_ack.
  destruct (chan_open (emit (EvAck tag) w)); [| discriminate].
  change (unacked (emit (EvAck tag) w)) with (unacked w).
  destruct (take_delivery tag (unacked w)) as [[d un'] |]; [| discriminate].
  intros H. inversion H; subst. now exists d, un'.
Qed.

(** Whenever the callback of [monitor_realtime] returns, the delivery has
    been acknowledged once and nothing was put back: the message has left
    the unacknowledged deliveries and no queue has changed, so that it is
    gone for good.  This holds with and without an IMEI filter, whether the
    message was shown or skipped. *)
Theorem monitor_callback_acknowledges {J : JsonLib} self show_json delivery_tag body w w' :
  message_callback self show_json delivery_tag body w = (Ok tt, w') ->
  run_tags w w' [] [] [delivery_tag] /\
  queues w' = queues w /\
  exists d un', take_delivery delivery_tag (unacked w) = Some (d, un') /\ unacked w' = un'.
Proof.
  intros Hrun. split; [exact (callback_acks_on_return _ _ _ _ _ _ Hrun) |].
  revert Hrun.
  assert (Hack : forall w0 w1,
            same_broker w0 w -> basic_ack delivery_tag w0 = (Ok tt, w1) ->
            queues w1 = queues w /\
            exists d un', take_delivery delivery_tag (unacked w) = Some (d, un') /\
                          unacked w1 = un').
  { intros w0 w1 (Hq & Hu & _) Ha.
    destruct (basic_ack_ok _ _ _ Ha) as (d & un' & Ht & Hq1 & Hu1).
    rewrite Hq1, <- Hu, Hq. eauto. }
  assert (Hshown : forall w0 w1,
            same_broker w0 w ->
            (logger_info "🎯 NEW MESSAGE DETECTED!" [] ;;;
             _display_message (AStr "REALTIME") body show_json ;;;
             basic_ack delivery_tag) w0 = (Ok tt, w1) ->
            queues w1 = queues w /\
            exists d un', take_delivery delivery_tag (unacked w) = Some (d, un') /\
                          unacked w1 = un').
  { intros w0 w1 Hs. unfold bind at 1, logger_info at 1, out at 1. unfold bind.
    pose proof (quiet_same_broker _ (emit (EvOut INFO "🎯 NEW MESSAGE DETECTED!" []) w0)
                  (quiet_display_message (AStr "REALTIME") body show_json)) as Hd.
    destruct (_display_message (AStr "REALTIME") body show_json _) as [[[] | e] w2];
      [| discriminate]. simpl in Hd.
    apply Hack. eapply same_broker_trans; [exact Hd |].
    eapply same_broker_trans; [apply (same_broker_add_trace [_]) | exact Hs]. }
  unfold message_callback. destruct (filtering self) as [target |].
  - unfold bind at 1, try_except. unfold bind at 1.
    pose proof (loads_body_pure body w) as Hl.
    destruct (loads_body body w) as [[data | e] w0]; simpl in Hl; subst w0.
    + unfold bind at 1, lift. destruct (py_get data "imei" (JStr "UNKNOWN")) as [imei | e].
      * destruct (json_ne_str imei target).
        -- unfold bind at 1.
           destruct (basic_ack delivery_tag w) as [[[] | e] w1] eqn:Ea.
           ++ unfold ret. intros H. inversion H; subst.
              exact (Hack _ _ (same_broker_refl w) Ea).
           ++ rewrite (basic_ack_raises _ _ _ _ Ea). discriminate.
        -- unfold ret at 1. apply Hshown, same_broker_refl.
      * destruct e; simpl; try discriminate.
        unfold bind at 1.
        destruct (basic_ack delivery_tag w) as [[[] | e] w1] eqn:Ea.
        ++ unfold ret. intros H. inversion H; subst.
           exact (Hack _ _ (same_broker_refl w) Ea).
        ++ discriminate.
    + destruct (is_JSONDecodeError e); [| discriminate].
      unfold bind at 1.
      destruct (basic_ack delivery_tag w) as [[[] | e'] w1] eqn:Ea.
      * unfold ret. intros H. inversion H; subst.
        exact (Hack _ _ (same_broker_refl w) Ea).
      * discriminate.
  - unfold bind at 1, ret at 1. apply Hshown, same_broker_refl.
Qed.

Lemma monitor_callback_acknowledges_witness :
  let w := snd (deliver data_queue (one_queue data_queue [not_json; telemetry_111] 0)) in
  exists w',
    @message_callback py_json filter_111 false 1 not_json w = (Ok tt, w') /\
    run_tags w w' [] [] [1] /\
    delivery_order data_queue w' = [telemetry_111] /\
    unacked w' = [].
Proof.
  intros w. eexists. split; [vm_compute; reflexivity |].
  match goal with
  | |- run_tags _ ?w1 _ _ _ /\ _ =>
      destruct (@monitor_callback_acknowledges py_json filter_111 false 1 not_json w w1)
        as (Ht & Hq & d & un' & Hd & Hu); [vm_compute; reflexivity |]
  end.
  split; [exact Ht |]. split; vm_compute; reflexivity.
Defined.

(** ** The command queue of a device *)

Section CommandQueue.

Context {J : JsonLib} {U : StrLib}.

Arguments repeat_str : simpl never.

Lemma declare_durable_missing imei w :
  chan_open w = true -> queues w !! imei = None ->
  queue_declare_durable imei w =
  (Ok (0, 0),
   set_broker (<[imei := {| q_ready := []; q_consumers := 0; q_durable := true |}]>
                 (queues w))
     (unacked w) (next_tag w) true (emit (EvDeclare imei false true) w)).
Proof.
  intros Ho Hq. unfold queue_declare_durable. cbn [emit add_trace chan_open queues].
  now rewrite Ho, Hq.
Qed.

Lemma declare_durable_closed imei w :
  chan_open w = false ->
  queue_declare_durable imei w =
  (Raise ChannelWrongStateError, emit (EvDeclare imei false true) w).
Proof.
  intros Hc. unfold queue_declare_durable. cbn [emit add_trace chan_open].
  now rewrite Hc.
Qed.

Lemma basic_publish_found name m q w :
  chan_open w = true -> queues w !! name = Some q ->
  basic_publish name m w =
  (Ok tt,
   set_broker (<[name := {| q_ready := q_ready q ++ [m]; q_consumers := q_consumers q;
                            q_durable := q_durable q |}]> (queues w))
     (unacked w) (next_tag w) true (emit (EvPublish name m) w)).
Proof.
  intros Ho Hq. unfold basic_publish. cbn [emit add_trace chan_open queues].
  now rewrite Ho, Hq.
Qed.

(** [send_command] once the command identifier and the time are known. *)
Lemma send_command_steps imei command command_id w :
  send_command imei command command_id w =
  let cid := match command_id with Some c => c | None => next_uuid w end in
  try_except
    (queue_declare_durable imei ;;;
     basic_publish imei (command_envelope cid command (clock w)) ;;;
     logger_info "✅ Command sent successfully!" [] ;;;
     logger_info "  IMEI: {imei}" [AStr imei] ;;;
     logger_info "  Command: {command}" [AStr command] ;;;
     logger_info "  Command ID: {command_id}" [AStr cid] ;;;
     queue_info <- queue_declare_passive imei ;;
     logger_info "  Queue status: {} messages in queue" [AInt (fst queue_info)] ;;;
     ret true)
    is_Exception
    (fun e => logger_error "Failed to send command: {e}" [AExn e] ;;; ret false) w.
Proof.
  unfold send_command, try_except. unfold bind at 1 2.
  destruct command_id; reflexivity.
Qed.

Lemma send_command_closed imei command command_id w :
  chan_open w = false ->
  send_command imei command command_id w =
  (Ok false,
   add_trace [EvDeclare imei false true;
              EvOut ERROR "Failed to send command: {e}" [AExn ChannelWrongStateError]] w).
Proof.
  intros Hc. rewrite send_command_steps. cbv zeta.
  unfold try_except. unfold bind at 1.
  rewrite (declare_durable_closed imei w Hc). cbv beta iota.
  cbn [is_Exception]. unfold bind, logger_error, out, ret, emit.
  now rewrite add_trace_app.
Qed.

Lemma send_command_fresh imei command command_id w :
  chan_open w = true -> queues w !! imei = None ->
  exists w', send_command imei command command_id w = (Ok true, w') /\
             message_count_of imei w' = 1.
Proof.
  intros Ho Hq. rewrite send_command_steps. cbv zeta.
  eexists. split.
  { apply try_except_ok.
    rewrite (bind_ok _ _ _ _ _ (declare_durable_missing imei w Ho Hq)).
    erewrite bind_ok;
      [| apply basic_publish_found;
         [reflexivity | cbn [queues set_broker]; apply lookup_insert_eq]].
    rewrite !bind_logger_info, !add_trace_app.
    erewrite bind_ok;
      [| apply declare_passive_found;
         [reflexivity
         | cbn [queues set_broker emit add_trace]; rewrite insert_insert_eq;
           apply lookup_insert_eq]].
    rewrite bind_logger_info. reflexivity. }
  unfold message_count_of. cbn [queues set_broker emit add_trace].
  rewrite insert_insert_eq, lookup_insert_eq. reflexivity.
Qed.

Lemma queue_purge_found name q w :
  chan_open w = true -> queues w !! name = Some q ->
  queue_purge name w =
  (Ok (fst (counts q)),
   set_broker (<[name := emptied q]> (queues w)) (unacked w) (next_tag w) true w).
Proof. intros Ho Hq. unfold queue_purge. now rewrite Ho, Hq. Qed.

(** The three operations of the commands menu that look at the queue of a
    device start with a passive declaration and do not restore the channel:
    on a queue that does not exist they log the error and leave the channel
    closed. *)
Lemma missing_queue_closes_channel imei w :
  chan_open w = true -> queues w !! imei = None ->
  forall op, In op [check_queue_status; list_queue_commands; purge_queue] ->
    exists text,
      op imei w =
      (Ok tt,
       add_trace [EvOut ERROR text [AExn (ChannelClosedByBroker 404)]]
         (close_channel (emit (EvDeclare imei true false) w))).
Proof.
  intros Ho Hq op [<- | [<- | [<- | []]]];
    [unfold check_queue_status | unfold list_queue_commands | unfold purge_queue];
    unfold try_except; unfold bind at 1;
    rewrite (declare_passive_missing imei w Ho Hq); simpl;
    unfold logger_error, out, emit; eexists; reflexivity.
Qed.

(** [check_queue_status], [list_queue_commands] and [purge_queue] on a queue
    that does not exist leave the channel closed (the broker closes it on
    the failed passive declaration), and none of them nor [send_command]
    calls [ensure_connection]: every [send_command] that follows fails
    without publishing, to whatever device, until [ensure_connection] has
    replaced the channel, after which the command is queued. *)
Theorem missing_queue_check_blocks_sender imei target command command_id w :
  chan_open w = true -> queues w !! imei = None ->
  forall op, In op [check_queue_status; list_queue_commands; purge_queue] ->
    let w1 := snd (op imei w) in
    fst (op imei w) = Ok tt /\
    chan_open w1 = false /\
    (exists w2 evs,
       send_command target command command_id w1 = (Ok false, w2) /\
       trace w2 = trace w1 ++ evs /\ existsb is_publish evs = false /\
       queues w2 = queues w1) /\
    (exists w3,
       (ensure_connection ;;; send_command imei command command_id) w1 = (Ok true, w3) /\
       message_count_of imei w3 = 1).
Proof.
  intros Ho Hq op Hop w1.
  destruct (missing_queue_closes_channel imei w Ho Hq op Hop) as [text Hrun].
  unfold w1. rewrite Hrun. cbn [fst snd]. split; [reflexivity |].
  set (wc := add_trace _ (close_channel _)).
  assert (Hc : chan_open wc = false) by reflexivity.
  split; [exact Hc |]. split.
  - rewrite (send_command_closed target command command_id wc Hc).
    eexists _, _. split; [reflexivity |]. split; [reflexivity |]. split; reflexivity.
  - unfold bind at 1, ensure_connection. rewrite Hc.
    apply send_command_fresh; [reflexivity |].
    cbn [queues set_broker emit add_trace wc close_channel].
    now apply requeue_unacked_lookup_none.
Qed.

(** [purge_queue] drops the messages of the queue only on an answer that
    is [yes] or [y] once the white space that [str.strip] removes around it
    is gone and its letters are lower-cased ([confirms]): the queue is then
    empty and 0 remaining commands are reported.
    On every other answer the queue is left as it is.  The deliveries that
    wait for an acknowledgment are never touched.  For a queue that is
    already empty nothing is asked. *)
Theorem purge_needs_confirmation imei q w :
  chan_open w = true -> queues w !! imei = Some q ->
  let w' := snd (purge_queue imei w) in
  fst (purge_queue imei w) = Ok tt /\
  unacked w' = unacked w /\ chan_open w' = true /\
  (q_ready q = [] -> queues w' = queues w /\ stdin w' = stdin w) /\
  (q_ready q <> [] -> stdin w = [] -> queues w' = queues w) /\
  (forall answer rest,
     q_ready q <> [] -> stdin w = answer :: rest ->
     stdin w' = rest /\
     if confirms answer
     then queues w' = <[imei := emptied q]> (queues w) /\
          message_count_of imei w' = 0 /\
          In (EvOut STDOUT "Remaining commands: {new_count}" [AInt 0]) (trace w')
     else queues w' = queues w /\
          In (EvOut STDOUT "❌ Queue purge cancelled" []) (trace w')).
Proof.
  intros Ho Hq w'. subst w'.
  destruct (purge_queue imei w) as [r wf] eqn:E. cbn [fst snd].
  unfold purge_queue, try_except in E. unfold bind at 1 in E.
  rewrite (declare_passive_found imei q w Ho Hq) in E. cbv beta iota in E.
  unfold counts in E. cbn [fst snd] in E.
  destruct (q_ready q) as [| m ms] eqn:Er.
  - cbn [List.length Z.of_nat Z.eqb] in E. unfold print, out in E.
    inversion E; subst. cbn [unacked chan_open queues stdin emit add_trace].
    repeat split; try reflexivity; try assumption; intros; congruence.
  - replace (Z.of_nat (List.length (m :: ms)) =? 0) with false in E
      by (symmetry; apply Z.eqb_neq; cbn [List.length]; lia).
    do 4 (unfold bind at 1, print at 1, out at 1 in E).
    unfold bind at 1, input in E.
    cbn [stdin emit add_trace] in E.
    destruct (stdin w) as [| answer rest] eqn:Es.
    + cbv beta iota in E. cbn [is_Exception] in E. unfold logger_error, out in E.
      inversion E; subst. cbn [unacked chan_open queues stdin emit add_trace].
      repeat split; try reflexivity; try assumption; intros; congruence.
    + cbv beta iota in E. fold (confirms answer) in E.
      match type of E with context [emit (EvInput answer) ?v] =>
        set (W := emit (EvInput answer) v) in E
      end.
      assert (HoW : chan_open W = true) by exact Ho.
      assert (HqW : queues W !! imei = Some q) by exact Hq.
      destruct (confirms answer) eqn:Ec.
      * unfold bind at 1 in E. unfold bind at 1 in E.
        rewrite (queue_purge_found imei q W HoW HqW) in E. cbv beta iota in E.
        unfold bind at 1, print at 1, out at 1 in E.
        unfold bind at 1 in E.
        erewrite declare_passive_found in E;
          [| reflexivity | cbn [queues set_broker emit add_trace]; apply lookup_insert_eq].
        cbv beta iota in E. unfold counts, emptied in E. cbn [fst q_ready List.length Z.of_nat] in E.
        unfold print, out in E. inversion E; subst.
        unfold message_count_of. cbn [unacked chan_open queues stdin trace set_broker emit add_trace W].
        split; [reflexivity |]. split; [reflexivity |]. split; [reflexivity |].
        split; [intros; congruence |]. split; [intros; congruence |].
        intros a r0 _ Har. inversion Har; subst. rewrite Ec.
        split; [reflexivity |]. rewrite lookup_insert_eq. cbn [q_ready emptied List.length Z.of_nat].
        split; [reflexivity |]. split; [reflexivity |].
        apply in_or_app. left. apply in_or_app. right. left. reflexivity.
      * unfold bind at 1, print at 1, out at 1 in E. unfold print, out in E.
        inversion E; subst.
        cbn [unacked chan_open queues stdin trace set_broker emit add_trace W].
        split; [reflexivity |]. split; [reflexivity |]. split; [exact Ho |].
        split; [intros; congruence |]. split; [intros; congruence |].
        intros a r0 _ Har. inversion Har; subst. rewrite Ec.
        split; [reflexivity |]. split; [reflexivity |].
        apply in_or_app. left. apply in_or_app. right. left. reflexivity.
Qed.

End CommandQueue.

Lemma missing_queue_check_blocks_sender_witness :
  let w1 := snd (@check_queue_status device_350 no_queue) in
  chan_open w1 = false /\
  (exists w2 evs,
     @send_command py_json "350317177240178" "getinfo" None w1 = (Ok false, w2) /\
     trace w2 = trace w1 ++ evs /\ existsb is_publish evs = false /\
     queues w2 = queues w1) /\
  (exists w3,
     (ensure_connection ;;; @send_command py_json device_350 "getinfo" None) w1
     = (Ok true, w3) /\
     message_count_of device_350 w3 = 1).
Proof.
  destruct (@missing_queue_check_blocks_sender py_json py_str device_350 "350317177240178"
              "getinfo" None no_queue eq_refl eq_refl check_queue_status)
    as (_ & Hc & Hs & Hr); [simpl; tauto |].
  intros w1. split; [exact Hc |]. split; [exact Hs | exact Hr].
Defined.

Lemma purge_needs_confirmation_witness :
  let w := answering [(" YES" ++ nbsp)%string; ("yes" ++ byte_str 31)%string]
             (one_queue device_350 [not_json; not_json] 0) in
  let w' := snd (@purge_queue py_str device_350 w) in
  stdin w' = [("yes" ++ byte_str 31)%string] /\ message_count_of device_350 w' = 0 /\
  In (EvOut STDOUT "Remaining commands: {new_count}" [AInt 0]) (trace w').
Proof.
  intros w w'.
  destruct (@purge_needs_confirmation py_str device_350
              {| q_ready := [plain not_json; plain not_json]; q_consumers := 0;
                 q_durable := true |} w eq_refl eq_refl)
    as (_ & _ & _ & _ & _ & H).
  destruct (H (" YES" ++ nbsp)%string [("yes" ++ byte_str 31)%string] ltac:(discriminate) eq_refl)
    as (Hs & _ & Hc & Hi).
  split; [exact Hs |]. split; [exact Hc | exact Hi].
Defined.

(** ** [list_queue_commands] on messages that can be shown *)

Lemma nack_each_same_broker msgs : forall w w',
  same_broker w w' ->
  fst (nack_each msgs w) = fst (nack_each msgs w') /\
  same_broker (snd (nack_each msgs w)) (snd (nack_each msgs w')).
Proof.
  induction msgs as [| [tag body] msgs IH]; intros w w' Hs; [easy |].
  simpl. unfold bind.
  destruct (basic_nack_same_broker tag w w' Hs) as [Hr Hw].
  destruct (basic_nack tag w) as [r1 w1], (basic_nack tag w') as [r2 w2].
  simpl in Hr, Hw. subst r2. destruct r1 as [[] | e]; [now apply IH | easy].
Qed.

(** After browsing, the negative acknowledgments of [list_queue_commands],
    latest delivery first, all succeed and give back the broker state from
    before the browsing. *)
Lemma browsed_nack_each name w0 tags w :
  browsed name w0 tags w ->
  forall msgs, List.map fst msgs = tags ->
    fst (nack_each (rev msgs) w) = Ok tt /\
    same_broker (snd (nack_each (rev msgs) w)) w0.
Proof.
  induction 1 as [| tags w evs _ IH _ | tags w tag body w' _ IH Hget | tags w w' _ IH Hget];
    intros msgs Hm.
  - destruct msgs; [| discriminate]. simpl. split; [easy | apply same_broker_refl].
  - destruct (nack_each_same_broker (rev msgs) (add_trace evs w) w
                (same_broker_add_trace evs w)) as [Hr Hw].
    destruct (IH msgs Hm) as [Hok Hsame].
    split; [congruence | eapply same_broker_trans; eassumption].
  - destruct (exists_last (l := msgs)) as (msgs' & [t b] & ->).
    { intros ->. now destruct tags. }
    rewrite map_app in Hm. simpl in Hm. apply app_inj_tail in Hm. destruct Hm as [Hm ->].
    rewrite rev_app_distr. simpl. unfold bind.
    destruct (nack_after_get _ _ _ _ _ Hget) as [Hok Hsame].
    destruct (basic_nack tag w') as [r w1]. simpl in Hok, Hsame. subst r.
    destruct (nack_each_same_broker (rev msgs') w1 w Hsame) as [Hr Hw].
    destruct (IH msgs' Hm) as [Hok' Hsame'].
    split; [congruence | eapply same_broker_trans; eassumption].
  - apply basic_get_none in Hget. subst w'.
    destruct (nack_each_same_broker (rev msgs) (emit (EvGet name None) w) w
                (same_broker_add_trace [_] w)) as [Hr Hw].
    destruct (IH msgs Hm) as [Hok Hsame].
    split; [congruence | eapply same_broker_trans; eassumption].
Qed.

Lemma nack_each_trace msgs : forall w,
  fst (nack_each msgs w) = Ok tt ->
  trace (snd (nack_each msgs w)) = trace w ++ List.map (fun m => EvNack (fst m)) msgs.
Proof.
  induction msgs as [| [tag body] msgs IH]; intros w; simpl.
  - now rewrite app_nil_r.
  - unfold bind. pose proof (basic_nack_trace tag w) as Ht.
    destruct (basic_nack tag w) as [[[] | e] w1]; [| discriminate].
    intros Hok. rewrite (IH w1 Hok). simpl in Ht. rewrite Ht. now rewrite <- app_assoc.
Qed.

Lemma basic_get_order name w :
  match basic_get name w with
  | (Ok (Some (tag, body)), w') =>
      delivery_order name w = body :: delivery_order name w' /\
      trace w' = trace w ++ [EvGet name (Some (tag, body))]
  | (Ok None, w') => delivery_order name w = [] /\ w' = emit (EvGet name None) w
  | (Raise _, _) => True
  end.
Proof.
  unfold basic_get, delivery_order.
  destruct (chan_open w); [| exact I].
  destruct (queues w !! name) as [q |] eqn:Eq; [| exact I].
  destruct (q_ready q) as [| m rest] eqn:Er.
  - cbn [queues emit add_trace]. rewrite ?Eq, ?Er. now split.
  - cbn [queues trace set_broker emit add_trace]. rewrite lookup_insert_eq.
    cbn [q_ready List.map]. rewrite ?Er. now split.
Qed.

Lemma showable_decodable {J : JsonLib} body : showable body -> decodable body.
Proof.
  intros [Hv [Hn | (d & Hd & _)]]; (split; [exact Hv |]); [now left | right; eauto].
Qed.

Section ListQueueCommands.

Context {J : JsonLib} {U : StrLib}.

Arguments repeat_str : simpl never.

Lemma fetch_commands_run imei w0 :
  chan_open w0 = true -> is_Some (queues w0 !! imei) ->
  forall n msgs w r w',
    browsed imei w0 (List.map fst msgs) w ->
    fetch_commands imei n msgs w = (r, w') ->
    exists new evs,
      r = Ok (msgs ++ new) /\
      browsed imei w0 (List.map fst (msgs ++ new)) w' /\
      delivery_order imei w = List.map snd new ++ delivery_order imei w' /\
      trace w' = trace w ++ evs /\ Forall is_get evs /\
      ((List.length (delivery_order imei w) <= n)%nat -> delivery_order imei w' = []).
Proof.
  intros Ho Hq. induction n as [| n IH]; intros msgs w r w' Hb Hf.
  - simpl in Hf. inversion Hf; subst. exists [], [].
    rewrite !app_nil_r. repeat split; auto.
    intros Hl. destruct (delivery_order imei w'); [reflexivity | simpl in Hl; lia].
  - simpl in Hf. unfold bind in Hf.
    pose proof (basic_get_order imei w) as Hg.
    destruct (basic_get imei w) as [[[[tag body] |] | e] w1] eqn:Eg.
    + destruct Hg as [Hd Ht].
      assert (Hb1 : browsed imei w0 (List.map fst (msgs ++ [(tag, body)])) w1).
      { rewrite map_app. simpl. eapply browsed_get; eassumption. }
      destruct (IH _ _ _ _ Hb1 Hf) as (new & evs & -> & Hb' & Hd' & Ht' & Hg' & Hn).
      exists ((tag, body) :: new), (EvGet imei (Some (tag, body)) :: evs).
      rewrite <- app_assoc in *. simpl in *.
      split; [reflexivity |]. split; [exact Hb' |].
      split; [rewrite Hd, Hd'; reflexivity |].
      split; [rewrite Ht', Ht, <- app_assoc; reflexivity |].
      split; [constructor; [exact I | exact Hg'] |].
      intros Hl. apply Hn. rewrite Hd in Hl. simpl in Hl. lia.
    + destruct Hg as [Hd ->]. unfold ret in Hf. inversion Hf; subst.
      exists [], [EvGet imei None]. rewrite !app_nil_r.
      split; [reflexivity |].
      split; [eapply browsed_empty; eassumption |].
      change (delivery_order imei (emit (EvGet imei None) w)) with (delivery_order imei w).
      split; [rewrite Hd; reflexivity |]. split; [reflexivity |].
      split; [repeat constructor |]. intros _. exact Hd.
    + exfalso. destruct (browsed_ready _ _ _ _ Hb Ho Hq) as [Ho' Hq'].
      exact (basic_get_ready _ _ Ho' Hq' _ _ Eg).
Qed.

Lemma show_command_run display_number body w :
  decodable body ->
  exists evs,
    show_command display_number body w = (Ok tt, add_trace evs w) /\
    Forall is_output evs /\ shown_numbers evs = [display_number].
Proof.
  intros [Hv [Hn | [d Hd]]]; unfold show_command, try_except; unfold bind at 1.
  - rewrite (loads_body_failure _ _ Hv Hn). simpl.
    unfold bind, print, out, emit. rewrite add_trace_app.
    eexists. split; [reflexivity |]. split; [repeat constructor | reflexivity].
  - rewrite (loads_body_success _ _ _ Hv Hd). simpl.
    unfold bind, lift, print, out, emit. simpl. rewrite !add_trace_app.
    eexists. split; [reflexivity |]. split; [repeat constructor | reflexivity].
Qed.

Lemma shown_numbers_app e1 e2 :
  shown_numbers (e1 ++ e2) = shown_numbers e1 ++ shown_numbers e2.
Proof.
  induction e1 as [| e e1 IH]; [reflexivity |].
  simpl. rewrite IH. now destruct (shown_number e).
Qed.

Lemma show_commands_run start_index : forall messages_to_show idx w,
  Forall (fun m => decodable (snd m)) messages_to_show ->
  exists evs,
    show_commands start_index idx messages_to_show w = (Ok tt, add_trace evs w) /\
    Forall is_output evs /\
    shown_numbers evs = numbers_from (start_index + idx) (List.length messages_to_show).
Proof.
  induction messages_to_show as [| [tag body] rest IH]; intros idx w Hd.
  - exists []. rewrite add_trace_nil. repeat split; constructor.
  - inversion Hd as [| ? ? Hb Hrest]; subst. simpl in Hb. simpl. unfold bind.
    destruct (show_command_run (start_index + idx) body w Hb) as (e1 & -> & Ho1 & Hn1).
    destruct (IH (idx + 1) (add_trace e1 w) Hrest) as (e2 & -> & Ho2 & Hn2).
    exists (e1 ++ e2). rewrite add_trace_app. split; [reflexivity |].
    split; [now apply Forall_app |].
    rewrite shown_numbers_app, Hn1, Hn2. unfold numbers_from. simpl.
    rewrite Z.add_0_r. f_equal. rewrite <- seq_shift, List.map_map.
    apply map_ext. intros i. lia.
Qed.

Lemma gets_no_numbers evs : Forall is_get evs -> shown_numbers evs = [].
Proof.
  induction 1 as [| e evs He _ IH]; [reflexivity |].
  cbn [shown_numbers]. rewrite IH. now destruct e.
Qed.

Lemma nacks_tags (tags : list Z) :
  fetched (List.map EvNack tags) = [] /\ nacked (List.map EvNack tags) = tags /\
  acked (List.map EvNack tags) = [] /\ shown_numbers (List.map EvNack tags) = [].
Proof.
  induction tags as [| t tags (Hf & Hn & Ha & Hs)]; [easy |].
  simpl. rewrite Hf, Hn, Ha. repeat split. exact Hs.
Qed.

Lemma length_last_n {A} (n : nat) (l : list A) : List.length (last_n n l) = Nat.min n (List.length l).
Proof. unfold last_n. rewrite length_skipn. lia. Qed.

(** [list_queue_commands] on a queue whose messages can all be decoded. *)
Lemma list_queue_commands_decodable imei q w :
  chan_open w = true -> queues w !! imei = Some q ->
  Forall (fun m => decodable (msg_body m)) (q_ready q) ->
  let count := List.length (q_ready q) in
  exists w' tags evs,
    list_queue_commands imei w = (Ok tt, w') /\
    same_broker w' w /\
    trace w' = trace w ++ evs /\
    fetched evs = tags /\ nacked evs = rev tags /\ acked evs = [] /\
    List.length tags = count /\
    shown_numbers evs =
      numbers_from (Z.of_nat count - Z.of_nat (Nat.min 10 count) + 1) (Nat.min 10 count).
Proof.
  intros Ho Hq Hdec count.
  unfold list_queue_commands, try_except. unfold bind at 1.
  rewrite (declare_passive_found imei q w Ho Hq). cbv beta iota.
  unfold counts. cbn [fst snd]. fold count.
  destruct (Z.eqb_spec (Z.of_nat count) 0) as [Hz | Hnz].
  - assert (Hc : count = 0%nat) by lia. rewrite Hc.
    unfold print, out, emit. rewrite add_trace_app.
    eexists _, [], _. split; [reflexivity |]. split; [apply same_broker_add_trace |].
    split; [reflexivity |]. repeat split.
  - set (show_all := Z.of_nat count <=? 10).
    set (banner :=
           (if show_all then
              print "📋 ALL COMMANDS IN QUEUE FOR IMEI: {imei}" [AStr imei] ;;;
              print "Total commands: {message_count}" [AInt (Z.of_nat count)]
            else
              print "📋 LAST {show_limit} COMMANDS IN QUEUE FOR IMEI: {imei}"
                [AInt 10; AStr imei] ;;;
              print "Total commands: {message_count} (showing last {show_limit} only)"
                [AInt (Z.of_nat count); AInt 10] ;;;
              print "💡 Use 'Purge Queue' option to clear old commands if needed" [])).
    assert (Hbanner : forall v, exists evs,
               banner v = (Ok tt, add_trace evs v) /\ Forall is_output evs /\
               shown_numbers evs = []).
    { intros v. unfold banner. destruct show_all; unfold bind, print, out, emit;
        rewrite ?add_trace_app; eexists; (split; [reflexivity |]);
        (split; [repeat constructor | reflexivity]). }
    unfold bind at 1, print at 1, out at 1.
    unfold bind at 1.
    destruct (Hbanner (emit (EvOut STDOUT (repeat_str "=" 60) [])
                         (emit (EvDeclare imei true false) w))) as (bev & -> & Hbo & Hbn).
    unfold bind at 1, print at 1, out at 1. unfold emit. rewrite !add_trace_app.
    set (w2 := add_trace _ w).
    assert (Ho2 : chan_open w2 = true) by exact Ho.
    assert (Hq2 : is_Some (queues w2 !! imei)) by (change (queues w2) with (queues w); eauto).
    unfold bind at 1.
    destruct (fetch_commands imei (Z.to_nat (Z.of_nat count)) [] w2) as [r w3] eqn:Ef.
    destruct (fetch_commands_run imei w2 Ho2 Hq2 _ [] w2 r w3 (browsed_start _ _) Ef)
      as (messages & gev & -> & Hb & Hd & Ht3 & Hg & Hn).
    simpl app in *.
    assert (Hbodies : List.map snd messages = List.map msg_body (q_ready q)).
    { rewrite Hn in Hd.
      - rewrite app_nil_r in Hd. rewrite <- Hd. unfold delivery_order.
        change (queues w2) with (queues w). now rewrite Hq.
      - unfold delivery_order. change (queues w2) with (queues w). rewrite Hq.
        rewrite length_map. fold count. lia. }
    assert (Hlen : List.length messages = count).
    { unfold count. rewrite <- (length_map msg_body), <- Hbodies. now rewrite length_map. }
    assert (Hmd : Forall (fun m => decodable (snd m)) messages).
    { apply List.Forall_forall. intros m Hin.
      assert (Hi : In (snd m) (List.map msg_body (q_ready q)))
        by (rewrite <- Hbodies; now apply in_map).
      apply in_map_iff in Hi. destruct Hi as (m' & <- & Hin').
      rewrite List.Forall_forall in Hdec. now apply Hdec. }
    set (messages_to_show := if show_all then messages else last_n (Z.to_nat 10) messages).
    assert (Hsd : Forall (fun m => decodable (snd m)) messages_to_show).
    { unfold messages_to_show. destruct show_all; [exact Hmd |].
      unfold last_n. now apply Forall_drop. }
    unfold bind at 1.
    destruct (show_commands_run
                (if show_all then 1
                 else Z.of_nat count - Z.of_nat (List.length messages_to_show) + 1)
                messages_to_show 0 w3 Hsd) as (sev & -> & Hso & Hsn).
    unfold bind at 1.
    assert (Hb4 : browsed imei w2 (List.map fst messages) (add_trace sev w3))
      by (now apply browsed_output).
    destruct (browsed_nack_each _ _ _ _ Hb4 messages eq_refl) as [Hok Hsame].
    pose proof (nack_each_trace (rev messages) (add_trace sev w3) Hok) as Htn.
    destruct (nack_each (rev messages) (add_trace sev w3)) as [rn w5].
    simpl in Hok, Hsame, Htn. subst rn.
    unfold print, out.
    destruct (browsed_trace _ _ _ _ Hb) as (gev' & Ht3' & Hgf & Hgn & Hga).
    assert (gev' = gev) by (rewrite Ht3 in Ht3'; now apply app_inv_head in Ht3').
    subst gev'.
    destruct (nacks_tags (List.map fst (rev messages))) as (Hnf & Hnn & Hna & Hns).
    rewrite <- List.map_map in Htn.
    destruct (output_no_tags _ Hbo) as (Hbf & Hbnk & Hba).
    destruct (output_no_tags _ Hso) as (Hsf & Hsnk & Hsa).
    eexists _, (List.map fst messages), _.
    split; [reflexivity |].
    split; [eapply same_broker_trans;
            [apply (same_broker_add_trace [_]) |
             eapply same_broker_trans; [exact Hsame | apply same_broker_add_trace]] |].
    split.
    { cbn [emit add_trace trace]. rewrite Htn. cbn [add_trace trace]. rewrite Ht3.
      unfold w2. cbn [add_trace trace]. rewrite <- !app_assoc. reflexivity. }
    match goal with |- context [(?a :: ?b :: bev ++ [?c]) ++ _] =>
      change (a :: b :: bev ++ [c]) with ([a; b] ++ bev ++ [c])
    end.
    rewrite !fetched_app, !nacked_app, !acked_app, !shown_numbers_app.
    rewrite Hbf, Hbnk, Hba, Hbn, Hgf, Hgn, Hga, (gets_no_numbers _ Hg),
      Hsf, Hsnk, Hsa, Hsn, Hnf, Hnn, Hna, Hns.
    cbn [fetched nacked acked shown_numbers shown_number app].
    rewrite ?app_nil_r, map_rev.
    split; [reflexivity |]. split; [reflexivity |]. split; [reflexivity |].
    split; [now rewrite length_map |].
    unfold messages_to_show, show_all.
    destruct (Z.leb_spec (Z.of_nat count) 10) as [Hle | Hgt].
    + rewrite Hlen. replace (Nat.min 10 count) with count by lia.
      f_equal. lia.
    + rewrite length_last_n, Hlen.
      replace (Nat.min (Z.to_nat 10) count) with 10%nat by lia.
      replace (Nat.min 10 count) with 10%nat by lia.
      f_equal. lia.
Qed.

(** [list_queue_commands] on a queue whose messages can all be shown (each
    is UTF-8 text that is not JSON, or a JSON object whose string fields
    hold no lone surrogate, which [print] could not write): every message
    of the queue is fetched and negatively acknowledged, latest delivery
    first, and the broker is left as it was, with the same messages in the
    same order.  All the entries are shown when there are at most ten, else
    the last ten, each under its position in the queue. *)
Theorem list_queue_commands_restores imei q w :
  chan_open w = true -> queues w !! imei = Some q ->
  utf8_valid imei = true ->
  Forall (fun m => showable (msg_body m)) (q_ready q) ->
  let count := List.length (q_ready q) in
  exists w' tags evs,
    list_queue_commands imei w = (Ok tt, w') /\
    same_broker w' w /\
    trace w' = trace w ++ evs /\
    fetched evs = tags /\ nacked evs = rev tags /\ acked evs = [] /\
    List.length tags = count /\
    shown_numbers evs =
      numbers_from (Z.of_nat count - Z.of_nat (Nat.min 10 count) + 1) (Nat.min 10 count).
Proof.
  intros Ho Hq _ Hshow.
  apply list_queue_commands_decodable; [exact Ho | exact Hq |].
  eapply Forall_impl; [exact Hshow |]. intros m. apply showable_decodable.
Qed.

End ListQueueCommands.

Lemma list_queue_commands_restores_witness :
  let w := one_queue device_350 [not_json; telemetry_111] 0 in
  exists w',
    @list_queue_commands py_json device_350 w = (Ok tt, w') /\
    same_broker w' w /\
    fetched (trace w') = [1; 2] /\ nacked (trace w') = [2; 1] /\
    shown_numbers (trace w') = [1; 2].
Proof.
  intros w.
  destruct (@list_queue_commands_restores py_json device_350
              {| q_ready := [plain not_json; plain telemetry_111]; q_consumers := 0;
                 q_durable := true |} w eq_refl eq_refl eq_refl)
    as (w' & tags & evs & Hrun & Hsame & _).
  - apply List.Forall_cons; [| apply List.Forall_cons; [| apply List.Forall_nil]].
    + split; [vm_compute; reflexivity | left; vm_compute; reflexivity].
    + split; [vm_compute; reflexivity |].
      right. eexists. split; [vm_compute; reflexivity | repeat constructor].
  - exists w'. split; [exact Hrun |]. split; [exact Hsame |].
    assert (Hw : w' = snd (@list_queue_commands py_json device_350 w))
      by (rewrite Hrun; reflexivity).
    rewrite Hw. vm_compute. repeat split.
Defined.

(** ** [inspect_queue_by_name] on a queue whose first message can be shown *)

Lemma fetched_bodies_app e1 e2 :
  fetched_bodies (e1 ++ e2) = fetched_bodies e1 ++ fetched_bodies e2.
Proof.
  induction e1 as [| e e1 IH]; [reflexivity |].
  cbn [app fetched_bodies]. rewrite IH. now destruct e as [| ? [[? ?] |] | | | | | | |].
Qed.

Lemma output_no_bodies evs : Forall is_output evs -> fetched_bodies evs = [].
Proof.
  induction 1 as [| e evs He _ IH]; [reflexivity |].
  cbn [fetched_bodies]. rewrite IH. now destruct e.
Qed.

Section InspectSamples.

Context {J : JsonLib} {U : StrLib}.

Arguments repeat_str : simpl never.

Lemma show_field_run k text d w :
  exists evs, show_field k text (JObj d) w = (Ok tt, add_trace evs w) /\ Forall is_output evs.
Proof.
  unfold show_field, bind, lift, py_in, py_get.
  destruct (dict_lookup k d).
  - unfold print, out, emit. eexists. split; [reflexivity | repeat constructor].
  - exists []. rewrite add_trace_nil. split; [reflexivity | constructor].
Qed.

Lemma show_sample_run i body w :
  decodable body ->
  exists evs, show_sample i body w = (Ok tt, add_trace evs w) /\ Forall is_output evs.
Proof.
  intros [Hv [Hn | [d Hd]]]; unfold show_sample, try_except; unfold bind at 1.
  - rewrite (loads_body_failure _ _ Hv Hn). cbv beta iota. cbn [is_JSONDecodeError].
    unfold bind, print, out, emit. rewrite add_trace_app.
    eexists. split; [reflexivity | repeat constructor].
  - rewrite (loads_body_success _ _ _ Hv Hd). cbv beta iota.
    unfold bind at 1, lift at 1, py_get at 1. cbv beta iota.
    unfold bind at 1, print at 1, out at 1. cbv beta iota.
    unfold bind at 1.
    destruct (show_field_run "imei" "   IMEI: {}" d
                (emit (EvOut STDOUT "{i+1}. Type: {}"
                         [AInt (i + 1);
                          AJson match dict_lookup "type" d with
                                | Some v => v
                                | None => JStr "Unknown"
                                end]) w)) as (e1 & -> & H1).
    cbv beta iota. unfold bind at 1.
    destruct (show_field_run "command" "   Command: {}" d (add_trace e1
                (emit (EvOut STDOUT "{i+1}. Type: {}"
                         [AInt (i + 1);
                          AJson match dict_lookup "type" d with
                                | Some v => v
                                | None => JStr "Unknown"
                                end]) w))) as (e2 & -> & H2).
    cbv beta iota. unfold bind at 1.
    match goal with |- context [show_field "timestamp" ?t (JObj d) ?v] =>
      destruct (show_field_run "timestamp" t d v) as (e3 & -> & H3)
    end.
    cbv beta iota. unfold print, out, emit. rewrite !add_trace_app.
    eexists. split; [reflexivity |].
    repeat (apply Forall_app; split); try assumption; repeat constructor.
Qed.

Lemma basic_get_head name q m rest w :
  chan_open w = true -> queues w !! name = Some q -> q_ready q = m :: rest ->
  exists w1,
    basic_get name w = (Ok (Some (next_tag w, msg_body m)), w1) /\
    trace w1 = trace w ++ [EvGet name (Some (next_tag w, msg_body m))].
Proof.
  intros Ho Hq Hr. unfold basic_get. rewrite Ho, Hq, Hr.
  eexists. split; reflexivity.
Qed.

(** Every round of the sampling loop fetches the message at the head of the
    queue and puts it back there before the next round. *)
Lemma samples_loop_run queue_name q m rest :
  q_ready q = m :: rest -> decodable (msg_body m) ->
  forall n i w,
    chan_open w = true -> queues w !! queue_name = Some q ->
    exists w' evs,
      samples_loop queue_name n i w = (Ok tt, w') /\
      same_broker w' w /\
      trace w' = trace w ++ evs /\
      fetched_bodies evs = repeat (msg_body m) n /\
      nacked evs = fetched evs /\ acked evs = [].
Proof.
  intros Hr Hd. induction n as [| n IH]; intros i w Ho Hq.
  - exists w, []. rewrite app_nil_r. repeat split; apply same_broker_refl.
  - cbn [samples_loop]. unfold bind at 1.
    destruct (basic_get_head queue_name q m rest w Ho Hq Hr) as (w1 & Hg & Ht1).
    rewrite Hg. cbv beta iota. unfold bind at 1.
    destruct (show_sample_run i (msg_body m) w1 Hd) as (sev & -> & Hso).
    cbv beta iota. unfold bind at 1, print at 1, out at 1. cbv beta iota.
    unfold emit. rewrite add_trace_app. unfold bind at 1.
    set (pev := sev ++ [EvOut STDOUT (repeat_str "-" 30) []]).
    assert (Hpo : Forall is_output pev) by (apply Forall_app; split; [exact Hso | repeat constructor]).
    destruct (nack_after_get _ _ _ _ _ Hg) as [Hok Hsame].
    destruct (basic_nack_same_broker (next_tag w) (add_trace pev w1) w1
                (same_broker_add_trace pev w1)) as [Hr2 Hs2].
    pose proof (basic_nack_trace (next_tag w) (add_trace pev w1)) as Htn.
    destruct (basic_nack (next_tag w) (add_trace pev w1)) as [rn w2].
    cbn [fst snd] in *. rewrite Hok in Hr2. subst rn. cbv beta iota.
    assert (Hsw : same_broker w2 w) by (eapply same_broker_trans; eassumption).
    destruct Hsw as (Hq2 & Hu2 & Ho2).
    destruct (IH (i + 1) w2) as (w' & evs & -> & Hs' & Ht' & Hb' & Hn' & Ha').
    { congruence. }
    { now rewrite Hq2. }
    exists w', ([EvGet queue_name (Some (next_tag w, msg_body m))] ++ pev ++
                [EvNack (next_tag w)] ++ evs).
    split; [reflexivity |].
    split; [eapply same_broker_trans; [exact Hs' | repeat split; assumption] |].
    split.
    { rewrite Ht', Htn. cbn [add_trace trace]. rewrite Ht1, <- !app_assoc. reflexivity. }
    destruct (output_no_tags _ Hpo) as (Hpf & Hpn & Hpa).
    rewrite !fetched_bodies_app, !nacked_app, !fetched_app, !acked_app,
      (output_no_bodies _ Hpo), Hpf, Hpn, Hpa, Hb', Hn', Ha'.
    repeat split.
Qed.

(** [inspect_queue_by_name] on a queue whose first message can be decoded. *)
Lemma inspect_queue_by_name_decodable queue_name q m rest w :
  chan_open w = true -> queues w !! queue_name = Some q ->
  q_ready q = m :: rest -> decodable (msg_body m) ->
  exists w' evs,
    inspect_queue_by_name queue_name w = (Ok true, w') /\
    same_broker w' w /\
    trace w' = trace w ++ evs /\
    fetched_bodies evs = repeat (msg_body m) (Nat.min 3 (List.length (q_ready q))) /\
    nacked evs = fetched evs /\ acked evs = [].
Proof.
  intros Ho Hq Hr Hd.
  set (mc := Z.of_nat (List.length (q_ready q))).
  assert (Hmc : (0 <? mc) = true)
    by (apply Z.ltb_lt; unfold mc; rewrite Hr; cbn [List.length]; lia).
  assert (He : ensure_connection w = (Ok tt, w))
    by (unfold ensure_connection; now rewrite Ho).
  set (w1 := add_trace
               [EvOut STDOUT (repeat_str "=" 60) [];
                EvOut STDOUT "🔍 INSPECTING QUEUE: {queue_name}" [AStr queue_name];
                EvOut STDOUT (repeat_str "=" 60) []] w).
  assert (Hst : exists e,
             (if 0 <? q_consumers q
              then print "Status: 🟢 ACTIVE (has consumers)" []
              else print "Status: 🔴 INACTIVE (no consumers)" []) =
             print e [])
    by (destruct (0 <? q_consumers q); eexists; reflexivity).
  destruct Hst as [status_text Hst].
  set (w2 := add_trace
               [EvDeclare queue_name true false;
                EvOut STDOUT "Queue Name: {queue_name}" [AStr queue_name];
                EvOut STDOUT "Messages in Queue: {message_count:,}" [AInt mc];
                EvOut STDOUT "Active Consumers: {consumer_count}" [AInt (q_consumers q)];
                EvOut STDOUT status_text [];
                EvOut STDOUT "Backlog: ⚠️  {message_count:,} messages waiting" [AInt mc];
                EvOut STDOUT "📋 SAMPLE MESSAGES (first 3):" [];
                EvOut STDOUT (repeat_str "-" 40) []] w1).
  destruct (samples_loop_run queue_name q m rest Hr Hd (Z.to_nat (Z.min 3 mc)) 0 w2 Ho Hq)
    as (w3 & lev & Hloop & Hs3 & Ht3 & Hb3 & Hn3 & Ha3).
  assert (Hmore : exists mev,
             when (3 <? mc)
               (print "... and {message_count - 3} more messages" [AInt (mc - 3)]) w3 =
             (Ok tt, add_trace mev w3) /\ Forall is_output mev).
  { unfold when. destruct (3 <? mc).
    - eexists. split; [apply run_print | repeat constructor].
    - exists []. rewrite add_trace_nil. split; [reflexivity | constructor]. }
  destruct Hmore as (mev & Hmore & Hmo).
  exists (add_trace [EvOut STDOUT (repeat_str "=" 60) []] (add_trace mev w3)).
  exists ([EvOut STDOUT (repeat_str "=" 60) [];
           EvOut STDOUT "🔍 INSPECTING QUEUE: {queue_name}" [AStr queue_name];
           EvOut STDOUT (repeat_str "=" 60) []] ++
          [EvDeclare queue_name true false;
           EvOut STDOUT "Queue Name: {queue_name}" [AStr queue_name];
           EvOut STDOUT "Messages in Queue: {message_count:,}" [AInt mc];
           EvOut STDOUT "Active Consumers: {consumer_count}" [AInt (q_consumers q)];
           EvOut STDOUT status_text [];
           EvOut STDOUT "Backlog: ⚠️  {message_count:,} messages waiting" [AInt mc];
           EvOut STDOUT "📋 SAMPLE MESSAGES (first 3):" [];
           EvOut STDOUT (repeat_str "-" 40) []] ++
          lev ++ mev ++ [EvOut STDOUT (repeat_str "=" 60) []]).
  split.
  { unfold inspect_queue_by_name. apply try_except_ok.
    rewrite (bind_ok _ _ _ _ _ He). rewrite !bind_print, !add_trace_app. cbn [app].
    fold w1.
    eapply eq_trans.
    { apply bind_ok, try_except_ok.
      rewrite (bind_ok _ _ _ _ _ (declare_passive_found queue_name q w1 Ho Hq)).
      unfold counts. cbn [fst snd]. fold mc. rewrite Hmc, Hst.
      rewrite !bind_print, !add_trace_app. cbn [app].
      erewrite bind_ok; [reflexivity |].
      cbv iota. rewrite !bind_print. unfold emit. rewrite !add_trace_app. cbn [app].
      fold w2. rewrite (bind_ok _ _ _ _ _ Hloop). exact Hmore. }
    cbv iota. rewrite bind_print, add_trace_app. reflexivity. }
  split.
  { eapply same_broker_trans; [apply same_broker_add_trace |].
    eapply same_broker_trans; [apply same_broker_add_trace |].
    eapply same_broker_trans; [exact Hs3 |].
    eapply same_broker_trans; apply same_broker_add_trace. }
  split.
  { cbn [add_trace trace]. rewrite Ht3. unfold w2, w1. cbn [add_trace trace].
    rewrite <- !app_assoc. reflexivity. }
  assert (Hn : Z.to_nat (Z.min 3 mc) = Nat.min 3 (List.length (q_ready q)))
    by (unfold mc; lia).
  rewrite Hn in Hb3.
  destruct (output_no_tags _ Hmo) as (Hff & Hfn & Hfa).
  rewrite !fetched_bodies_app, !nacked_app, !fetched_app, !acked_app,
    (output_no_bodies _ Hmo), Hff, Hfn, Hfa, Hb3, Hn3, Ha3.
  cbn [fetched_bodies nacked fetched acked app].
  rewrite !app_nil_r. repeat split.
Qed.

(** [inspect_queue_by_name] on an existing queue whose first message can be
    shown (UTF-8 text that is not JSON, or a JSON object whose string
    fields hold no lone surrogate) returns [True] and leaves the broker as
    it was.  Its samples are not the first three messages: every message is
    put back at the head of the queue right after it has been shown, so
    that the next round fetches the same message, and the first message is
    sampled up to three times. *)
Theorem inspect_queue_samples_head queue_name q m rest w :
  chan_open w = true -> queues w !! queue_name = Some q ->
  utf8_valid queue_name = true ->
  q_ready q = m :: rest -> showable (msg_body m) ->
  exists w' evs,
    inspect_queue_by_name queue_name w = (Ok true, w') /\
    same_broker w' w /\
    trace w' = trace w ++ evs /\
    fetched_bodies evs = repeat (msg_body m) (Nat.min 3 (List.length (q_ready q))) /\
    nacked evs = fetched evs /\ acked evs = [].
Proof.
  intros Ho Hq _ Hr Hshow.
  apply inspect_queue_by_name_decodable with (rest := rest);
    [exact Ho | exact Hq | exact Hr | now apply showable_decodable].
Qed.

End InspectSamples.

Lemma inspect_queue_samples_head_witness :
  let w := one_queue device_350 [telemetry_111; not_json; heartbeat] 0 in
  exists w',
    @inspect_queue_by_name py_json device_350 w = (Ok true, w') /\
    same_broker w' w /\
    fetched_bodies (trace w') = [telemetry_111; telemetry_111; telemetry_111].
Proof.
  intros w.
  destruct (@inspect_queue_samples_head py_json device_350
              {| q_ready := [plain telemetry_111; plain not_json; plain heartbeat];
                 q_consumers := 0; q_durable := true |}
              (plain telemetry_111) [plain not_json; plain heartbeat] w
              eq_refl eq_refl eq_refl eq_refl)
    as (w' & evs & Hrun & Hsame & Ht & Hb & _).
  - split; [vm_compute; reflexivity |].
    right. eexists. split; [vm_compute; reflexivity | repeat constructor].
  - exists w'. split; [exact Hrun |]. split; [exact Hsame |].
    rewrite Ht. exact Hb.
Defined.

(** ** Discovery through the management endpoint and the queue table *)

Lemma append_descriptors_all ds : forall queues_found,
  append_descriptors (List.map ItemQueue ds) queues_found =
  (Ok tt, queues_found ++ List.map snapshot_of_descriptor ds).
Proof.
  induction ds as [| d ds IH]; intros queues_found; cbn [List.map append_descriptors].
  - now rewrite app_nil_r.
  - rewrite IH, <- app_assoc. reflexivity.
Qed.

Lemma management_listing_run ds w :
  mgmt w = MgmtResponse 200 (Some (List.map ItemQueue ds)) ->
  _discover_queues_smart w =
  (Ok (List.map snapshot_of_descriptor ds),
   add_trace [EvHttpGet;
              EvOut INFO "✅ Management API available - found {} queues"
                [AInt (Z.of_nat (List.length ds))]] w).
Proof.
  intros Hm.
  unfold _discover_queues_smart, management_query, requests_get.
  cbn [mgmt emit add_trace]. rewrite Hm. cbn [Z.eqb Pos.eqb].
  rewrite append_descriptors_all, length_map. cbn [app].
  unfold emit. now rewrite add_trace_app.
Qed.

(** When the management endpoint answers 200 with a list of queue objects,
    [_discover_queues_smart] returns one snapshot for each listed queue, in
    the order of the listing, a missing field being replaced by its default
    ([Unknown], 0, 0, [False], [False]).  Nothing is declared on the
    channel and no warning is logged: the broker is left untouched. *)
Theorem discovery_uses_management_listing ds w :
  mgmt w = MgmtResponse 200 (Some (List.map ItemQueue ds)) ->
  _discover_queues_smart w =
  (Ok (List.map snapshot_of_descriptor ds),
   add_trace [EvHttpGet;
              EvOut INFO "✅ Management API available - found {} queues"
                [AInt (Z.of_nat (List.length ds))]] w) /\
  snapshot_of_descriptor
    {| d_name := None; d_messages := None; d_consumers := None;
       d_durable := None; d_auto_delete := None |} =
  {| name := "Unknown"; messages := 0; consumers := 0;
     durable := false; auto_delete := false |}.
Proof.
  intros Hm. split; [now apply management_listing_run | reflexivity].
Qed.

Lemma discovery_uses_management_listing_witness :
  exists w',
    _discover_queues_smart managed_world =
    (Ok (three_queues ++
         [{| name := data_queue; messages := 9; consumers := 2;
             durable := true; auto_delete := false |}]), w') /\
    queues w' = queues managed_world /\ chan_open w' = chan_open managed_world.
Proof.
  eexists. split.
  - etransitivity;
      [apply (discovery_uses_management_listing
                (List.map (fun s => {| d_name := Some (name s);
                                       d_messages := Some (messages s);
                                       d_consumers := Some (consumers s);
                                       d_durable := Some (durable s);
                                       d_auto_delete := Some (auto_delete s) |})
                   (three_queues ++
                    [{| name := data_queue; messages := 9; consumers := 2;
                        durable := true; auto_delete := false |}])));
       reflexivity
      | reflexivity].
  - split; reflexivity.
Defined.

Section DescendingSort.

Context {A : Type} (lt : A -> A -> bool).

Hypothesis lt_asym : forall x y, lt x y = true -> lt y x = false.
Hypothesis lt_negtrans : forall x y z, lt x y = false -> lt y z = false -> lt x z = false.

Lemma insert_desc_descending x l :
  StronglySorted (fun a b => lt a b = false) l ->
  StronglySorted (fun a b => lt a b = false) (insert_desc lt x l).
Proof.
  induction l as [| y l IH]; intros Hs; cbn [insert_desc].
  - repeat constructor.
  - apply StronglySorted_inv in Hs. destruct Hs as [Hl Hy].
    destruct (lt x y) eqn:Hxy.
    + constructor; [now apply IH |].
      eapply Permutation_Forall; [symmetry; apply insert_desc_perm |].
      constructor; [now apply lt_asym | exact Hy].
    + constructor; [now constructor |].
      constructor; [exact Hxy |].
      eapply Forall_impl; [exact Hy |]. intros z Hz. cbv beta in *.
      now apply (lt_negtrans x y z).
Qed.

Lemma sort_reverse_descending l :
  StronglySorted (fun a b => lt a b = false) (sort_reverse lt l).
Proof.
  induction l as [| x l IH]; cbn [sort_reverse fold_right]; [constructor |].
  now apply insert_desc_descending.
Qed.

End DescendingSort.

Lemma activity_lt_spec x y : activity_lt x y = true <-> activity_below x y.
Proof.
  unfold activity_lt, activity_below, bool_lt.
  destruct (Z.ltb_spec 0 (consumers x)), (Z.ltb_spec 0 (consumers y)),
    (Z.ltb_spec 0 (messages x)), (Z.ltb_spec 0 (messages y)),
    (Z.ltb_spec (messages x) (messages y)), (Z.eqb_spec (messages x) (messages y)),
    (Z.ltb_spec (consumers x) (consumers y));
    cbn [negb andb orb Bool.eqb]; split; intros Hb; try discriminate; try reflexivity;
    try lia; exfalso; lia.
Qed.

Lemma activity_lt_false x y : activity_lt x y = false <-> activity_ge x y.
Proof.
  unfold activity_ge. rewrite <- activity_lt_spec.
  destruct (activity_lt x y); split; intros H; congruence || (exfalso; now apply H).
Qed.

Lemma activity_lt_asym x y : activity_lt x y = true -> activity_lt y x = false.
Proof.
  rewrite activity_lt_false, activity_lt_spec. unfold activity_ge, activity_below. lia.
Qed.

Lemma activity_lt_negtrans x y z :
  activity_lt x y = false -> activity_lt y z = false -> activity_lt x z = false.
Proof.
  rewrite !activity_lt_false. unfold activity_ge, activity_below. lia.
Qed.

Lemma print_rows_run l : forall w,
  print_rows l w = (Ok tt, add_trace (List.map queue_row l) w).
Proof.
  induction l as [| q l IH]; intros w; cbn [print_rows List.map].
  - now rewrite add_trace_nil.
  - rewrite bind_print, IH, add_trace_app. reflexivity.
Qed.

Lemma filter_queue_rows l : List.filter is_queue_row (List.map queue_row l) = List.map queue_row l.
Proof. induction l as [| q l IH]; [reflexivity |]. cbn [List.map]. simpl. now rewrite IH. Qed.

Lemma apply_filter_nil filter_type show_active_only :
  apply_filter filter_type show_active_only [] = [].
Proof.
  unfold apply_filter.
  now destruct (String.eqb filter_type "non-imei"), (String.eqb filter_type "imei-only"),
    (String.eqb filter_type "active" || show_active_only)%bool.
Qed.

Section QueueTable.

Arguments repeat_str : simpl never.
Arguments sort_reverse : simpl never.

Lemma banner_run filter_type w :
  exists bev,
    (if String.eqb filter_type "non-imei" then
       print "🗂️  NON-IMEI QUEUES ON RABBITMQ SERVER" [] ;;;
       print "(Excluding 15-digit numeric IMEI queues)" []
     else if String.eqb filter_type "imei-only" then
       print "🗂️  IMEI QUEUES ON RABBITMQ SERVER" [] ;;;
       print "(Only 15-digit numeric IMEI queues)" []
     else if String.eqb filter_type "active" then
       print "🗂️  ACTIVE QUEUES ON RABBITMQ SERVER" [] ;;;
       print "(Only queues with messages or consumers)" []
     else print "🗂️  ALL QUEUES ON RABBITMQ SERVER" []) w = (Ok tt, add_trace bev w) /\
    List.filter is_queue_row bev = [].
Proof.
  destruct (String.eqb filter_type "non-imei");
    [| destruct (String.eqb filter_type "imei-only");
       [| destruct (String.eqb filter_type "active")]];
    rewrite ?bind_print, run_print, ?add_trace_app; eexists; split; reflexivity.
Qed.

(** With a listing from the management endpoint, [list_all_queues] prints
    one row for each listed queue that passes the filter and no other row.
    The rows come by descending activity: queues with consumers before
    those without, then queues with messages before empty ones, then by
    message count and consumer count.  The summary gives the total number
    of messages of the rows, and no queue of the broker is touched. *)
Theorem list_all_queues_table filter_type show_active_only ds w :
  mgmt w = MgmtResponse 200 (Some (List.map ItemQueue ds)) ->
  let shown := apply_filter filter_type show_active_only
                 (List.map snapshot_of_descriptor ds) in
  let listed := sort_reverse activity_lt shown in
  shown <> [] ->
  exists w' evs,
    list_all_queues filter_type show_active_only w = (Ok tt, w') /\
    trace w' = trace w ++ evs /\
    List.filter is_queue_row evs = List.map queue_row listed /\
    Permutation listed shown /\
    StronglySorted activity_ge listed /\
    In (EvOut STDOUT "   Total messages across all queues: {total_messages:,}"
          [AInt (fold_right Z.add 0 (List.map messages shown))]) evs /\
    queues w' = queues w.
Proof.
  intros Hm shown listed Hne.
  destruct (ensure_connection_keeps w) as (w1 & He & Ho1 & Hq1 & Hm1 & _ & Ht1).
  set (eev := if chan_open w then [] else [EvOut INFO "Channel lost, recreating..." []]) in *.
  assert (Hef : List.filter is_queue_row eev = []) by (unfold eev; now destruct (chan_open w)).
  destruct (banner_run filter_type (add_trace [EvOut STDOUT (repeat_str "=" 70) []] w1))
    as (bev & Hb & Hbf).
  set (w2 := add_trace [EvOut STDOUT (repeat_str "=" 70) []]
               (add_trace bev (add_trace [EvOut STDOUT (repeat_str "=" 70) []] w1))).
  assert (Hm2 : mgmt w2 = MgmtResponse 200 (Some (List.map ItemQueue ds)))
    by (unfold w2; cbn [mgmt add_trace]; congruence).
  pose proof (management_listing_run ds w2 Hm2) as Hd.
  assert (Hperm : Permutation listed shown) by apply sort_reverse_perm.
  assert (Hsum : fold_right Z.add 0 (List.map messages listed) =
                 fold_right Z.add 0 (List.map messages shown)).
  { clear -Hperm. induction Hperm; cbn [List.map fold_right]; lia. }
  assert (Hsorted : StronglySorted activity_ge listed).
  { pose proof (sort_reverse_descending activity_lt activity_lt_asym activity_lt_negtrans
                  shown) as Hs.
    fold listed in Hs. clear -Hs.
    induction Hs as [| x l _ IH Hx]; constructor; [exact IH |].
    eapply Forall_impl; [exact Hx |]. intros y Hy. now apply activity_lt_false. }
  assert (Hrun : exists tail,
             list_all_queues filter_type show_active_only w =
             (Ok tt,
              add_trace
                ([EvOut STDOUT "Found {len(queues_found)} queues:"
                    [AInt (Z.of_nat (List.length listed))];
                  EvOut STDOUT
                    "{'Queue Name':<30} {'Messages':<10} {'Consumers':<10} {'Status':<12} {'Durable':<8}"
                    [];
                  EvOut STDOUT (repeat_str "-" 70) []] ++
                 List.map queue_row listed ++
                 [EvOut STDOUT (repeat_str "=" 70) [];
                  EvOut STDOUT "📊 SUMMARY:" []] ++ tail ++
                 [EvOut STDOUT "   Total messages across all queues: {total_messages:,}"
                    [AInt (fold_right Z.add 0 (List.map messages listed))]])
                (add_trace [EvHttpGet;
                            EvOut INFO "✅ Management API available - found {} queues"
                              [AInt (Z.of_nat (List.length ds))]] w2)) /\
             List.filter is_queue_row tail = []).
  { unfold list_all_queues.
    exists [EvOut STDOUT "   Active queues (with consumers): {active_queues}"
              [AInt (count_if (fun q => 0 <? consumers q) listed)];
            EvOut STDOUT "   Queues with pending messages: {queues_with_messages}"
              [AInt (count_if (fun q => 0 <? messages q) listed)]].
    split.
    - apply try_except_ok.
      rewrite (bind_ok _ _ _ _ _ He), bind_print, (bind_ok _ _ _ _ _ Hb), bind_print.
      fold w2. rewrite (bind_ok _ _ _ _ _ Hd).
      destruct (List.map snapshot_of_descriptor ds) as [| s0 l0] eqn:Efound.
      { exfalso. apply Hne. apply apply_filter_nil. }
      cbv iota zeta. fold shown. fold listed.
      destruct shown as [| s1 l1] eqn:Eshown; [contradiction |].
      rewrite !bind_print, (bind_ok _ _ _ _ _ (print_rows_run listed _)), !bind_print,
        run_print, !add_trace_app.
      cbn [app]. rewrite <- ?app_assoc. reflexivity.
    - reflexivity. }
  destruct Hrun as (tail & Hrun & Htail).
  eexists _, _. split; [exact Hrun |].
  split.
  { unfold w2. cbn [add_trace trace]. rewrite Ht1, <- !app_assoc. reflexivity. }
  split.
  { rewrite !List.filter_app, Hef, Hbf, Htail, filter_queue_rows.
    repeat match goal with
           | |- context [List.filter is_queue_row (?a :: ?l)] =>
               replace (List.filter is_queue_row (a :: l)) with (@nil event) by reflexivity
           end.
    cbn [app]. now rewrite app_nil_r. }
  split; [exact Hperm |]. split; [exact Hsorted |].
  split.
  { rewrite Hsum. rewrite !in_app_iff. do 9 right. left. reflexivity. }
  unfold w2. cbn [add_trace queues]. exact Hq1.
Qed.

End QueueTable.

Lemma list_all_queues_table_witness :
  exists w',
    list_all_queues "all" false managed_world = (Ok tt, w') /\
    List.map (fun e => match e with
                       | EvOut _ _ (AStr n :: _) => n
                       | _ => EmptyString
                       end)
      (List.filter is_queue_row (trace w')) =
    [data_queue; "350317177240178"; "350399999999999"; "350317177240177"].
Proof.
  destruct (list_all_queues_table "all" false
              (List.map (fun s => {| d_name := Some (name s);
                                     d_messages := Some (messages s);
                                     d_consumers := Some (consumers s);
                                     d_durable := Some (durable s);
                                     d_auto_delete := Some (auto_delete s) |})
                 (three_queues ++
                  [{| name := data_queue; messages := 9; consumers := 2;
                      durable := true; auto_delete := false |}]))
              managed_world eq_refl)
    as (w' & evs & Hrun & Ht & Hrows & _).
  - discriminate.
  - exists w'. split; [exact Hrun |].
    rewrite Ht. change (trace managed_world) with (@nil event). cbn [app].
    rewrite Hrows. reflexivity.
Defined.

(** ** The filters of [list_all_queues] *)

Lemma filter_partition {A} (f : A -> bool) l :
  Permutation (List.filter f l ++ List.filter (fun x => negb (f x)) l) l.
Proof.
  induction l as [| x l IH]; [reflexivity |].
  cbn [List.filter]. destruct (f x); cbn [negb app].
  - now constructor.
  - etransitivity; [symmetry; apply Permutation_middle |]. now constructor.
Qed.

(** The filters [imei-only] and [non-imei] split the discovered queues: each
    queue is in exactly one of the two lists.  The filter [active] keeps the
    queues with messages or consumers, and so does every other filter name
    together with [show_active_only]; for [imei-only] and [non-imei] the
    flag [show_active_only] is ignored.  Without filter and flag all the
    queues are kept. *)
Theorem queue_filters_split show_active_only queues_found :
  Permutation (apply_filter "imei-only" show_active_only queues_found ++
               apply_filter "non-imei" show_active_only queues_found) queues_found /\
  (forall q, In q (apply_filter "imei-only" show_active_only queues_found) <->
             In q queues_found /\ is_imei_format (name q) = true) /\
  (forall q, In q (apply_filter "non-imei" show_active_only queues_found) <->
             In q queues_found /\ is_imei_format (name q) = false) /\
  (forall filter_type q,
     filter_type <> "imei-only" -> filter_type <> "non-imei" ->
     In q (apply_filter filter_type true queues_found) <->
     In q queues_found /\ (0 < messages q \/ 0 < consumers q)) /\
  (forall q, In q (apply_filter "active" show_active_only queues_found) <->
             In q queues_found /\ (0 < messages q \/ 0 < consumers q)) /\
  (forall filter_type,
     filter_type <> "imei-only" -> filter_type <> "non-imei" -> filter_type <> "active" ->
     apply_filter filter_type false queues_found = queues_found).
Proof.
  assert (Hact : forall q,
             In q (List.filter (fun q => ((0 <? messages q) || (0 <? consumers q))%bool)
                     queues_found) <->
             In q queues_found /\ (0 < messages q \/ 0 < consumers q)).
  { intros q. rewrite filter_In, orb_true_iff, !Z.ltb_lt. reflexivity. }
  split; [apply filter_partition |].
  split; [intros q; apply filter_In |].
  split.
  { intros q. change (apply_filter "non-imei" show_active_only queues_found)
      with (List.filter (fun q => negb (is_imei_format (name q))) queues_found).
    rewrite filter_In, negb_true_iff. reflexivity. }
  split.
  { intros filter_type q H1 H2. unfold apply_filter.
    apply String.eqb_neq in H1, H2. rewrite H1, H2, orb_true_r. apply Hact. }
  split; [intros q; apply Hact |].
  intros filter_type H1 H2 H3. unfold apply_filter.
  apply String.eqb_neq in H1, H2, H3. now rewrite H1, H2, H3.
Qed.

Lemma queue_filters_split_witness :
  apply_filter "idle" false three_queues = three_queues /\
  Permutation (apply_filter "imei-only" true three_queues ++
               apply_filter "non-imei" true three_queues) three_queues.
Proof.
  destruct (queue_filters_split true three_queues) as (Hp & _).
  destruct (queue_filters_split false three_queues) as (_ & _ & _ & _ & _ & Hall).
  split; [apply Hall; discriminate | exact Hp].
Defined.

(** ** The counts of [_analyze_message_types] *)

Lemma bump_total k d : total_count (bump k d) = total_count d + 1.
Proof.
  unfold total_count. induction d as [| [k' n] d IH]; [reflexivity |].
  cbn [bump]. destruct (key_eqb k k'); cbn [List.map fold_right snd] in *; lia.
Qed.

Lemma bump_positive k d :
  Forall (fun kv => 0 < snd kv) d -> Forall (fun kv => 0 < snd kv) (bump k d).
Proof.
  induction 1 as [| [k' n] d Hn Hd IH]; cbn [bump].
  - repeat constructor.
  - cbn [snd] in Hn. destruct (key_eqb k k'); constructor; cbn [snd]; try lia; assumption.
Qed.

Lemma py_get_attribute_error data k v e : py_get data k v = Raise e -> e = AttributeError.
Proof. destruct data; cbn [py_get]; now inversion 1. Qed.

Section AnalysisCounts.

Context {J : JsonLib} {U : StrLib}.

Lemma analyze_one_totals self body mt ic w mt' ic' w' :
  analyze_one self body mt ic w = (Ok (mt', ic'), w') ->
  total_count mt <= total_count mt' <= total_count mt + 1 /\
  total_count ic <= total_count ic' <= total_count ic + 1 /\
  (filtering self = None -> total_count mt' = total_count mt + 1) /\
  (Forall (fun kv => 0 < snd kv) mt -> Forall (fun kv => 0 < snd kv) mt').
Proof.
  unfold analyze_one, try_except. unfold bind at 1.
  destruct (loads_body body w) as [[data | e] w1].
  - unfold bind at 1, lift at 1.
    destruct (py_get data "type" (JStr "UNKNOWN")) as [msg_type | e] eqn:Et;
      [| rewrite (py_get_attribute_error _ _ _ _ Et); discriminate].
    unfold bind at 1, lift at 1.
    destruct (py_get data "imei" (JStr "UNKNOWN")) as [imei | e] eqn:Ei;
      [| rewrite (py_get_attribute_error _ _ _ _ Ei); discriminate].
    unfold bind at 1, lift at 1, count_key at 1.
    destruct (hashable imei); [| discriminate].
    destruct (filtering self) as [target |].
    + destruct (json_eq_str imei target).
      * unfold bind, lift, count_key. destruct (hashable msg_type); [| discriminate].
        unfold ret. intros H. inversion H; subst. rewrite !bump_total.
        repeat split; try lia; try discriminate. now apply bump_positive.
      * unfold ret. intros H. inversion H; subst. rewrite bump_total.
        repeat split; try lia; try discriminate. auto.
    + unfold bind, lift, count_key. destruct (hashable msg_type); [| discriminate].
      unfold ret. intros H. inversion H; subst. rewrite !bump_total.
      repeat split; try lia. now apply bump_positive.
  - destruct (is_JSONDecodeError e); [| discriminate].
    unfold ret. intros H. inversion H; subst. rewrite bump_total.
    repeat split; try lia. now apply bump_positive.
Qed.

Lemma analyze_loop_totals self n :
  forall mt ic req w mt' ic' req' w',
    analyze_loop self n mt ic req w = (Ok (mt', ic'), req', w') ->
    exists k,
      List.length req' = (List.length req + k)%nat /\ (k <= n)%nat /\
      total_count mt <= total_count mt' <= total_count mt + Z.of_nat k /\
      total_count ic <= total_count ic' <= total_count ic + Z.of_nat k /\
      (filtering self = None -> total_count mt' = total_count mt + Z.of_nat k) /\
      (Forall (fun kv => 0 < snd kv) mt -> Forall (fun kv => 0 < snd kv) mt').
Proof.
  induction n as [| n IH]; intros mt ic req w mt' ic' req' w' Hl; cbn [analyze_loop] in Hl.
  - inversion Hl; subst. exists 0%nat. repeat split; auto; lia.
  - destruct (basic_get data_queue w) as [[[[tag body] |] | e] w1]; [| | discriminate].
    + destruct (analyze_one self body mt ic w1) as [[[mt1 ic1] | e] w2] eqn:Ea;
        [| discriminate].
      destruct (analyze_one_totals _ _ _ _ _ _ _ _ Ea) as (Hm & Hi & Hn & Hp).
      destruct (IH _ _ _ _ _ _ _ _ Hl) as (k & Hlen & Hk & Hm' & Hi' & Hn' & Hp').
      exists (S k). rewrite length_app in Hlen. cbn [List.length] in Hlen.
      split; [lia |]. split; [lia |]. split; [lia |]. split; [lia |].
      split; [intros Hf; specialize (Hn Hf); specialize (Hn' Hf); lia | auto].
    + inversion Hl; subst. exists 0%nat. repeat split; auto; lia.
Qed.

(** The dictionaries returned by [_analyze_message_types]: the counts of
    the message types add up to at most the number of messages fetched, and
    to exactly that number without an IMEI filter (a message that is not
    JSON counts as [RAW]); the counts of the IMEI breakdown add up to at
    most that number, whatever the filter.  At most ten messages and at
    most [max_messages] are fetched, all of them are put back, and no count
    is zero. *)
Theorem analysis_counts self max_messages w message_types imei_counts w' :
  _analyze_message_types self max_messages w = (Ok (message_types, imei_counts), w') ->
  exists tags,
    run_tags w w' tags (rev tags) [] /\
    (List.length tags <= 10)%nat /\
    Z.of_nat (List.length tags) <= Z.max 0 max_messages /\
    0 <= total_count message_types <= Z.of_nat (List.length tags) /\
    0 <= total_count imei_counts <= Z.of_nat (List.length tags) /\
    (filtering self = None -> total_count message_types = Z.of_nat (List.length tags)) /\
    Forall (fun kv => 0 < snd kv) message_types.
Proof.
  unfold _analyze_message_types.
  destruct (analyze_loop self (Z.to_nat (Z.min max_messages 10)) [] [] [] w)
    as [[r req] w1] eqn:El.
  rewrite try_finally_requeue. unfold lift. cbn [fst snd].
  intros H. inversion H; subst. clear H.
  destruct (analyze_loop_totals _ _ _ _ _ _ _ _ _ _ El) as (k & Hlen & Hk & Hm & Hi & Hn & Hp).
  cbn [List.length] in Hlen. change (total_count []) with 0 in *.
  exists req.
  assert (Hrun : run_tags w w1 req [] []).
  { destruct (chan_open w) eqn:Ho; [destruct (queues w !! data_queue) as [q |] eqn:Eq |].
    - apply run_tags_browsed with (name := data_queue).
      eapply (analyze_loop_browsed w Ho); [rewrite Eq; eauto | apply browsed_start | exact El].
    - destruct (analyze_loop_not_ready _ _ _ _ _ _ _ _ _ (or_intror Eq) El)
        as [-> [-> | [_ ->]]]; [apply run_tags_refl | apply run_tags_close_channel].
    - destruct (analyze_loop_not_ready _ _ _ _ _ _ _ _ _ (or_introl Ho) El)
        as [-> [-> | [_ ->]]]; [apply run_tags_refl | apply run_tags_close_channel]. }
  split.
  { pose proof (run_tags_trans _ _ _ _ _ _ _ _ _ Hrun (run_tags_requeue (rev req) w1)) as Ht.
    cbn [app] in Ht. now rewrite app_nil_r in Ht. }
  split; [lia |]. split; [lia |]. split; [lia |]. split; [lia |].
  split; [intros Hf; rewrite (Hn Hf); lia | apply Hp; constructor].
Qed.

End AnalysisCounts.

Lemma analysis_counts_witness :
  exists tags w',
    @_analyze_message_types py_json filter_111 10
      (one_queue data_queue [telemetry_111; not_json; heartbeat] 0)
    = (Ok ([(JStr "DATA", 1); (JStr "RAW", 1); (JStr "HEARTBEAT", 1)], [(JStr "111", 2)]), w') /\
    run_tags (one_queue data_queue [telemetry_111; not_json; heartbeat] 0) w'
      tags (rev tags) [] /\
    (List.length tags <= 10)%nat.
Proof.
  destruct (@analysis_counts py_json filter_111 10
              (one_queue data_queue [telemetry_111; not_json; heartbeat] 0)
              [(JStr "DATA", 1); (JStr "RAW", 1); (JStr "HEARTBEAT", 1)] [(JStr "111", 2)]
              (snd (@_analyze_message_types py_json filter_111 10
                      (one_queue data_queue [telemetry_111; not_json; heartbeat] 0))))
    as (tags & Hrun & Hlen & _); [vm_compute; reflexivity |].
  exists tags. eexists. split; [vm_compute; reflexivity |]. split; [exact Hrun | exact Hlen].
Defined.

(** ** A command that was sent is listed *)

Lemma bind_bind {A B C} (c : M A) (k1 : A -> M B) (k2 : B -> M C) w :
  bind (bind c k1) k2 w = bind c (fun x => bind (k1 x) k2) w.
Proof. unfold bind. now destruct (c w) as [[a | e] w1]. Qed.

Section SentAndListed.

Context {J : JsonLib} {U : StrLib}.

Arguments repeat_str : simpl never.

Lemma send_command_fresh_queue imei command command_id w :
  chan_open w = true -> queues w !! imei = None ->
  let cid := match command_id with Some c => c | None => next_uuid w end in
  exists w1,
    send_command imei command command_id w = (Ok true, w1) /\
    chan_open w1 = true /\
    queues w1 !! imei =
      Some {| q_ready := [command_envelope cid command (clock w)];
              q_consumers := 0; q_durable := true |} /\
    unacked w1 = unacked w.
Proof.
  intros Ho Hq cid. rewrite send_command_steps. cbv zeta. fold cid.
  eexists. split.
  { apply try_except_ok.
    rewrite (bind_ok _ _ _ _ _ (declare_durable_missing imei w Ho Hq)).
    erewrite bind_ok;
      [| apply basic_publish_found;
         [reflexivity | cbn [queues set_broker]; apply lookup_insert_eq]].
    rewrite !bind_logger_info, !add_trace_app.
    erewrite bind_ok;
      [| apply declare_passive_found;
         [reflexivity
         | cbn [queues set_broker emit add_trace]; rewrite insert_insert_eq;
           apply lookup_insert_eq]].
    rewrite bind_logger_info. reflexivity. }
  cbn [chan_open queues unacked set_broker emit add_trace].
  rewrite insert_insert_eq, lookup_insert_eq. repeat split.
Qed.

Lemma show_command_object display_number body d w :
  utf8_valid body = true -> json_loads body = Some (JObj d) ->
  show_command display_number body w =
  (Ok tt,
   add_trace
     [EvOut STDOUT "{display_number:2d}. Command: {command}"
        [AInt display_number; AJson (field "command" (JStr "Unknown") d)];
      EvOut STDOUT "     ID: {command_id}" [AJson (field "command_id" (JStr "N/A") d)];
      EvOut STDOUT "     Timestamp: {timestamp}" [AJson (field "timestamp" (JStr "N/A") d)];
      EvOut STDOUT "     Source: {source}" [AJson (field "source" (JStr "N/A") d)];
      EvOut STDOUT (repeat_str "-" 40) []] w).
Proof.
  intros Hv Hd. unfold show_command. apply try_except_ok.
  rewrite (bind_ok _ _ _ _ _ (loads_body_success _ _ _ Hv Hd)).
  unfold lift, py_get. rewrite !bind_ok with (a := _) (w' := w) by reflexivity.
  rewrite !bind_print, run_print, !add_trace_app. reflexivity.
Qed.

(** [list_queue_commands] on a queue that holds one command. *)
Lemma list_single_command imei q m d w :
  chan_open w = true -> queues w !! imei = Some q -> q_ready q = [m] ->
  utf8_valid (msg_body m) = true -> json_loads (msg_body m) = Some (JObj d) ->
  exists w' evs,
    list_queue_commands imei w = (Ok tt, w') /\
    same_broker w' w /\
    trace w' = trace w ++ evs /\
    In (EvOut STDOUT "Total commands: {message_count}" [AInt 1]) evs /\
    In (EvOut STDOUT "{display_number:2d}. Command: {command}"
          [AInt 1; AJson (field "command" (JStr "Unknown") d)]) evs /\
    In (EvOut STDOUT "     ID: {command_id}" [AJson (field "command_id" (JStr "N/A") d)]) evs.
Proof.
  intros Ho Hq Hr Hv Hd.
  set (w1 := add_trace
               [EvDeclare imei true false;
                EvOut STDOUT (repeat_str "=" 60) [];
                EvOut STDOUT "📋 ALL COMMANDS IN QUEUE FOR IMEI: {imei}" [AStr imei];
                EvOut STDOUT "Total commands: {message_count}" [AInt 1];
                EvOut STDOUT (repeat_str "=" 60) []] w).
  destruct (basic_get_head imei q m [] w1 Ho Hq Hr) as (w2 & Hg & Ht2).
  set (sev := [EvOut STDOUT "{display_number:2d}. Command: {command}"
                 [AInt 1; AJson (field "command" (JStr "Unknown") d)];
               EvOut STDOUT "     ID: {command_id}"
                 [AJson (field "command_id" (JStr "N/A") d)];
               EvOut STDOUT "     Timestamp: {timestamp}"
                 [AJson (field "timestamp" (JStr "N/A") d)];
               EvOut STDOUT "     Source: {source}" [AJson (field "source" (JStr "N/A") d)];
               EvOut STDOUT (repeat_str "-" 40) []]).
  destruct (nack_after_get _ _ _ _ _ Hg) as [Hok Hsame].
  destruct (basic_nack_same_broker (next_tag w1) (add_trace sev w2) w2
              (same_broker_add_trace sev w2)) as [Hr2 Hs2].
  pose proof (basic_nack_trace (next_tag w1) (add_trace sev w2)) as Htn.
  destruct (basic_nack (next_tag w1) (add_trace sev w2)) as [rn w3] eqn:En.
  cbn [fst snd] in *. rewrite Hok in Hr2. subst rn.
  exists (add_trace [EvOut STDOUT (repeat_str "=" 60) []] w3).
  exists ([EvDeclare imei true false;
           EvOut STDOUT (repeat_str "=" 60) [];
           EvOut STDOUT "📋 ALL COMMANDS IN QUEUE FOR IMEI: {imei}" [AStr imei];
           EvOut STDOUT "Total commands: {message_count}" [AInt 1];
           EvOut STDOUT (repeat_str "=" 60) []] ++
          [EvGet imei (Some (next_tag w1, msg_body m))] ++ sev ++
          [EvNack (next_tag w1)] ++ [EvOut STDOUT (repeat_str "=" 60) []]).
  split.
  { unfold list_queue_commands. apply try_except_ok.
    rewrite (bind_ok _ _ _ _ _ (declare_passive_found imei q w Ho Hq)).
    unfold counts. cbn [fst]. rewrite Hr.
    change (Z.of_nat (List.length [m])) with 1.
    change (1 =? 0) with false. change (1 <=? 10) with true. cbv iota.
    rewrite bind_print, bind_bind, !bind_print. unfold emit. rewrite !add_trace_app.
    cbn [app]. fold w1.
    change (Z.to_nat 1) with 1%nat. cbn [fetch_commands].
    rewrite bind_bind, (bind_ok _ _ _ _ _ Hg). cbv iota beta.
    rewrite bind_ret. cbn [app List.length Z.of_nat show_commands].
    rewrite bind_bind.
    rewrite (bind_ok _ _ _ _ _ (show_command_object (1 + 0) (msg_body m) d w2 Hv Hd)).
    change (1 + 0) with 1. fold sev.
    rewrite bind_ret. cbn [rev app nack_each].
    rewrite bind_bind, (bind_ok _ _ _ _ _ En), bind_ret. apply run_print. }
  split.
  { eapply same_broker_trans; [apply same_broker_add_trace |].
    eapply same_broker_trans; [exact Hs2 |].
    eapply same_broker_trans; [exact Hsame |]. apply same_broker_add_trace. }
  split.
  { cbn [add_trace trace]. rewrite Htn. cbn [add_trace trace]. rewrite Ht2.
    unfold w1. cbn [add_trace trace]. rewrite <- !app_assoc. reflexivity. }
  split; [apply in_or_app; left; cbn [In]; tauto |].
  split; apply in_or_app; right; apply in_or_app; right; apply in_or_app; left;
    unfold sev; cbn [In]; tauto.
Qed.

(** A command sent to a device that has no queue yet is what
    [list_queue_commands] shows next, as entry 1 with the same command and
    command identifier, provided that [json.loads] reads back what
    [json.dumps] wrote; and the command is still in the queue after the
    listing. *)
Theorem sent_command_is_listed imei command command_id w :
  chan_open w = true -> queues w !! imei = None ->
  let cid := match command_id with Some c => c | None => next_uuid w end in
  let message := command_message cid command (clock w) in
  utf8_valid (json_dumps message) = true ->
  json_loads (json_dumps message) = Some message ->
  exists w1 w2 evs,
    send_command imei command command_id w = (Ok true, w1) /\
    list_queue_commands imei w1 = (Ok tt, w2) /\
    trace w2 = trace w1 ++ evs /\
    In (EvOut STDOUT "Total commands: {message_count}" [AInt 1]) evs /\
    In (EvOut STDOUT "{display_number:2d}. Command: {command}"
          [AInt 1; AJson (JStr command)]) evs /\
    In (EvOut STDOUT "     ID: {command_id}" [AJson (JStr cid)]) evs /\
    delivery_order imei w2 = [json_dumps message].
Proof.
  intros Ho Hq cid message Hv Hl.
  destruct (send_command_fresh_queue imei command command_id w Ho Hq)
    as (w1 & Hsend & Ho1 & Hq1 & _).
  fold cid in Hq1.
  destruct (list_single_command imei _ (command_envelope cid command (clock w))
              [("command_id", JStr cid); ("command", JStr command);
               ("timestamp", JStr (str_of_Z (clock w))); ("source", JStr "command_sender")]
              w1 Ho1 Hq1 eq_refl Hv Hl)
    as (w2 & evs & Hlist & (Hqs & _) & Ht & Htotal & Hcmd & Hid).
  exists w1, w2, evs. split; [exact Hsend |]. split; [exact Hlist |].
  split; [exact Ht |]. split; [exact Htotal |].
  split; [exact Hcmd |]. split; [exact Hid |].
  unfold delivery_order. rewrite Hqs, Hq1. reflexivity.
Qed.

End SentAndListed.

Lemma sent_command_is_listed_witness :
  exists w1 w2,
    @send_command py_json device_350 "getinfo" (Some "c-1") no_queue = (Ok true, w1) /\
    @list_queue_commands py_json device_350 w1 = (Ok tt, w2) /\
    In (EvOut STDOUT "{display_number:2d}. Command: {command}"
          [AInt 1; AJson (JStr "getinfo")]) (trace w2) /\
    message_count_of device_350 w2 = 1.
Proof.
  destruct (@sent_command_is_listed py_json device_350 "getinfo" (Some "c-1") no_queue
              eq_refl eq_refl)
    as (w1 & w2 & evs & Hs & Hl & Ht & _ & Hc & _ & Hd).
  - vm_compute. reflexivity.
  - vm_compute. reflexivity.
  - exists w1, w2. split; [exact Hs |]. split; [exact Hl |].
    split; [rewrite Ht; apply in_or_app; right; exact Hc |].
    unfold message_count_of, delivery_order in *.
    destruct (queues w2 !! device_350) as [q |]; [| discriminate Hd].
    rewrite <- (length_map msg_body), Hd. reflexivity.
Defined.

(** ** Monitoring with an IMEI filter *)

Lemma deliver_head name q m rest w :
  chan_open w = true -> queues w !! name = Some q -> q_ready q = m :: rest ->
  deliver name w =
  (Ok (Some (next_tag w, msg_body m)),
   emit (EvDeliver name (next_tag w) (msg_body m))
     (set_broker
        (<[name := {| q_ready := rest; q_consumers := q_consumers q;
                      q_durable := q_durable q |}]> (queues w))
        ((next_tag w, (name, m)) :: unacked w) (next_tag w + 1) true w)).
Proof. intros Ho Hq Hr. unfold deliver. now rewrite Ho, Hq, Hr. Qed.

Lemma deliver_empty name q w :
  chan_open w = true -> queues w !! name = Some q -> q_ready q = [] ->
  deliver name w = (Ok None, w).
Proof. intros Ho Hq Hr. unfold deliver. now rewrite Ho, Hq, Hr. Qed.

Lemma delivered_app e1 e2 : delivered (e1 ++ e2) = delivered e1 ++ delivered e2.
Proof.
  induction e1 as [| e e1 IH]; [reflexivity |].
  cbn [app delivered]. rewrite IH. now destruct e.
Qed.

Section MonitorFilter.

Context {J : JsonLib} {U : StrLib}.

Arguments repeat_str : simpl never.

Lemma start_consuming_foreign self target show_json :
  filtering self = Some target ->
  forall deliveries q w,
    chan_open w = true -> queues w !! data_queue = Some q ->
    Forall (fun m => foreign target (msg_body m)) (q_ready q) ->
    let n := Nat.min deliveries (List.length (q_ready q)) in
    exists w' evs,
      start_consuming (message_callback self show_json) deliveries w =
        (Raise KeyboardInterrupt, w') /\
      chan_open w' = true /\
      queues w' !! data_queue = Some (dequeued n q) /\
      unacked w' = unacked w /\
      trace w' = trace w ++ evs /\
      Forall is_consumption evs /\
      delivered evs = acked evs /\ List.length (acked evs) = n.
Proof.
  intros Hf. induction deliveries as [| deliveries IH]; intros q w Ho Hq Hall n.
  - exists w, []. rewrite app_nil_r. unfold n, dequeued. cbn [Nat.min skipn start_consuming].
    repeat split; auto. rewrite Hq. now destruct q.
  - cbn [start_consuming]. destruct (q_ready q) as [| m rest] eqn:Hr.
    + rewrite (bind_ok _ _ _ _ _ (deliver_empty data_queue q w Ho Hq Hr)).
      exists w, []. rewrite app_nil_r. unfold n, dequeued. rewrite Hr.
      cbn [List.length Nat.min skipn].
      repeat split; auto. rewrite Hq. destruct q; cbn in *; now subst.
    + rewrite (bind_ok _ _ _ _ _ (deliver_head data_queue q m rest w Ho Hq Hr)).
      cbv beta iota.
      inversion Hall as [| ? ? [Hv Hm] Hrest]; subst.
      set (w1 := emit (EvDeliver data_queue (next_tag w) (msg_body m)) _).
      assert (Hskip : message_callback self show_json (next_tag w) (msg_body m) w1 =
                      (Ok tt, set_broker (queues w1) (unacked w) (next_tag w1) true
                                (emit (EvAck (next_tag w)) w1))).
      { apply (callback_acks_skipped self target show_json (next_tag w) (msg_body m)
                 (data_queue, m) (unacked w) w1 Hf eq_refl); [| exact Hv | exact Hm].
        unfold w1. cbn [unacked set_broker emit add_trace take_delivery].
        now rewrite Z.eqb_refl. }
      rewrite (bind_ok _ _ _ _ _ Hskip).
      set (w2 := set_broker _ _ _ _ _).
      destruct (IH {| q_ready := rest; q_consumers := q_consumers q;
                      q_durable := q_durable q |} w2)
        as (w' & evs & Hrun & Ho' & Hq' & Hu' & Ht' & Hc' & Hd' & Hl').
      * reflexivity.
      * unfold w2, w1. cbn [queues set_broker emit add_trace]. apply lookup_insert_eq.
      * exact Hrest.
      * exists w', ([EvDeliver data_queue (next_tag w) (msg_body m); EvAck (next_tag w)] ++ evs).
        split; [exact Hrun |]. split; [exact Ho' |].
        split; [rewrite Hq'; unfold n, dequeued; rewrite Hr;
                cbn [q_ready q_consumers q_durable List.length Nat.min skipn];
                reflexivity |].
        split; [exact Hu' |].
        split; [rewrite Ht'; unfold w2, w1; cbn [trace set_broker emit add_trace];
                rewrite <- !app_assoc; reflexivity |].
        split; [repeat constructor; exact Hc' |].
        rewrite delivered_app, acked_app, Hd'. cbn [delivered acked app List.length].
        split; [reflexivity |]. unfold n. cbn [List.length Nat.min].
        cbn [q_ready] in Hl'. now rewrite Hl'.
Qed.

Lemma consumption_only evs :
  Forall is_consumption evs ->
  nacked evs = [] /\ fetched evs = [] /\ forall lvl text args, ~ In (EvOut lvl text args) evs.
Proof.
  induction 1 as [| e evs He _ (Hn & Hf & Hi)]; [easy |].
  destruct e; try (exfalso; exact He); cbn [nacked fetched In];
    (split; [exact Hn |]); (split; [exact Hf |]);
    intros lvl text args [Heq | Hin]; try discriminate Heq; exact (Hi _ _ _ Hin).
Qed.

Lemma basic_consume_found name q w :
  chan_open w = true -> queues w !! name = Some q -> basic_consume name w = (Ok tt, w).
Proof. intros Ho Hq. unfold basic_consume. now rewrite Ho, Hq. Qed.

(** [monitor_realtime] with an IMEI filter consumes the messages of the
    other devices: on a queue that holds only messages the filter skips
    (not JSON, or of another IMEI), every message delivered before the
    operator interrupts is acknowledged, none is shown and none is put
    back; the queue has lost them for good. *)
Theorem monitor_consumes_skipped_messages self target show_json deliveries q w :
  filtering self = Some target ->
  chan_open w = true -> queues w !! data_queue = Some q ->
  Forall (fun m => foreign target (msg_body m)) (q_ready q) ->
  let n := Nat.min deliveries (List.length (q_ready q)) in
  exists w' evs,
    monitor_realtime self show_json deliveries w = (Ok tt, w') /\
    queues w' !! data_queue = Some (dequeued n q) /\
    unacked w' = unacked w /\
    trace w' = trace w ++ evs /\
    delivered evs = acked evs /\ List.length (acked evs) = n /\ nacked evs = [] /\
    ~ In (EvOut INFO "🎯 NEW MESSAGE DETECTED!" []) evs.
Proof.
  intros Hf Ho Hq Hall n.
  set (pre := [EvOut INFO (repeat_str "=" 60) [];
               EvOut INFO "REAL-TIME MONITORING" [];
               EvOut INFO (repeat_str "=" 60) [];
               EvOut INFO "Filtering for IMEI: {}" [AStr target];
               EvOut INFO "Monitoring queue for new messages..." [];
               EvOut INFO "Press Ctrl+C to stop monitoring" [];
               EvOut INFO (repeat_str "=" 60) [];
               EvOut INFO "Waiting for messages... (Press Ctrl+C to stop)" []]).
  destruct (start_consuming_foreign self target show_json Hf deliveries q
              (add_trace pre w) Ho Hq Hall)
    as (w1 & cev & Hrun & Ho1 & Hq1 & Hu1 & Ht1 & Hc1 & Hd1 & Hl1).
  destruct (consumption_only _ Hc1) as (Hn1 & _ & Hi1).
  exists (add_trace [EvOut INFO "⏹️  Stopping real-time monitor..." []] w1).
  exists (pre ++ cev ++ [EvOut INFO "⏹️  Stopping real-time monitor..." []]).
  split.
  { unfold monitor_realtime.
    eapply eq_trans; [apply try_except_caught with (e := KeyboardInterrupt)
                                                   (w' := w1); [| reflexivity] |].
    - rewrite bind_ok with (a := tt) (w' := w)
        by (unfold ensure_connection; now rewrite Ho).
      rewrite !bind_logger_info, Hf, !bind_logger_info, !add_trace_app. cbn [app].
      erewrite bind_ok;
        [| apply basic_consume_found with (q := q); [exact Ho | exact Hq]].
      rewrite bind_logger_info, add_trace_app. cbn [app]. fold pre. exact Hrun.
    - reflexivity. }
  split; [exact Hq1 |]. split; [exact Hu1 |].
  split; [cbn [add_trace trace]; rewrite Ht1; cbn [add_trace trace];
          rewrite <- !app_assoc; reflexivity |].
  rewrite !delivered_app, !acked_app, !nacked_app, Hd1, Hn1.
  split; [reflexivity |]. split; [cbn [acked app]; rewrite app_nil_r; exact Hl1 |].
  split; [reflexivity |].
  rewrite !in_app_iff. intros [Hin | [Hin | Hin]].
  - unfold pre in Hin. cbn [In] in Hin.
    repeat (destruct Hin as [Hin | Hin]; [discriminate Hin |]). exact Hin.
  - exact (Hi1 _ _ _ Hin).
  - cbn [In] in Hin. destruct Hin as [Hin | []]. discriminate Hin.
Qed.

End MonitorFilter.

Lemma monitor_consumes_skipped_messages_witness :
  let w := one_queue data_queue [not_json; telemetry_111; not_json] 0 in
  exists w',
    @monitor_realtime py_json {| target_imei := Some "999" |} false 5 w = (Ok tt, w') /\
    message_count_of data_queue w' = 0 /\ unacked w' = [] /\
    acked (trace w') = [1; 2; 3].
Proof.
  intros w.
  destruct (@monitor_consumes_skipped_messages py_json {| target_imei := Some "999" |} "999"
              false 5
              {| q_ready := [plain not_json; plain telemetry_111; plain not_json];
                 q_consumers := 0; q_durable := true |} w eq_refl eq_refl eq_refl)
    as (w' & evs & Hrun & Hq & Hu & _).
  - apply List.Forall_cons; [| apply List.Forall_cons; [| apply List.Forall_cons;
                                                           [| apply List.Forall_nil]]].
    + split; [vm_compute; reflexivity | left; vm_compute; reflexivity].
    + split; [vm_compute; reflexivity | right; eexists; split; vm_compute; reflexivity].
    + split; [vm_compute; reflexivity | left; vm_compute; reflexivity].
  - exists w'. split; [exact Hrun |].
    split; [unfold message_count_of; rewrite Hq; reflexivity |].
    split; [exact Hu |].
    assert (Hw : w' = snd (@monitor_realtime py_json {| target_imei := Some "999" |}
                             false 5 w)) by (rewrite Hrun; reflexivity).
    rewrite Hw. vm_compute. reflexivity.
Defined.

(** ** The status displays are non-destructive *)

Section Calm.

Context {A B : Type}.

Lemma calm_quiet (c : M A) : quiet c -> calm c.
Proof. intros Hq w Hu. destruct (Hq w) as (evs & -> & _). now split. Qed.

Lemma calm_bind (c : M A) (k : A -> M B) :
  calm c -> (forall a, calm (k a)) -> calm (bind c k).
Proof.
  intros Hc Hk w Hu. unfold bind. specialize (Hc w Hu).
  destruct (c w) as [[a | e] w1]; cbn [snd] in *; [| exact Hc].
  destruct Hc as [Hq1 Hu1]. destruct (Hk a w1 Hu1) as [Hq2 Hu2].
  split; [congruence | exact Hu2].
Qed.

Lemma calm_try_except (c : M A) handles (h : exn -> M A) :
  calm c -> (forall e, calm (h e)) -> calm (try_except c handles h).
Proof.
  intros Hc Hh w Hu. unfold try_except. specialize (Hc w Hu).
  destruct (c w) as [[a | e] w1]; cbn [snd] in *; [exact Hc |].
  destruct (handles e); [| exact Hc].
  destruct Hc as [Hq1 Hu1]. destruct (Hh e w1 Hu1) as [Hq2 Hu2].
  split; [congruence | exact Hu2].
Qed.

End Calm.

Lemma calm_ensure_connection : calm ensure_connection.
Proof.
  intros w Hu. unfold ensure_connection. destruct (chan_open w); cbn; auto.
Qed.

Lemma close_channel_calm w :
  unacked w = [] -> queues (close_channel w) = queues w /\ unacked (close_channel w) = [].
Proof. intros Hu. unfold close_channel. cbn [queues unacked set_broker]. now rewrite Hu. Qed.

Lemma calm_queue_declare_passive name : calm (queue_declare_passive name).
Proof.
  intros w Hu. unfold queue_declare_passive. cbn [emit add_trace chan_open queues].
  destruct (chan_open w); [destruct (queues w !! name) |]; cbn [snd]; auto.
  apply (close_channel_calm (emit (EvDeclare name true false) w) Hu).
Qed.

Lemma calm_scan_devices imeis : forall device_queues, calm (scan_devices imeis device_queues).
Proof.
  induction imeis as [| imei rest IH]; intros device_queues w Hu; cbn [scan_devices].
  - now split.
  - destruct (calm_queue_declare_passive imei w Hu) as [Hq1 Hu1].
    destruct (queue_declare_passive imei w) as [[queue_info | e] w1]; cbn [snd] in *.
    + destruct ((0 <? fst queue_info) || (0 <? snd queue_info))%bool;
        match goal with |- context [scan_devices rest ?d w1] =>
          destruct (IH d w1 Hu1) as [Hq2 Hu2]
        end; split; congruence.
    + destruct (is_Exception e); [| now split].
      destruct (IH device_queues w1 Hu1) as [Hq2 Hu2]. split; congruence.
Qed.

Ltac calm_step :=
  match goal with
  | |- calm (bind _ _) => apply calm_bind; [| intros ?]
  | |- calm (try_except _ _ _) => apply calm_try_except; [| intros ?]
  | |- calm ensure_connection => apply calm_ensure_connection
  | |- calm (queue_declare_passive _) => apply calm_queue_declare_passive
  | |- calm (scan_devices _ _) => apply calm_scan_devices
  | |- calm (if ?b then _ else _) => destruct b
  | |- calm (match ?x with _ => _ end) => destruct x
  | |- calm (let '(_, _) := ?x in _) => destruct x
  | |- calm _ => solve [apply calm_quiet; quiet_tac]
  end.

Ltac calm_tac := repeat calm_step.

Section NonDestructive.

Context {J : JsonLib} {U : StrLib}.

Lemma next_commands_loop_not_ready imei n i req w r req' w' :
  chan_open w = false \/ queues w !! imei = None ->
  next_commands_loop imei n i req w = (r, req', w') ->
  req' = req /\ (w' = w \/ w' = close_channel w).
Proof.
  intros Hnr. destruct n as [| n]; cbn [next_commands_loop].
  - inversion 1; auto.
  - destruct (basic_get imei w) as [[[[tag body] |] | e] w1] eqn:G.
    + apply basic_get_some in G. destruct G as (Ho & q & ? & ? & Hq & _).
      destruct Hnr; congruence.
    + exfalso. unfold basic_get in G. destruct Hnr as [Hc | Hq].
      * rewrite Hc in G. inversion G.
      * destruct (chan_open w); [rewrite Hq in G |]; inversion G.
    + inversion 1; subst. split; [easy |].
      apply basic_get_raise in G. destruct G as [(_ & -> & _) | (_ & _ & ->)]; auto.
Qed.

Lemma calm_next_commands_try_finally imei message_count :
  calm (next_commands_try_finally imei message_count).
Proof.
  intros w Hu.
  destruct (chan_open w) eqn:Ho; [destruct (queues w !! imei) as [q |] eqn:Eq |].
  - destruct (next_commands_try_finally_ready imei message_count w Ho)
      as (tags & (Hq & Hun & _) & _); [rewrite Eq; eauto |].
    split; congruence.
  - unfold next_commands_try_finally.
    destruct (next_commands_loop imei _ 0 [] w) as [[r req] w1] eqn:El.
    destruct (next_commands_loop_not_ready _ _ _ _ _ _ _ _ (or_intror Eq) El)
      as [-> [-> | ->]]; rewrite try_finally_requeue; unfold lift; cbn [rev requeue_each ret fst snd].
    + now split.
    + now apply close_channel_calm.
  - unfold next_commands_try_finally.
    destruct (next_commands_loop imei _ 0 [] w) as [[r req] w1] eqn:El.
    destruct (next_commands_loop_not_ready _ _ _ _ _ _ _ _ (or_introl Ho) El)
      as [-> [-> | ->]]; rewrite try_finally_requeue; unfold lift; cbn [rev requeue_each ret fst snd].
    + now split.
    + now apply close_channel_calm.
Qed.

Lemma calm_analyze_message_types self max_messages :
  calm (_analyze_message_types self max_messages).
Proof.
  intros w Hu. unfold _analyze_message_types.
  destruct (analyze_loop self _ [] [] [] w) as [[r req] w1] eqn:El.
  rewrite try_finally_requeue. unfold lift. cbn [fst snd].
  destruct (chan_open w) eqn:Ho; [destruct (queues w !! data_queue) as [q |] eqn:Eq |].
  - assert (Hb : browsed data_queue w req w1).
    { eapply (analyze_loop_browsed w Ho); [rewrite Eq; eauto | apply browsed_start | exact El]. }
    destruct (browsed_restore _ _ _ _ Hb) as (Hq & Hun & _). split; congruence.
  - destruct (analyze_loop_not_ready _ _ _ _ _ _ _ _ _ (or_intror Eq) El)
      as [-> [-> | [_ ->]]]; cbn [rev requeue_each ret fst snd].
    + now split.
    + now apply close_channel_calm.
  - destruct (analyze_loop_not_ready _ _ _ _ _ _ _ _ _ (or_introl Ho) El)
      as [-> [-> | [_ ->]]]; cbn [rev requeue_each ret fst snd].
    + now split.
    + now apply close_channel_calm.
Qed.

Lemma quiet_print_breakdown items : quiet (print_breakdown items).
Proof.
  induction items as [| [msg_type count] rest IH]; cbn [print_breakdown]; quiet_tac.
  exact IH.
Qed.

Lemma quiet_print_devices devices : quiet (print_devices devices).
Proof.
  induction devices as [| device rest IH]; cbn [print_devices]; quiet_tac. exact IH.
Qed.

Lemma calm_check_command_queue_status imei : calm (_check_command_queue_status imei).
Proof.
  unfold _check_command_queue_status.
  pose proof (calm_next_commands_try_finally imei) as Hn.
  calm_tac; auto.
Qed.

Lemma calm_check_all_command_queues : calm _check_all_command_queues.
Proof.
  unfold _check_all_command_queues.
  pose proof quiet_print_devices as Hd.
  calm_tac; apply calm_quiet; quiet_tac; auto.
Qed.

Lemma calm_check_monitor_status self : calm (check_monitor_status self).
Proof.
  unfold check_monitor_status.
  pose proof (calm_analyze_message_types self) as Ha.
  pose proof calm_check_command_queue_status as Hc.
  pose proof calm_check_all_command_queues as Hall.
  pose proof quiet_print_breakdown as Hb.
  apply calm_try_except; [| intros ?; apply calm_quiet; quiet_tac].
  apply calm_bind; [apply calm_ensure_connection | intros _].
  apply calm_bind; [apply calm_queue_declare_passive | intros queue_info].
  do 2 (apply calm_bind; [apply calm_quiet; quiet_tac | intros _]).
  apply calm_bind; [destruct (filtering self); apply calm_quiet; quiet_tac | intros _].
  do 5 (apply calm_bind; [apply calm_quiet; quiet_tac | intros _]).
  apply calm_bind; [unfold when; destruct (_ && _)%bool; apply calm_quiet; quiet_tac
                   | intros _].
  apply calm_bind.
  - destruct (0 <? fst queue_info); [| apply calm_quiet; quiet_tac].
    apply calm_bind; [apply Ha | intros analysis].
    apply calm_quiet.
    apply quiet_bind;
      [destruct (filtering self); [destruct (snd analysis) |]; quiet_tac | intros _].
    apply quiet_bind; [quiet_tac | intros _].
    apply quiet_bind; [apply Hb | intros _].
    quiet_tac.
  - intros message_types.
    apply calm_bind; [destruct (filtering self); [apply Hc | apply Hall] | intros _].
    apply calm_quiet; quiet_tac.
Qed.

Lemma calm_probe_queues check_queues : forall discovered_queues queues_found,
  calm (probe_queues check_queues discovered_queues queues_found).
Proof.
  induction check_queues as [| c rest IH]; intros disc found w Hu;
    unfold probe_queues; fold probe_queues.
  - now split.
  - destruct (decide (c ∈ disc)); [now apply IH |].
    destruct (calm_queue_declare_passive c w Hu) as [Hq1 Hu1].
    destruct (queue_declare_passive c w) as [[queue_info | e] w1]; cbn [snd] in *.
    + match goal with |- context [probe_queues rest ?d ?f w1] =>
        destruct (IH d f w1 Hu1) as [Hq2 Hu2]
      end. split; congruence.
    + destruct (is_Exception e); [| now split].
      destruct (IH disc found w1 Hu1) as [Hq2 Hu2]. split; congruence.
Qed.

Lemma calm_discover_queues_smart : calm _discover_queues_smart.
Proof.
  intros w Hu. unfold _discover_queues_smart, management_query, requests_get.
  cbn [emit add_trace mgmt].
  assert (Hfall : forall e found v,
             queues v = queues w -> unacked v = [] ->
             let c := (logger_debug "Management API not available: {e}" [AExn e] ;;;
                       logger_info "Management API not available, using smart fallback method..." [] ;;;
                       logger_info "💡 To see ALL queues, install requests library: pip install requests" [] ;;;
                       logger_info "💡 And enable RabbitMQ management plugin on the server" [] ;;;
                       logger_info "Scanning for active IMEI queues..." [] ;;;
                       queues_found <- probe_queues system_queues ∅ found ;;
                       match queues_found with
                       | [] =>
                           logger_warning
                             "⚠️  No queues discovered. Management API recommended for full visibility." []
                       | _ =>
                           logger_info "Found {} queues using fallback method"
                             [AInt (Z.of_nat (List.length queues_found))] ;;;
                           logger_warning
                             "⚠️  Note: Fallback method may not show all queues. Some queues might be missing."
                             []
                       end ;;;
                       ret queues_found) in
             queues (snd (c v)) = queues w /\ unacked (snd (c v)) = []).
  { intros e found v Hq Hv c.
    assert (Hc : calm c).
    { unfold c. pose proof calm_probe_queues as Hp. calm_tac; auto. }
    destruct (Hc v Hv) as [Hq' Hu']. split; congruence. }
  destruct (mgmt w) as [e | code body].
  - destruct (is_Exception e); [| now split]. now apply Hfall.
  - destruct (code =? 200); [| now apply Hfall].
    destruct body as [items |]; [| now apply Hfall].
    destruct (append_descriptors items []) as [[[] | e] found].
    + now split.
    + destruct (is_Exception e); [| now split]. now apply Hfall.
Qed.

Lemma quiet_print_rows l : quiet (print_rows l).
Proof. induction l as [| q l IH]; cbn [print_rows]; quiet_tac. exact IH. Qed.

Lemma calm_list_all_queues filter_type show_active_only :
  calm (list_all_queues filter_type show_active_only).
Proof.
  unfold list_all_queues.
  pose proof calm_discover_queues_smart as Hd.
  pose proof quiet_print_rows as Hr.
  apply calm_try_except; [| intros ?; apply calm_quiet; quiet_tac].
  apply calm_bind; [apply calm_ensure_connection | intros _].
  apply calm_bind; [apply calm_quiet; quiet_tac | intros _].
  apply calm_bind; [apply calm_quiet; quiet_tac | intros _].
  apply calm_bind; [apply calm_quiet; quiet_tac | intros _].
  apply calm_bind; [apply Hd | intros queues_found].
  apply calm_quiet. destruct queues_found; [quiet_tac |].
  destruct (apply_filter _ _ _); quiet_tac. apply Hr.
Qed.

(** The status displays do not consume anything: started with no delivery
    waiting for its acknowledgment, [check_monitor_status],
    [_check_command_queue_status], [_check_all_command_queues],
    [check_queue_status] and [list_all_queues] leave every queue of the
    broker with the same messages in the same order, and no delivery
    waiting, whatever the messages hold and whether or not the queues they
    look at exist. *)
Theorem status_displays_keep_queues self imei filter_type show_active_only w :
  unacked w = [] ->
  let kept (w' : world) := queues w' = queues w /\ unacked w' = [] in
  kept (snd (check_monitor_status self w)) /\
  kept (snd (_check_command_queue_status imei w)) /\
  kept (snd (_check_all_command_queues w)) /\
  kept (snd (check_queue_status imei w)) /\
  kept (snd (list_all_queues filter_type show_active_only w)).
Proof.
  intros Hu kept. unfold kept.
  split; [exact (calm_check_monitor_status self w Hu) |].
  split; [exact (calm_check_command_queue_status imei w Hu) |].
  split; [exact (calm_check_all_command_queues w Hu) |].
  split; [| exact (calm_list_all_queues filter_type show_active_only w Hu)].
  assert (Hc : calm (check_queue_status imei)) by (unfold check_queue_status; calm_tac).
  exact (Hc w Hu).
Qed.

End NonDestructive.

Lemma status_displays_keep_queues_witness :
  let w := one_queue data_queue [not_utf8; telemetry_111] 0 in
  queues (snd (@check_monitor_status py_json filter_111 w)) = queues w /\
  unacked (snd (@check_monitor_status py_json filter_111 w)) = [].
Proof.
  intros w.
  destruct (@status_displays_keep_queues py_json filter_111 "111" "all" false w eq_refl)
    as (H & _).
  exact H.
Defined.

(** ** The overview of the command queues *)

Lemma scan_devices_closed imeis : forall device_queues w,
  chan_open w = false ->
  scan_devices imeis device_queues w =
  (Ok device_queues, add_trace (List.map (fun n => EvDeclare n true false) imeis) w).
Proof.
  induction imeis as [| imei rest IH]; intros device_queues w Hc; cbn [scan_devices List.map].
  - now rewrite add_trace_nil.
  - rewrite (declare_passive_closed imei w Hc). cbn [is_Exception].
    rewrite IH by exact Hc. unfold emit. now rewrite add_trace_app.
Qed.

Lemma scan_devices_open imeis : forall device_queues w,
  chan_open w = true ->
  exists w',
    scan_devices imeis device_queues w =
      (Ok (device_queues ++ scanned (queues w) imeis), w') /\
    trace w' = trace w ++ List.map (fun n => EvDeclare n true false) imeis /\
    (chan_open w' = true <-> Forall (fun n => is_Some (queues w !! n)) imeis).
Proof.
  induction imeis as [| imei rest IH]; intros device_queues w Ho;
    cbn [scan_devices scanned List.map].
  - exists w. rewrite !app_nil_r. repeat split; auto.
  - destruct (queues w !! imei) as [q |] eqn:Eq.
    + rewrite (declare_passive_found imei q w Ho Eq).
      set (active := ((0 <? fst (counts q)) || (0 <? snd (counts q)))%bool).
      assert (Hstep : forall found,
                 exists w',
                   scan_devices rest found (emit (EvDeclare imei true false) w) =
                     (Ok (found ++ scanned (queues w) rest), w') /\
                   trace w' = trace w ++ EvDeclare imei true false
                                :: List.map (fun n => EvDeclare n true false) rest /\
                   (chan_open w' = true <->
                    Forall (fun n => is_Some (queues w !! n)) (imei :: rest))).
      { intros found.
        destruct (IH found (emit (EvDeclare imei true false) w) Ho) as (w' & Hs & Ht & Hc).
        exists w'. split; [exact Hs |].
        split; [rewrite Ht; cbn [emit add_trace trace]; now rewrite <- app_assoc |].
        rewrite Hc. cbn [emit add_trace queues]. split.
        - intros H. constructor; [rewrite Eq; eauto | exact H].
        - intros H. now inversion H. }
      destruct active.
      * destruct (Hstep (device_queues ++
                         [{| dq_imei := imei; dq_messages := fst (counts q);
                             dq_consumers := snd (counts q);
                             dq_status := if 0 <? snd (counts q)
                                          then "🟢 ONLINE" else "🔴 OFFLINE" |}]))
          as (w' & Hs & Ht & Hc).
        exists w'. rewrite Hs, <- app_assoc. auto.
      * destruct (Hstep device_queues) as (w' & Hs & Ht & Hc).
        exists w'. rewrite Hs. auto.
    + rewrite (declare_passive_missing imei w Ho Eq). cbn [is_Exception].
      rewrite scan_devices_closed by reflexivity.
      eexists. split; [now rewrite app_nil_r |].
      split; [cbn [trace close_channel set_broker emit add_trace];
              now rewrite <- app_assoc |].
      cbn [chan_open close_channel set_broker add_trace]. split; [discriminate |].
      intros H. inversion H as [| ? ? [q Hq] _]; subst. congruence.
Qed.

Lemma print_devices_run devices : forall w,
  print_devices devices w = (Ok tt, add_trace (List.map device_line devices) w).
Proof.
  induction devices as [| device rest IH]; intros w; cbn [print_devices List.map].
  - now rewrite add_trace_nil.
  - rewrite bind_print, IH, add_trace_app. reflexivity.
Qed.

Lemma filter_device_lines l :
  List.filter is_device_line (List.map device_line l) = List.map device_line l.
Proof. induction l as [| d l IH]; [reflexivity |]. cbn [List.map]. simpl. now rewrite IH. Qed.

Lemma filter_device_declares imeis :
  List.filter is_device_line (List.map (fun n => EvDeclare n true false) imeis) = [].
Proof. induction imeis as [| n l IH]; [reflexivity | exact IH]. Qed.

Lemma device_lt_asym x y : device_lt x y = true -> device_lt y x = false.
Proof.
  unfold device_lt.
  destruct (Z.ltb_spec (dq_messages x) (dq_messages y)),
    (Z.eqb_spec (dq_messages x) (dq_messages y)),
    (Z.ltb_spec (dq_consumers x) (dq_consumers y)),
    (Z.ltb_spec (dq_messages y) (dq_messages x)),
    (Z.eqb_spec (dq_messages y) (dq_messages x)),
    (Z.ltb_spec (dq_consumers y) (dq_consumers x));
    cbn [andb orb]; intros Hb; try reflexivity; try discriminate; exfalso; lia.
Qed.

Lemma device_lt_negtrans x y z :
  device_lt x y = false -> device_lt y z = false -> device_lt x z = false.
Proof.
  unfold device_lt.
  destruct (Z.ltb_spec (dq_messages x) (dq_messages y)),
    (Z.eqb_spec (dq_messages x) (dq_messages y)),
    (Z.ltb_spec (dq_consumers x) (dq_consumers y)),
    (Z.ltb_spec (dq_messages y) (dq_messages z)),
    (Z.eqb_spec (dq_messages y) (dq_messages z)),
    (Z.ltb_spec (dq_consumers y) (dq_consumers z)),
    (Z.ltb_spec (dq_messages x) (dq_messages z)),
    (Z.eqb_spec (dq_messages x) (dq_messages z)),
    (Z.ltb_spec (dq_consumers x) (dq_consumers z));
    cbn [andb orb]; intros Hxy Hyz; try reflexivity; try discriminate; exfalso; lia.
Qed.

Lemma firstn_display {A} (l : list A) :
  firstn (Z.to_nat (Z.min 5 (Z.of_nat (List.length l)))) l = firstn 5 l.
Proof.
  destruct (Z.le_ge_cases 5 (Z.of_nat (List.length l))) as [Hl | Hl].
  - rewrite Z.min_l by lia. reflexivity.
  - rewrite Z.min_r by lia. rewrite Nat2Z.id, List.firstn_all.
    symmetry. apply List.firstn_all2. lia.
Qed.

Ltac no_device_lines :=
  repeat match goal with
  | |- context [List.filter is_device_line (?a :: ?l)] =>
      replace (List.filter is_device_line (a :: l)) with (@nil event) by reflexivity
  end.

(** [_check_all_command_queues].  On an open channel the overview asks
    for the twelve hard-coded device queues in turn and always returns.  The
    devices it lists are those found up to the first queue that does not
    exist (the failed check closes the channel, so every later check fails
    too), with messages or consumers, in descending order of
    (messages, consumers), the first five of them.  The channel is open
    afterwards exactly when all twelve queues exist. *)
Theorem command_queue_overview w :
  chan_open w = true ->
  let found := sort_reverse device_lt (scanned (queues w) common_imeis) in
  exists w' evs,
    _check_all_command_queues w = (Ok tt, w') /\
    trace w' = trace w ++ evs /\
    List.filter is_device_line evs = List.map device_line (firstn 5 found) /\
    StronglySorted (fun a b => device_lt a b = false) found /\
    (chan_open w' = true <->
     Forall (fun imei => is_Some (queues w !! imei)) common_imeis).
Proof.
  intros Ho found.
  pose proof (sort_reverse_descending device_lt device_lt_asym device_lt_negtrans
                (scanned (queues w) common_imeis)) as Hsorted.
  fold found in Hsorted.
  destruct (scan_devices_open common_imeis []
              (add_trace
                 [EvOut STDOUT "🔧 COMMAND QUEUES OVERVIEW" [];
                  EvOut STDOUT "   Status: No specific device selected" [];
                  EvOut STDOUT "   💡 Tip: Use --imei <IMEI> or select 'Change/Set IMEI' to monitor specific device commands" []]
                 w) Ho) as (w1 & Hs & Ht & Hc).
  cbn [app] in Hs.
  change (queues (add_trace _ w)) with (queues w) in Hs, Hc.
  cbn [trace add_trace] in Ht.
  destruct (scanned (queues w) common_imeis) as [| d l] eqn:Hfound.
  - eexists. eexists. split; [| split; [| split; [| split]]].
    + unfold _check_all_command_queues. apply try_except_ok.
      rewrite !bind_print, !add_trace_app. cbn [app].
      rewrite (bind_ok _ _ _ _ _ Hs). apply run_print.
    + cbn [trace add_trace]. rewrite Ht, <- !app_assoc. reflexivity.
    + rewrite !List.filter_app, filter_device_declares. no_device_lines. reflexivity.
    + exact Hsorted.
    + exact Hc.
  - destruct (5 <? Z.of_nat (List.length found)) eqn:Hmore.
    + eexists. eexists. split; [| split; [| split; [| split]]].
      * unfold _check_all_command_queues. apply try_except_ok.
        rewrite !bind_print, !add_trace_app. cbn [app].
        rewrite (bind_ok _ _ _ _ _ Hs).
        fold found. rewrite bind_print.
        erewrite bind_ok; [| apply print_devices_run].
        rewrite Hmore. cbn [when]. apply run_print.
      * cbn [trace add_trace]. rewrite Ht, <- !app_assoc. reflexivity.
      * rewrite !List.filter_app, filter_device_declares, filter_device_lines.
        no_device_lines. cbn [app]. rewrite app_nil_r. now rewrite firstn_display.
      * exact Hsorted.
      * exact Hc.
    + eexists. eexists. split; [| split; [| split; [| split]]].
      * unfold _check_all_command_queues. apply try_except_ok.
        rewrite !bind_print, !add_trace_app. cbn [app].
        rewrite (bind_ok _ _ _ _ _ Hs).
        fold found. rewrite bind_print.
        erewrite bind_ok; [| apply print_devices_run].
        rewrite Hmore. reflexivity.
      * cbn [trace add_trace]. rewrite Ht, <- !app_assoc. reflexivity.
      * rewrite !List.filter_app, filter_device_declares, filter_device_lines.
        no_device_lines. cbn [app]. now rewrite firstn_display.
      * exact Hsorted.
      * exact Hc.
Qed.

Lemma command_queue_overview_witness :
  exists w' evs,
    _check_all_command_queues two_devices = (Ok tt, w') /\
    trace w' = evs /\
    List.filter is_device_line evs =
      [device_line {| dq_imei := "350317177240177"; dq_messages := 1;
                      dq_consumers := 0; dq_status := "🔴 OFFLINE" |}] /\
    chan_open w' = false.
Proof.
  destruct (command_queue_overview two_devices eq_refl)
    as (w' & evs & Hrun & Ht & Hlines & _ & Hc).
  exists w', evs. split; [exact Hrun |]. split; [exact Ht |].
  split; [rewrite Hlines; vm_compute; reflexivity |].
  destruct (chan_open w'); [exfalso | reflexivity].
  destruct Hc as [Hc _]. specialize (Hc eq_refl).
  inversion Hc as [| ? ? _ Hrest]; subst.
  inversion Hrest as [| ? ? [q Hq] _]; subst.
  vm_compute in Hq. discriminate.
Defined.
